(** * NotebookLM automation core: completion detection, session protocol,
      session pool and credential checks

    A shallow embedding of the TypeScript sources
    - [src/utils/page-utils.ts]          (module [PageUtils]),
    - [src/auth/auth-manager.ts], the class [AuthManager], whose text is
      the second part of [src/library/notebook-library.ts]
                                         (module [AuthManager]),
    - [src/library/notebook-library.ts], the class [NotebookLibrary]
                                         (module [NotebookLibrary]),
    - [src/session/browser-session.ts]   (module [BrowserSession]),
    - [src/session/session-manager.ts], the class [SessionManager]
                                         (module [SessionManager]),
    followed by the theorems about them.

    Conventions.  An awaited call of the automation driver either resolves
    or rejects; it is an [outcome].  What the browser answers is not
    computed by the program, so every function takes the answers it will
    receive as data (a page snapshot per poll tick, a script per [askOnce]
    attempt) and threads the object fields it mutates explicitly.  Text is
    a [string] of 8-bit character codes; [charCodeAt] is the code of the
    character.  Log calls have no effect on control flow and are left out.
    A function is the call run with no other call in between; the calls
    of the pool that overlap at an [await] are composed from these in
    [SessionManager.overlapped].  Numbers are integers or rationals, and
    [Js.divide] rounds a quotient to the nearest double. *)

From Stdlib Require Import ZArith QArith Qround Qabs String Ascii List Bool Lia.
From Stdlib Require Import DecimalString DecimalNat DecimalZ.
From stdpp Require Import base gmap strings list.
Import ListNotations.

Local Open Scope string_scope.
Local Open Scope Z_scope.

(* ===================================================================== *)
(** ** JavaScript values used by the sources                              *)
(* ===================================================================== *)

Module Js.

(** An [Error] object: its [name] and its [message]. *)
Record JsError : Type := mkError { errName : string; errMessage : string }.

(** [new Error(msg)] *)
Definition Error_ (msg : string) : JsError := mkError "Error" msg.

(** The result of awaiting a promise. *)
Inductive outcome (A : Type) : Type :=
| Resolved (a : A)
| Rejected (e : JsError).
Arguments Resolved {A} a.
Arguments Rejected {A} e.

Definition isEmpty (s : string) : bool :=
  match s with EmptyString => true | String _ _ => false end.

Definition isNull {A : Type} (o : option A) : bool :=
  match o with None => true | Some _ => false end.

(** A string is truthy when it is not empty. *)
Definition truthy (s : string) : bool := negb (isEmpty s).

(** [String(error?.message || error)]: the message, or for an empty
    message the string form of the error object, which is then its name. *)
Definition errorText (e : JsError) : string :=
  if truthy (errMessage e) then errMessage e else errName e.

Definition charCode (c : ascii) : Z := Z.of_N (N_of_ascii c).

(** White space and line terminators among the 8-bit codes: TAB, LF, VT,
    FF, CR, SP and NBSP. *)
Definition isWhiteSpace (c : ascii) : bool :=
  let n := charCode c in
  ((9 <=? n) && (n <=? 13)) || (n =? 32) || (n =? 160).

Fixpoint trimStart (s : string) : string :=
  match s with
  | EmptyString => EmptyString
  | String c r => if isWhiteSpace c then trimStart r else s
  end.

Fixpoint trimEnd (s : string) : string :=
  match s with
  | EmptyString => EmptyString
  | String c r =>
      match trimEnd r with
      | EmptyString =>
          if isWhiteSpace c then EmptyString else String c EmptyString
      | String _ _ as r' => String c r'
      end
  end.

(** [s.trim()] *)
Definition trim (s : string) : string := trimEnd (trimStart s).

(** Lower-case mapping of one code: A-Z and the Latin-1 capitals. *)
Definition lowerChar (c : ascii) : ascii :=
  let n := charCode c in
  if ((65 <=? n) && (n <=? 90))
     || ((192 <=? n) && (n <=? 222) && negb (n =? 215))
  then ascii_of_N (Z.to_N (n + 32)) else c.

(** [s.toLowerCase()] *)
Fixpoint toLowerCase (s : string) : string :=
  match s with
  | EmptyString => EmptyString
  | String c r => String (lowerChar c) (toLowerCase r)
  end.

(** [s.startsWith(k)] *)
Definition startsWith (s k : string) : bool := String.prefix k s.

(** [s.includes(k)] *)
Fixpoint includes (s k : string) : bool :=
  startsWith s k
  || match s with
     | EmptyString => false
     | String _ r => includes r k
     end.

(** ToInt32: reduction modulo 2^32 into the signed 32-bit range. *)
Definition toInt32 (z : Z) : Z := (z + 2 ^ 31) mod 2 ^ 32 - 2 ^ 31.

(** [a << n] and [a & b] on numbers. *)
Definition shl (a n : Z) : Z := toInt32 (Z.shiftl (toInt32 a) n).
Definition band (a b : Z) : Z := Z.land (toInt32 a) (toInt32 b).

(** The string of an integer number, as a template literal prints it
    (below 10^21, from where on the exponent form is used). *)
Definition numberToString (z : Z) : string :=
  NilZero.string_of_int (Z.to_int z).

(** The integer nearest to a rational, the even one of two that are
    equally near. *)
Definition roundHalfEven (x : Q) : Z :=
  let f := Qfloor x in
  match (x - inject_Z f ?= 1 # 2)%Q with
  | Lt => f
  | Gt => f + 1
  | Eq => if Z.even f then f else f + 1
  end.

(** [floor(log2(a))] for a positive rational. *)
Definition floorLog2 (a : Q) : Z :=
  let e := Z.log2 (Qnum a) - Z.log2 (Zpos (Qden a)) in
  if Qle_bool (2 ^ e) a then e else e - 1.

(** The double (IEEE 754 binary64) nearest to a rational, ties to even:
    53 significant bits, and from the exponent -1022 down the fixed
    spacing 2^-1074 of the subnormal numbers.  A rational beyond the
    largest double, which rounds to [Infinity], is outside the model. *)
Definition toDouble (x : Q) : Q :=
  if Qeq_bool x 0 then 0%Q
  else
    let a := Qabs x in
    let e := Z.max (floorLog2 a) (-1022) in
    let quantum := (2 ^ (e - 52))%Q in
    let magnitude := (inject_Z (roundHalfEven (a / quantum)) * quantum)%Q in
    if Qle_bool 0 x then magnitude else (- magnitude)%Q.

(** [x / y] on numbers: the double nearest to the quotient. *)
Definition divide (x y : Q) : Q := toDouble (x / y).

End Js.
Export Js.

(* ===================================================================== *)
(** ** src/utils/page-utils.ts                                            *)
(* ===================================================================== *)

Module PageUtils.

(** CSS selectors to find assistant response elements, most specific
    first. *)
Definition RESPONSE_SELECTORS : list string :=
  [ ".to-user-container .message-text-content";
    "[data-message-author='bot']";
    "[data-message-author='assistant']";
    "[data-message-role='assistant']";
    "[data-author='assistant']";
    "[data-renderer*='assistant']";
    "[data-automation-id='response-text']";
    "[data-automation-id='assistant-response']";
    "[data-automation-id='chat-response']";
    "[data-testid*='assistant']";
    "[data-testid*='response']";
    "[aria-live='polite']";
    "[role='listitem'][data-message-author]" ].

(** [hashString]: the loop body is
    [hash = (hash << 5) - hash + char; hash = hash & hash]. *)
Fixpoint hashFrom (hash : Z) (str : string) : Z :=
  match str with
  | EmptyString => hash
  | String c r =>
      let char := charCode c in
      let hash1 := shl hash 5 - hash + char in
      hashFrom (band hash1 hash1) r
  end.

Definition hashString (str : string) : Z := hashFrom 0 str.

(** *** The page as the driver shows it at one poll tick *)

(** A [.to-user-container]: what [container.$(".message-text-content")]
    gives, and what [innerText()] of that element gives. *)
Record Container : Type := mkContainer {
  messageTextContent : outcome (option (outcome string))
}.

(** An element matched by a fallback selector: the [innerText()] of its
    closest message container when [evaluateHandle] finds one, and its
    own [innerText()]. *)
Record ResponseElement : Type := mkResponseElement {
  closestContainer : outcome (option (outcome string));
  elementText : outcome string
}.

(** A DOM node seen by the script run inside the page: its identity, the
    verdict of the local [isVisible] helper, and its two text
    properties. *)
Record DomElement : Type := mkDomElement {
  node : nat;
  domVisible : bool;
  innerText : string;
  textContent : string
}.

Record Page : Type := mkPage {
  (** [page.$('div.thinking-message')], then [isVisible()] *)
  thinkingMessage : outcome (option (outcome bool));
  (** [page.$$(".to-user-container")] *)
  toUserContainers : outcome (list Container);
  (** [page.$$(selector)] for the fallback selectors *)
  queryAll : string -> outcome (list ResponseElement);
  (** [page.evaluate(...)]: [document.querySelectorAll(selector)] *)
  documentQueryAll : outcome (string -> list DomElement);
  (** [page.waitForTimeout(pollIntervalMs)] *)
  waitForTimeout : outcome unit
}.

Definition known (knownHashes : gset Z) (text : string) : bool :=
  bool_decide (hashString text ∈ knownHashes).

(** The [for] loop over the primary containers: the first container
    whose trimmed text is not empty and has an unknown hash. *)
Fixpoint scanContainers (knownHashes : gset Z) (containers : list Container)
  : option string :=
  match containers with
  | [] => None
  | container :: rest =>
      match messageTextContent container with
      | Resolved (Some (Resolved text)) =>
          if truthy (trim text) then
            if negb (known knownHashes (trim text)) then Some (trim text)
            else scanContainers knownHashes rest
          else scanContainers knownHashes rest
      | _ => scanContainers knownHashes rest
      end
  end.

(** [container.innerText()] where [container] is the closest message
    container, or the element itself. *)
Definition containerText (element : ResponseElement) : outcome string :=
  match closestContainer element with
  | Resolved (Some text) => text
  | Resolved None => elementText element
  | Rejected _ => elementText element
  end.

Fixpoint scanElements (knownHashes : gset Z) (elements : list ResponseElement)
  : option string :=
  match elements with
  | [] => None
  | element :: rest =>
      match containerText element with
      | Resolved text =>
          if truthy (trim text) && negb (known knownHashes (trim text))
          then Some (trim text)
          else scanElements knownHashes rest
      | Rejected _ => scanElements knownHashes rest
      end
  end.

(** The loop over [RESPONSE_SELECTORS]. *)
Fixpoint scanSelectors (page : Page) (knownHashes : gset Z)
    (selectors : list string) : option string :=
  match selectors with
  | [] => None
  | selector :: rest =>
      match queryAll page selector with
      | Resolved [] => scanSelectors page knownHashes rest
      | Resolved elements =>
          match scanElements knownHashes elements with
          | Some text => Some text
          | None => scanSelectors page knownHashes rest
          end
      | Rejected _ => scanSelectors page knownHashes rest
      end
  end.

(** The script of the final fallback. *)
Definition RAW_SELECTORS : list string :=
  [ "[data-message-author]";
    "[data-message-role]";
    "[data-author]";
    "[data-renderer*='assistant']";
    "[data-testid*='assistant']";
    "[data-automation-id*='response']" ].

(** The inner loop over the nodes of one selector; [unique] is the set
    of nodes met so far and [candidates] the texts pushed so far. *)
Fixpoint collectNodes (nodes : list DomElement) (unique : gset nat)
    (candidates : list string) : gset nat * list string :=
  match nodes with
  | [] => (unique, candidates)
  | el :: rest =>
      if negb (domVisible el) then collectNodes rest unique candidates
      else if bool_decide (node el ∈ unique)
      then collectNodes rest unique candidates
      else
        let unique' := {[ node el ]} ∪ unique in
        let text :=
          if truthy (innerText el) then innerText el
          else if truthy (textContent el) then textContent el
          else "" in
        if negb (truthy (trim text)) then collectNodes rest unique' candidates
        else collectNodes rest unique' (candidates ++ [trim text])
  end.

Fixpoint collectSelectors (document : string -> list DomElement)
    (selectors : list string) (unique : gset nat) (candidates : list string)
  : list string :=
  match selectors with
  | [] => candidates
  | selector :: rest =>
      let '(unique', candidates') :=
        collectNodes (document selector) unique candidates in
      collectSelectors document rest unique' candidates'
  end.

(** [candidates[candidates.length - 1]], or [null]. *)
Definition rawScan (document : string -> list DomElement) : option string :=
  last (collectSelectors document RAW_SELECTORS ∅ []).

Definition finalFallback (page : Page) : option string :=
  match documentQueryAll page with
  | Resolved document =>
      match rawScan document with
      | Some fallbackText =>
          if truthy (trim fallbackText) then Some (trim fallbackText)
          else None
      | None => None
      end
  | Rejected _ => None
  end.

(** Everything after the primary [try] block. *)
Definition fallbackChain (page : Page) (knownHashes : gset Z)
  : option string :=
  match scanSelectors page knownHashes RESPONSE_SELECTORS with
  | Some text => Some text
  | None => finalFallback page
  end.

(** [extractLatestText(page, knownHashes, debug, pollCount)] *)
Definition extractLatestText (page : Page) (knownHashes : gset Z)
  : option string :=
  match toUserContainers page with
  | Resolved containers =>
      let totalContainers := length containers in
      if (totalContainers <=? size knownHashes)%nat then None
      else if (0 <? length containers)%nat
      then scanContainers knownHashes containers
      else fallbackChain page knownHashes
  | Rejected _ => fallbackChain page knownHashes
  end.

(** *** [waitForLatestAnswer] *)

Definition requiredStablePolls : nat := 3.

(** The hashes of the texts to ignore. *)
Fixpoint ignoreHashes (ignoreTexts : list string) (knownHashes : gset Z)
  : gset Z :=
  match ignoreTexts with
  | [] => knownHashes
  | text :: rest =>
      if truthy (trim text)
      then ignoreHashes rest ({[ hashString (trim text) ]} ∪ knownHashes)
      else ignoreHashes rest knownHashes
  end.

(** The thinking check of one tick: [true] when the indicator element
    exists and is visible. *)
Definition thinkingVisible (page : Page) : bool :=
  match thinkingMessage page with
  | Resolved (Some (Resolved isVisible)) => isVisible
  | _ => false
  end.

Record WaitResult : Type := mkWaitResult {
  answer : outcome (option string);
  pollCount : nat
}.

(** The variables of the polling loop. *)
Record LoopState : Type := mkLoopState {
  knownHashes : gset Z;
  lastCandidate : option string;
  stableCount : nat
}.

(** What one iteration of the [while] loop does. *)
Inductive Tick : Type :=
| Continue (st : LoopState)     (** slept, next iteration *)
| Return (normalized : string)  (** [return normalized] *)
| Throw (e : JsError).          (** a rejection left the function *)

Definition sleepThen (page : Page) (st : LoopState) : Tick :=
  match waitForTimeout page with
  | Resolved _ => Continue st
  | Rejected e => Throw e
  end.

Definition sameText (normalized : string) (last : option string) : bool :=
  match last with
  | Some l => String.eqb normalized l
  | None => false
  end.

(** The part of the loop body after the thinking check. *)
Definition extractStep (sanitizedQuestion : string) (page : Page)
    (st : LoopState) : Tick :=
  match extractLatestText page (knownHashes st) with
  | Some candidate =>
      if truthy candidate then
        let normalized := trim candidate in
        if truthy normalized then
          let lower := toLowerCase normalized in
          if String.eqb lower sanitizedQuestion then
            sleepThen page
              (mkLoopState ({[ hashString normalized ]} ∪ knownHashes st)
                           (lastCandidate st) (stableCount st))
          else
            let st' :=
              if sameText normalized (lastCandidate st)
              then mkLoopState (knownHashes st) (lastCandidate st)
                               (S (stableCount st))
              else mkLoopState (knownHashes st) (Some normalized) 1%nat in
            if (requiredStablePolls <=? stableCount st')%nat
            then Return normalized
            else sleepThen page st'
        else sleepThen page st
      else sleepThen page st
  | None => sleepThen page st
  end.

(** One iteration.  The sleep of a thinking tick sits inside the [try]
    around the thinking check, so its rejection is swallowed and the
    iteration goes on to the extraction. *)
Definition tick (sanitizedQuestion : string) (page : Page) (st : LoopState)
  : Tick :=
  if thinkingVisible page then
    match waitForTimeout page with
    | Resolved _ => Continue st
    | Rejected _ => extractStep sanitizedQuestion page st
    end
  else extractStep sanitizedQuestion page st.

(** The [while (Date.now() < deadline)] loop; [pages] holds the page as
    it is at each iteration that starts before the deadline. *)
Fixpoint pollLoop (sanitizedQuestion : string) (pages : list Page)
    (st : LoopState) (pollCount : nat) : WaitResult :=
  match pages with
  | [] => mkWaitResult (Resolved None) pollCount
  | page :: rest =>
      let pollCount := S pollCount in
      match tick sanitizedQuestion page st with
      | Continue st' => pollLoop sanitizedQuestion rest st' pollCount
      | Return normalized => mkWaitResult (Resolved (Some normalized)) pollCount
      | Throw e => mkWaitResult (Rejected e) pollCount
      end
  end.

Definition waitForLatestAnswer (question : string)
    (ignoreTexts : list string) (pages : list Page) : WaitResult :=
  let sanitizedQuestion := toLowerCase (trim question) in
  pollLoop sanitizedQuestion pages
    (mkLoopState (ignoreHashes ignoreTexts ∅) None 0%nat) 0%nat.

(** [snapshotAllResponses(page)]: the trimmed texts of all primary
    containers; every error is swallowed. *)
Fixpoint containerTexts (containers : list Container) : list string :=
  match containers with
  | [] => []
  | container :: rest =>
      match messageTextContent container with
      | Resolved (Some (Resolved text)) =>
          if truthy (trim text) then trim text :: containerTexts rest
          else containerTexts rest
      | _ => containerTexts rest
      end
  end.

Definition snapshotAllResponses (page : Page) : list string :=
  match toUserContainers page with
  | Resolved containers => containerTexts containers
  | Rejected _ => []
  end.

(** [snapshotLatestResponse(page)]:
    [extractLatestText(page, new Set(), false, 0)] *)
Definition snapshotLatestResponse (page : Page) : option string :=
  extractLatestText page ∅.

End PageUtils.

(* ===================================================================== *)
(** ** src/auth/auth-manager.ts                                           *)
(* ===================================================================== *)

Module AuthManager.

(** Critical cookie names for Google authentication. *)
Definition CRITICAL_COOKIE_NAMES : list string :=
  [ "SID"; "HSID"; "SSID"; "APISID"; "SAPISID"; "OSID"; "__Secure-OSID";
    "__Secure-1PSID"; "__Secure-3PSID" ].

(** A cookie of the browser context.  [expires] is Unix time in seconds,
    [-1] for a session cookie, and may be missing. *)
Record Cookie : Type := mkCookie {
  name : string;
  domain : string;
  expires : option Q
}.

Definition Qlt_bool (x y : Q) : bool := negb (Qle_bool y x).

(** [CRITICAL_COOKIE_NAMES.includes(c.name)] *)
Definition isCritical (c : Cookie) : bool :=
  existsb (String.eqb (name c)) CRITICAL_COOKIE_NAMES.

(** [cookie.expires ?? -1] *)
Definition expiresOr (cookie : Cookie) : Q :=
  match expires cookie with Some e => e | None => (-1)%Q end.

(** The loop that fills [expiredCookies]. *)
Fixpoint expiredNames (currentTime : Q) (criticalCookies : list Cookie)
  : list string :=
  match criticalCookies with
  | [] => []
  | cookie :: rest =>
      let expires := expiresOr cookie in
      if Qeq_bool expires (-1) then expiredNames currentTime rest
      else if Qlt_bool expires currentTime
      then name cookie :: expiredNames currentTime rest
      else expiredNames currentTime rest
  end.

(** [validateCookiesExpiry(context)]: [cookies] is what
    [context.cookies()] gives and [nowMs] is [Date.now()], an integer
    number of milliseconds; [currentTime] is the double that the division
    by 1000 gives. *)
Definition validateCookiesExpiry (cookies : outcome (list Cookie))
    (nowMs : Z) : bool :=
  match cookies with
  | Resolved cookies =>
      if (length cookies =? 0)%nat then false
      else
        let criticalCookies := List.filter isCritical cookies in
        if (length criticalCookies =? 0)%nat then false
        else
          let currentTime := divide (inject_Z nowMs) 1000 in
          let expiredCookies := expiredNames currentTime criticalCookies in
          if (0 <? length expiredCookies)%nat then false else true
  | Rejected _ => false
  end.

(** A file on disk: the cookies of the snapshot it stores and its
    modification time in milliseconds. *)
Record StateFile : Type := mkStateFile {
  savedCookies : list Cookie;
  mtimeMs : Q
}.

(** The files of the state directory, by path. *)
Definition Disk : Type := string -> option StateFile.

Record AuthManager : Type := mkAuthManager {
  stateFilePath : string;
  sessionFilePath : string
}.

(** [getStatePath()]: [existsSync(this.stateFilePath)] *)
Definition getStatePath (am : AuthManager) (disk : Disk) : option string :=
  match disk (stateFilePath am) with
  | Some _ => Some (stateFilePath am)
  | None => None
  end.

(** [fs.stat(path)] rejects when there is no file. *)
Definition stat (disk : Disk) (path : string) : outcome StateFile :=
  match disk path with
  | Some f => Resolved f
  | None => Rejected (Error_ "ENOENT: no such file or directory")
  end.

Definition maxAgeSeconds : Q := (24 * 60 * 60)%Q.

(** [isStateExpired()] *)
Definition isStateExpired (am : AuthManager) (disk : Disk) (nowMs : Z)
  : bool :=
  match stat disk (stateFilePath am) with
  | Resolved stats =>
      let fileAgeSeconds := ((inject_Z nowMs - mtimeMs stats) / 1000)%Q in
      if Qlt_bool maxAgeSeconds fileAgeSeconds then true else false
  | Rejected _ => true
  end.

(** [getValidStatePath()] *)
Definition getValidStatePath (am : AuthManager) (disk : Disk) (nowMs : Z)
  : option string :=
  match getStatePath am disk with
  | None => None
  | Some statePath =>
      if isStateExpired am disk nowMs then None else Some statePath
  end.

End AuthManager.

(* ===================================================================== *)
(** ** src/session/browser-session.ts                                     *)
(* ===================================================================== *)

Module BrowserSession.
Import PageUtils.

(** The fields of a [BrowserSession] object.  [page] is the tab the
    session owns, named by a handle. *)
Record BrowserSession : Type := mkSession {
  sessionId : string;
  notebookUrl : string;
  createdAt : Z;
  lastActivity : Z;
  messageCount : Z;
  page : option nat;
  initialized : bool
}.

(** [new BrowserSession(sessionId, ..., notebookUrl)] at time [now]. *)
Definition new (sessionId notebookUrl : string) (now : Z) : BrowserSession :=
  mkSession sessionId notebookUrl now now 0 None false.

Definition setPage (s : BrowserSession) (p : option nat) : BrowserSession :=
  mkSession (sessionId s) (notebookUrl s) (createdAt s) (lastActivity s)
            (messageCount s) p (initialized s).

Definition setInitialized (s : BrowserSession) (b : bool) : BrowserSession :=
  mkSession (sessionId s) (notebookUrl s) (createdAt s) (lastActivity s)
            (messageCount s) (page s) b.

(** [updateActivity()] *)
Definition updateActivity (s : BrowserSession) (now : Z) : BrowserSession :=
  mkSession (sessionId s) (notebookUrl s) (createdAt s) now
            (messageCount s) (page s) (initialized s).

(** [this.messageCount++] *)
Definition incrMessageCount (s : BrowserSession) : BrowserSession :=
  mkSession (sessionId s) (notebookUrl s) (createdAt s) (lastActivity s)
            (messageCount s + 1) (page s) (initialized s).

(** What [init()] meets: the tab it holds when every step of its [try]
    block has resolved, or the error of the step that rejected; for a
    failure, the tab that [newPage()] had opened before it, if any, and
    what [this.page.close()] gives in the [catch] block; and the clock. *)
Record InitScript : Type := mkInitScript {
  initBody : outcome nat;
  initOpened : option nat;
  initPageClose : outcome unit;
  initNow : Z
}.

(** The [catch] block of [init()]: the tab held is closed and dropped,
    and the error is thrown again; a rejection of the close takes its
    place. *)
Definition initFailed (s : BrowserSession) (w : InitScript) (error : JsError)
  : outcome unit * BrowserSession :=
  let held :=
    match initOpened w with
    | Some tab => Some tab
    | None => page s
    end in
  match held with
  | Some _ =>
      match initPageClose w with
      | Resolved _ => (Rejected error, setPage s None)
      | Rejected closeError => (Rejected closeError, setPage s held)
      end
  | None => (Rejected error, setPage s None)
  end.

(** [init()] *)
Definition init (s : BrowserSession) (w : InitScript)
  : outcome unit * BrowserSession :=
  if initialized s then (Resolved tt, s)
  else
    match initBody w with
    | Resolved tab =>
        (Resolved tt,
         updateActivity (setInitialized (setPage s (Some tab)) true)
                        (initNow w))
    | Rejected error => initFailed s w error
    end.

(** [close()]: [pageClose] is what [this.page.close()] gives. *)
Definition close (s : BrowserSession) (pageClose : outcome unit)
  : BrowserSession :=
  let s1 :=
    match page s with
    | Some _ =>
        match pageClose with
        | Resolved _ => setPage s None
        | Rejected _ => s
        end
    | None => s
    end in
  setInitialized s1 false.

(** *** The closed-context pattern

    [/has been closed|Target .* closed|Browser has been closed|Context .* closed/i] *)

Definition isLineTerminator (c : ascii) : bool :=
  (charCode c =? 10) || (charCode c =? 13).

Fixpoint dropChars (n : nat) (s : string) : string :=
  match n, s with
  | O, _ => s
  | S n', String _ r => dropChars n' r
  | S _, EmptyString => EmptyString
  end.

(** [.*k] matched at the start of [s]. *)
Fixpoint dotStar (s k : string) : bool :=
  startsWith s k
  || match s with
     | EmptyString => false
     | String c r => if isLineTerminator c then false else dotStar r k
     end.

(** [a.*b] matched somewhere in [s]. *)
Fixpoint gapMatch (s a b : string) : bool :=
  (startsWith s a && dotStar (dropChars (String.length a) s) b)
  || match s with
     | EmptyString => false
     | String _ r => gapMatch r a b
     end.

Definition closedPattern (msg : string) : bool :=
  let m := toLowerCase msg in
  includes m "has been closed"
  || gapMatch m "target " " closed"
  || includes m "browser has been closed"
  || gapMatch m "context " " closed".

(** *** [detectRateLimitError] *)

Definition errorSelectors : list string :=
  [ ".error-message"; ".error-container"; "[role='alert']";
    ".rate-limit-message"; "[data-error]"; ".notification-error";
    ".alert-error"; ".toast-error" ].

Definition keywords : list string :=
  [ "rate limit"; "limit exceeded"; "quota exhausted"; "daily limit";
    "limit reached"; "too many requests"; "ratenlimit"; "quota";
    "query limit"; "request limit" ].

(** [keywords.some((k) => lower.includes(k))] *)
Definition hasKeyword (text : string) : bool :=
  let lower := toLowerCase text in
  existsb (fun k => includes lower k) keywords.

(** The chat input as the rate-limit check sees it: whether it is
    disabled, and the [innerText()] of its parent element if any. *)
Record ChatInput : Type := mkChatInput {
  isDisabled : outcome bool;
  parentText : outcome (option (outcome string))
}.

Record ErrorDom : Type := mkErrorDom {
  (** [page.$$(selector)], then [innerText()] of each element *)
  errorElements : string -> outcome (list (outcome string));
  (** [page.$("textarea.query-box-input")] *)
  queryBoxInput : outcome (option ChatInput)
}.

Fixpoint anyKeyword (elements : list (outcome string)) : bool :=
  match elements with
  | [] => false
  | Resolved text :: rest => if hasKeyword text then true else anyKeyword rest
  | Rejected _ :: rest => anyKeyword rest
  end.

Fixpoint scanErrorSelectors (dom : ErrorDom) (selectors : list string)
  : bool :=
  match selectors with
  | [] => false
  | selector :: rest =>
      match errorElements dom selector with
      | Resolved elements =>
          if anyKeyword elements then true else scanErrorSelectors dom rest
      | Rejected _ => scanErrorSelectors dom rest
      end
  end.

Definition disabledInputCheck (dom : ErrorDom) : bool :=
  match queryBoxInput dom with
  | Resolved (Some input) =>
      match isDisabled input with
      | Resolved true =>
          match parentText input with
          | Resolved (Some (Resolved text)) => hasKeyword text
          | _ => false
          end
      | _ => false
      end
  | _ => false
  end.

Definition detectRateLimitError (s : BrowserSession) (dom : ErrorDom)
  : bool :=
  match page s with
  | None => false
  | Some _ =>
      if scanErrorSelectors dom errorSelectors then true
      else disabledInputCheck dom
  end.

Definition RateLimitError : JsError :=
  mkError "RateLimitError"
    "NotebookLM rate limit reached (50 queries/day for free accounts)".

(** *** [ask] *)

(** What one run of [askOnce] meets, in the order of its awaits. *)
Record AskScript : Type := mkAskScript {
  (** [isPageClosedSafe()] for a page that is not null *)
  pageClosed : bool;
  initScript : InitScript;
  (** [context.cookies()] and [Date.now()] read by
      [validateCookiesExpiry] *)
  cookies : outcome (list AuthManager.Cookie);
  authNow : Z;
  (** [ensureAuthenticated()] with a page *)
  reAuth : outcome bool;
  (** the page when the existing responses are snapshotted *)
  pageBefore : Page;
  (** [findChatInput()] with a page *)
  chatInput : option string;
  (** [humanType(...)] and the pause after it *)
  typing : outcome unit;
  (** [page.keyboard.press("Enter")] and the pause after it *)
  pressEnter : outcome unit;
  (** the page at each poll tick before the deadline *)
  polls : list Page;
  (** the page when rate-limit errors are looked for *)
  errorDom : ErrorDom;
  (** [Date.now()] in [updateActivity()] *)
  doneNow : Z
}.

Definition ensureAuthenticated (s : BrowserSession) (w : AskScript)
  : outcome bool :=
  match page s with
  | None => Rejected (Error_ "Page not initialized")
  | Some _ => reAuth w
  end.

Definition findChatInput (s : BrowserSession) (w : AskScript)
  : option string :=
  match page s with
  | None => None
  | Some _ => chatInput w
  end.

(** [isPageClosedSafe()] *)
Definition isPageClosedSafe (s : BrowserSession) (w : AskScript) : bool :=
  match page s with
  | None => true
  | Some _ => pageClosed w
  end.

Definition noInputError : JsError :=
  Error_ ("Could not find visible chat input element. " ++
          "Please check if the notebook page has loaded correctly.").

Definition timeoutError : JsError :=
  Error_ "Timeout waiting for response from NotebookLM".

(** The body of [askOnce] from the snapshot of the existing responses
    on. *)
Definition askBody (question : string) (s : BrowserSession) (w : AskScript)
  : outcome string * BrowserSession :=
  let existingResponses := snapshotAllResponses (pageBefore w) in
  match findChatInput s w with
  | None => (Rejected noInputError, s)
  | Some inputSelector =>
      match typing w with
      | Rejected e => (Rejected e, s)
      | Resolved _ =>
          match pressEnter w with
          | Rejected e => (Rejected e, s)
          | Resolved _ =>
              match answer (waitForLatestAnswer question existingResponses
                                                (polls w)) with
              | Rejected e => (Rejected e, s)
              | Resolved None => (Rejected timeoutError, s)
              | Resolved (Some answer) =>
                  if negb (truthy answer) then (Rejected timeoutError, s)
                  else if detectRateLimitError s (errorDom w)
                  then (Rejected RateLimitError, s)
                  else
                    (Resolved answer,
                     updateActivity (incrMessageCount s) (doneNow w))
              end
          end
      end
  end.

(** The authentication check of [askOnce], then [askBody]. *)
Definition askAuthenticated (question : string) (s : BrowserSession)
    (w : AskScript) : outcome string * BrowserSession :=
  let isAuth := AuthManager.validateCookiesExpiry (cookies w) (authNow w) in
  if negb isAuth then
    match ensureAuthenticated s w with
    | Rejected e => (Rejected e, s)
    | Resolved reAuthSuccess =>
        if negb reAuthSuccess
        then (Rejected (Error_ "Failed to re-authenticate session"), s)
        else askBody question s w
    end
  else askBody question s w.

(** [askOnce()] *)
Definition askOnce (question : string) (s : BrowserSession) (w : AskScript)
  : outcome string * BrowserSession :=
  if negb (initialized s) || isNull (page s) || isPageClosedSafe s w
  then
    match init s (initScript w) with
    | (Rejected e, s1) => (Rejected e, s1)
    | (Resolved _, s1) => askAuthenticated question s1 w
    end
  else askAuthenticated question s w.

(** What [ask] does besides computing its result. *)
Inductive Event : Type :=
| Attempt      (** a run of [askOnce] *)
| Recovery     (** the closed-context branch of the [catch] is entered *)
| Reinit.      (** [init()] called by the recovery *)

Record AskWorld : Type := mkAskWorld {
  first : AskScript;
  recoveryInit : InitScript;
  retry : AskScript
}.

Record AskResult : Type := mkAskResult {
  result : outcome string;
  session : BrowserSession;
  events : list Event
}.

(** [ask(question)] *)
Definition ask (question : string) (s : BrowserSession) (w : AskWorld)
  : AskResult :=
  match askOnce question s (first w) with
  | (Resolved answer, s1) => mkAskResult (Resolved answer) s1 [Attempt]
  | (Rejected error, s1) =>
      let msg := errorText error in
      if closedPattern msg then
        let s2 := setPage (setInitialized s1 false) None in
        match init s2 (recoveryInit w) with
        | (Rejected e2, s3) =>
            mkAskResult (Rejected e2) s3 [Attempt; Recovery; Reinit]
        | (Resolved _, s3) =>
            match askOnce question s3 (retry w) with
            | (Resolved answer, s4) =>
                mkAskResult (Resolved answer) s4
                            [Attempt; Recovery; Reinit; Attempt]
            | (Rejected e2, s4) =>
                mkAskResult (Rejected e2) s4
                            [Attempt; Recovery; Reinit; Attempt]
            end
        end
      else mkAskResult (Rejected error) s1 [Attempt]
  end.

(** *** [reset] *)

(** The selectors that [waitForNotebookLMReady] tries in order. *)
Definition chatInputSelectors : list string :=
  [ "textarea.query-box-input";
    "textarea[aria-label*='query' i]";
    "textarea[aria-label*='쿼리' i]";
    "textarea[placeholder*='Ask' i]";
    "textarea[placeholder*='질문' i]";
    "textarea:not([disabled])" ].

(** The loop over the selectors: [true] when a [waitForSelector]
    resolves. *)
Fixpoint probeSelectors (waitForSelector : string -> outcome unit)
    (selectors : list string) : bool :=
  match selectors with
  | [] => false
  | selector :: rest =>
      match waitForSelector selector with
      | Resolved _ => true
      | Rejected _ => probeSelectors waitForSelector rest
      end
  end.

Definition notReadyError : JsError :=
  Error_ ("Could not find NotebookLM chat input. " ++
          "Please ensure the notebook page has loaded correctly and a source has been added.").

(** [waitForNotebookLMReady()] *)
Definition waitForNotebookLMReady (s : BrowserSession)
    (waitForSelector : string -> outcome unit) : outcome unit :=
  match page s with
  | None => Rejected (Error_ "Page not initialized")
  | Some _ =>
      if probeSelectors waitForSelector chatInputSelectors then Resolved tt
      else Rejected notReadyError
  end.

(** [this.messageCount = 0] *)
Definition clearMessageCount (s : BrowserSession) : BrowserSession :=
  mkSession (sessionId s) (notebookUrl s) (createdAt s) (lastActivity s)
            0 (page s) (initialized s).

(** What one run of [resetOnce] meets. *)
Record ResetScript : Type := mkResetScript {
  (** [isPageClosedSafe()] for a page that is not null *)
  resetPageClosed : bool;
  resetInit : InitScript;
  (** [page.reload(...)] and the pause after it; a call on a page that is
      null is the [TypeError] of the runtime *)
  reload : outcome unit;
  (** [page.waitForSelector(selector, ...)] *)
  waitForSelector : string -> outcome unit;
  (** [Date.now()] in [updateActivity()] *)
  resetNow : Z
}.

Definition nullPageError : JsError :=
  mkError "TypeError" "Cannot read properties of null (reading 'reload')".

(** [resetOnce()] after the initialization check. *)
Definition resetBody (s : BrowserSession) (w : ResetScript)
  : outcome unit * BrowserSession :=
  let reloaded :=
    match page s with
    | None => Rejected nullPageError
    | Some _ => reload w
    end in
  match reloaded with
  | Rejected e => (Rejected e, s)
  | Resolved _ =>
      match waitForNotebookLMReady s (waitForSelector w) with
      | Rejected e => (Rejected e, s)
      | Resolved _ =>
          (Resolved tt, updateActivity (clearMessageCount s) (resetNow w))
      end
  end.

(** [resetOnce()] *)
Definition resetOnce (s : BrowserSession) (w : ResetScript)
  : outcome unit * BrowserSession :=
  if negb (initialized s) || isNull (page s)
     || match page s with None => true | Some _ => resetPageClosed w end
  then
    match init s (resetInit w) with
    | (Rejected e, s1) => (Rejected e, s1)
    | (Resolved _, s1) => resetBody s1 w
    end
  else resetBody s w.

Record ResetWorld : Type := mkResetWorld {
  firstReset : ResetScript;
  resetRecoveryInit : InitScript;
  retryReset : ResetScript
}.

(** [reset()] *)
Definition reset (s : BrowserSession) (w : ResetWorld)
  : outcome unit * BrowserSession :=
  match resetOnce s (firstReset w) with
  | (Resolved _, s1) => (Resolved tt, s1)
  | (Rejected error, s1) =>
      let msg := errorText error in
      if closedPattern msg then
        let s2 := setPage (setInitialized s1 false) None in
        match init s2 (resetRecoveryInit w) with
        | (Rejected e2, s3) => (Rejected e2, s3)
        | (Resolved _, s3) => resetOnce s3 (retryReset w)
        end
      else (Rejected error, s1)
  end.

(** *** Activity *)

(** [isExpired(timeoutSeconds)], [now] being [Date.now()]. *)
Definition isExpired (s : BrowserSession) (timeoutSeconds : Z) (now : Z)
  : bool :=
  let inactiveSeconds := ((inject_Z now - inject_Z (lastActivity s)) / 1000)%Q in
  AuthManager.Qlt_bool (inject_Z timeoutSeconds) inactiveSeconds.

(** The [SessionInfo] that [getInfo()] returns. *)
Record SessionInfo : Type := mkSessionInfo {
  info_id : string;
  created_at : Z;
  last_activity : Z;
  age_seconds : Q;
  inactive_seconds : Q;
  message_count : Z;
  notebook_url : string
}.

(** [getInfo()] *)
Definition getInfo (s : BrowserSession) (now : Z) : SessionInfo :=
  mkSessionInfo (sessionId s) (createdAt s) (lastActivity s)
                ((inject_Z now - inject_Z (createdAt s)) / 1000)%Q
                ((inject_Z now - inject_Z (lastActivity s)) / 1000)%Q
                (messageCount s) (notebookUrl s).

(** [isInitialized()] *)
Definition isInitialized (s : BrowserSession) : bool :=
  initialized s && negb (isNull (page s)).

End BrowserSession.

(* ===================================================================== *)
(** ** src/session/session-manager.ts                                     *)
(* ===================================================================== *)

Module SessionManager.
Import BrowserSession.
Local Open Scope list_scope.

(** The [Map<string, BrowserSession>] of the pool, in insertion order. *)
Definition SessionMap : Type := list (string * BrowserSession).

Definition mapHas (m : SessionMap) (k : string) : bool :=
  existsb (fun e => String.eqb (fst e) k) m.

Fixpoint mapGet (m : SessionMap) (k : string) : option BrowserSession :=
  match m with
  | [] => None
  | (k', v) :: rest => if String.eqb k' k then Some v else mapGet rest k
  end.

Definition mapDelete (m : SessionMap) (k : string) : SessionMap :=
  List.filter (fun e => negb (String.eqb (fst e) k)) m.

(** [set] keeps the place of a key that is present and appends a new
    one. *)
Fixpoint mapSet (m : SessionMap) (k : string) (v : BrowserSession)
  : SessionMap :=
  match m with
  | [] => [(k, v)]
  | (k', v') :: rest =>
      if String.eqb k' k then (k, v) :: rest
      else (k', v') :: mapSet rest k v
  end.

Definition mapSize (m : SessionMap) : Z := Z.of_nat (length m).

Definition mapKeys (m : SessionMap) : list string := map fst m.

(** The fields of the manager, with the one field of its
    [SharedContextManager] that the pool reads. *)
Record SessionManager : Type := mkManager {
  sessions : SessionMap;
  maxSessions : Z;
  sessionTimeout : Z;
  cleanupInterval : bool;
  currentHeadlessMode : option bool
}.

Definition setSessions (mgr : SessionManager) (m : SessionMap)
  : SessionManager :=
  mkManager m (maxSessions mgr) (sessionTimeout mgr) (cleanupInterval mgr)
            (currentHeadlessMode mgr).

Definition setHeadlessMode (mgr : SessionManager) (h : option bool)
  : SessionManager :=
  mkManager (sessions mgr) (maxSessions mgr) (sessionTimeout mgr)
            (cleanupInterval mgr) h.

Definition clearInterval (mgr : SessionManager) : SessionManager :=
  mkManager (sessions mgr) (maxSessions mgr) (sessionTimeout mgr) false
            (currentHeadlessMode mgr).

(** The part of [CONFIG] read here. *)
Record Config : Type := mkConfig {
  configNotebookUrl : string;
  configHeadless : bool
}.

(** What the pool meets outside itself. *)
Record PoolWorld : Type := mkPoolWorld {
  config : Config;
  (** [randomBytes(4).toString("hex")] *)
  generatedId : string;
  (** [page.close()] of the tab of the session with this id *)
  pageClose : string -> outcome unit;
  (** whether [closeContext()] manages to close the context *)
  contextCloses : bool;
  (** [getOrCreateContext(overrideHeadless)]: the mode of the context it
      leaves, or its rejection *)
  contextMode : outcome bool;
  (** [Date.now()] in the constructor of the new session *)
  newNow : Z;
  (** [Date.now()] in [updateActivity()] of a reused session *)
  touchNow : Z;
  (** what [init()] of the new session meets *)
  sessionInit : InitScript
}.

(** What the pool does to sessions and to the context, in order. *)
Inductive Event : Type :=
| Closed (id : string) (after : BrowserSession)  (** [session.close()] *)
| Deleted (id : string)                          (** [sessions.delete] *)
| ContextClosed                                  (** [closeContext()] *)
| ContextAcquired                                (** [getOrCreateContext] *)
| Constructed (id : string)                      (** [new BrowserSession] *)
| InitAwaited (id : string)                      (** [await session.init()] *)
| Registered (id : string).                      (** [sessions.set] *)

(** [needsHeadlessModeChange(overrideHeadless)] *)
Definition needsHeadlessModeChange (mgr : SessionManager) (cfg : Config)
    (overrideHeadless : option bool) : bool :=
  match currentHeadlessMode mgr with
  | None => false
  | Some current =>
      let targetHeadless :=
        match overrideHeadless with
        | Some o => negb o
        | None => configHeadless cfg
        end in
      negb (Bool.eqb current targetHeadless)
  end.

(** [closeContext()] never rejects. *)
Definition closeContext (mgr : SessionManager) (w : PoolWorld)
  : SessionManager :=
  if contextCloses w then setHeadlessMode mgr None else mgr.

(** Close and delete one session that is in the map. *)
Definition closeAndDelete (w : PoolWorld) (id : string)
    (st : SessionManager * list Event) : SessionManager * list Event :=
  let '(mgr, evs) := st in
  match mapGet (sessions mgr) id with
  | Some session =>
      (setSessions mgr (mapDelete (sessions mgr) id),
       evs ++ [Closed id (close session (pageClose w id)); Deleted id])
  | None => (mgr, evs)
  end.

(** [closeAllSessions()] *)
Definition closeAllSessions (mgr : SessionManager) (w : PoolWorld)
  : SessionManager * list Event :=
  let mgr0 := clearInterval mgr in
  if mapSize (sessions mgr0) =? 0 then
    (closeContext mgr0 w, [ContextClosed])
  else
    let '(mgr1, evs) :=
      fold_left (fun st id => closeAndDelete w id st)
                (mapKeys (sessions mgr0)) (mgr0, []) in
    (closeContext mgr1 w, evs ++ [ContextClosed]).

(** The search loop of [cleanupOldestSession]; [None] as [oldestTime]
    stands for [Infinity]. *)
Fixpoint findOldest (entries : SessionMap) (oldestId : option string)
    (oldestTime : option Z) : option string :=
  match entries with
  | [] => oldestId
  | (sessionId, session) :: rest =>
      let older :=
        match oldestTime with
        | None => true
        | Some t => createdAt session <? t
        end in
      if older then findOldest rest (Some sessionId) (Some (createdAt session))
      else findOldest rest oldestId oldestTime
  end.

(** [cleanupOldestSession()] *)
Definition cleanupOldestSession (mgr : SessionManager) (w : PoolWorld)
  : bool * SessionManager * list Event :=
  if mapSize (sessions mgr) =? 0 then (false, mgr, [])
  else
    match findOldest (sessions mgr) None None with
    | None => (false, mgr, [])
    | Some oldestId =>
        if negb (truthy oldestId) then (false, mgr, [])
        else
          match mapGet (sessions mgr) oldestId with
          | Some oldestSession =>
              (true,
               setSessions mgr (mapDelete (sessions mgr) oldestId),
               [Closed oldestId (close oldestSession (pageClose w oldestId));
                Deleted oldestId])
          | None => (false, mgr, [])
          end
    end.

Record PoolResult : Type := mkPoolResult {
  returned : outcome BrowserSession;
  manager : SessionManager;
  trace : list Event;
  (** the manager as it is while [session.init()] is awaited, when the
      call gets there *)
  inFlight : option SessionManager
}.

(** The error of a full pool from which nothing could be removed. *)
Definition capacityError (mgr : SessionManager) : JsError :=
  Error_ ("Max sessions (" ++ numberToString (maxSessions mgr)
          ++ ") reached and no inactive sessions to clean up").

(** The [try] block that creates the session. *)
Definition createSession (mgr : SessionManager) (w : PoolWorld)
    (sessionId targetUrl : string) (evs : list Event) : PoolResult :=
  match contextMode w with
  | Rejected error => mkPoolResult (Rejected error) mgr
                                   (evs ++ [ContextAcquired]) None
  | Resolved mode =>
      let mgr1 := setHeadlessMode mgr (Some mode) in
      let session := new sessionId targetUrl (newNow w) in
      let evs1 :=
        evs ++ [ContextAcquired; Constructed sessionId;
                InitAwaited sessionId] in
      match init session (sessionInit w) with
      | (Rejected error, _) =>
          mkPoolResult (Rejected error) mgr1 evs1 (Some mgr1)
      | (Resolved _, session1) =>
          mkPoolResult (Resolved session1)
            (setSessions mgr1 (mapSet (sessions mgr1) sessionId session1))
            (evs1 ++ [Registered sessionId]) (Some mgr1)
      end
  end.

(** The capacity check, then the creation. *)
Definition freeUpAndCreate (mgr : SessionManager) (w : PoolWorld)
    (sessionId targetUrl : string) (evs : list Event) : PoolResult :=
  if maxSessions mgr <=? mapSize (sessions mgr) then
    match cleanupOldestSession mgr w with
    | (false, mgr1, evs1) =>
        mkPoolResult (Rejected (capacityError mgr)) mgr1 (evs ++ evs1) None
    | (true, mgr1, evs1) =>
        createSession mgr1 w sessionId targetUrl (evs ++ evs1)
    end
  else createSession mgr w sessionId targetUrl evs.

(** [a || b] for a string that may be missing. *)
Definition orElse (a : option string) (b : string) : string :=
  match a with
  | Some s => if truthy s then s else b
  | None => b
  end.

(** [(notebookUrl || CONFIG.notebookUrl || "").trim()] *)
Definition targetUrlOf (w : PoolWorld) (notebookUrl : option string)
  : string :=
  trim (orElse notebookUrl (orElse (Some (configNotebookUrl (config w))) "")).

(** The id given, or else a generated one. *)
Definition sessionIdOf (w : PoolWorld) (sessionId : option string) : string :=
  orElse sessionId (generatedId w).

(** The visibility check: with an override that asks for another mode,
    all sessions are closed. *)
Definition switchMode (mgr : SessionManager) (w : PoolWorld)
    (overrideHeadless : option bool) : SessionManager * list Event :=
  match overrideHeadless with
  | Some _ =>
      if needsHeadlessModeChange mgr (config w) overrideHeadless
      then closeAllSessions mgr w
      else (mgr, [])
  | None => (mgr, [])
  end.

(** [getOrCreateSession(sessionId?, notebookUrl?, overrideHeadless?)],
    run with no other call in between; [inFlight] keeps the manager as it
    is at [await session.init()], from which [overlapped] lets another
    call start. *)
Definition getOrCreateSession (mgr : SessionManager) (w : PoolWorld)
    (sessionId notebookUrl : option string) (overrideHeadless : option bool)
  : PoolResult :=
  let targetUrl := targetUrlOf w notebookUrl in
  if negb (truthy targetUrl) then
    mkPoolResult
      (Rejected (Error_ "Notebook URL is required to create a session"))
      mgr [] None
  else if negb (startsWith targetUrl "http") then
    mkPoolResult
      (Rejected (Error_ "Notebook URL must be an absolute URL")) mgr [] None
  else
    let sessionId := sessionIdOf w sessionId in
    let '(mgr1, evs1) := switchMode mgr w overrideHeadless in
    match mapGet (sessions mgr1) sessionId with
    | Some session =>
        if negb (String.eqb (BrowserSession.notebookUrl session) targetUrl)
        then
          let mgr2 := setSessions mgr1 (mapDelete (sessions mgr1) sessionId) in
          freeUpAndCreate mgr2 w sessionId targetUrl
            (evs1 ++ [Closed sessionId (close session (pageClose w sessionId));
                      Deleted sessionId])
        else
          let session1 := updateActivity session (touchNow w) in
          mkPoolResult (Resolved session1)
            (setSessions mgr1 (mapSet (sessions mgr1) sessionId session1))
            evs1 None
    | None => freeUpAndCreate mgr1 w sessionId targetUrl evs1
    end.

(** *** Calls that overlap

    [getOrCreateSession] gives up control at each [await].  The last one
    is [await session.init()], after the capacity check and before
    [sessions.set]: a call that the server starts meanwhile finds the map
    without the session of the suspended call. *)

(** The arguments of one call of [getOrCreateSession] and what it
    meets. *)
Record Call : Type := mkCall {
  callWorld : PoolWorld;
  callSessionId : option string;
  callNotebookUrl : option string;
  callOverrideHeadless : option bool
}.

(** The call, run with no other call in between. *)
Definition run (mgr : SessionManager) (c : Call) : PoolResult :=
  getOrCreateSession mgr (callWorld c) (callSessionId c) (callNotebookUrl c)
                     (callOverrideHeadless c).

(** What a call that was suspended at [await session.init()] does when
    it goes on: [this.sessions.set(sessionId, session)] on the map as it
    is by then if [init()] resolved, and nothing to the map if it
    rejected. *)
Definition resume (r : PoolResult) (sessionId : string)
    (current : SessionManager) : SessionManager :=
  match inFlight r, returned r with
  | Some _, Resolved session =>
      setSessions current (mapSet (sessions current) sessionId session)
  | _, _ => current
  end.

(** Two calls, the second after the first has ended. *)
Definition oneAfterTheOther (mgr : SessionManager) (c1 c2 : Call)
  : SessionManager :=
  manager (run (manager (run mgr c1)) c2).

(** Two calls, the second started and run to its end while the first is
    suspended at [await session.init()].  A first call that does not get
    to that point has ended before the second starts. *)
Definition overlapped (mgr : SessionManager) (c1 c2 : Call)
  : SessionManager :=
  let r1 := run mgr c1 in
  match inFlight r1 with
  | Some suspended =>
      resume r1 (sessionIdOf (callWorld c1) (callSessionId c1))
             (manager (run suspended c2))
  | None => manager (run (manager r1) c2)
  end.

(** [getSession(sessionId)] *)
Definition getSession (mgr : SessionManager) (sessionId : string)
  : option BrowserSession :=
  mapGet (sessions mgr) sessionId.

(** [closeSession(sessionId)] *)
Definition closeSession (mgr : SessionManager) (w : PoolWorld)
    (sessionId : string) : bool * SessionManager * list Event :=
  if negb (mapHas (sessions mgr) sessionId) then (false, mgr, [])
  else
    match mapGet (sessions mgr) sessionId with
    | Some session =>
        (true,
         setSessions mgr (mapDelete (sessions mgr) sessionId),
         [Closed sessionId (close session (pageClose w sessionId));
          Deleted sessionId])
    | None => (false, mgr, [])
    end.

(** [getStats().active_sessions] *)
Definition activeSessions (mgr : SessionManager) : nat :=
  length (sessions mgr).

(** *** The periodic sweep and the other ways to close sessions *)

(** The constructor's
    [Math.max(60, Math.min(Math.floor(this.sessionTimeout / 2), 300))]. *)
Definition cleanupIntervalSeconds (sessionTimeout : Z) : Z :=
  Z.max 60 (Z.min (sessionTimeout / 2) 300).

(** One step of the loop of [closeSessionsForNotebook] over the entries
    that the map had at the call. *)
Definition closeIfNotebook (w : PoolWorld) (url : string)
    (st : SessionManager * list Event * Z) (entry : string * BrowserSession)
  : SessionManager * list Event * Z :=
  let '(mgr, evs, closed) := st in
  let '(sessionId, session) := entry in
  if String.eqb (BrowserSession.notebookUrl session) url then
    (setSessions mgr (mapDelete (sessions mgr) sessionId),
     evs ++ [Closed sessionId (close session (pageClose w sessionId));
             Deleted sessionId],
     closed + 1)
  else st.

(** [closeSessionsForNotebook(url)] *)
Definition closeSessionsForNotebook (mgr : SessionManager) (w : PoolWorld)
    (url : string) : Z * SessionManager * list Event :=
  let '(mgr1, evs, closed) :=
    fold_left (closeIfNotebook w url) (sessions mgr) (mgr, [], 0) in
  (closed, mgr1, evs).

(** The first loop of [cleanupInactiveSessions]: the ids of the sessions
    that [isExpired] at the time the clock shows when they are looked
    at. *)
Definition inactiveSessions (mgr : SessionManager) (clock : string -> Z)
  : list string :=
  map fst
      (List.filter
         (fun e => isExpired (snd e) (sessionTimeout mgr) (clock (fst e)))
         (sessions mgr)).

(** [cleanupInactiveSessions()] *)
Definition cleanupInactiveSessions (mgr : SessionManager) (w : PoolWorld)
    (clock : string -> Z) : Z * SessionManager * list Event :=
  let inactive := inactiveSessions mgr clock in
  if (length inactive =? 0)%nat then (0, mgr, [])
  else
    let '(mgr1, evs) :=
      fold_left (fun st id => closeAndDelete w id st) inactive (mgr, []) in
    (Z.of_nat (length inactive), mgr1, evs).

(** [getAllSessionsInfo()], the clock showing [now]. *)
Definition getAllSessionsInfo (mgr : SessionManager) (now : Z)
  : list SessionInfo :=
  map (fun e => getInfo (snd e) now) (sessions mgr).

Record Stats : Type := mkStats {
  active_sessions : nat;
  max_sessions : Z;
  session_timeout : Z;
  oldest_session_seconds : Q;
  total_messages : Z
}.

Definition Qmax (x y : Q) : Q := if Qle_bool x y then y else x.

(** [getStats()] *)
Definition getStats (mgr : SessionManager) (now : Z) : Stats :=
  let sessionsInfo := getAllSessionsInfo mgr now in
  let totalMessages :=
    fold_left (fun sum info => sum + message_count info) sessionsInfo 0 in
  let oldestSessionSeconds :=
    fold_right Qmax 0%Q (map age_seconds sessionsInfo) in
  mkStats (length sessionsInfo) (maxSessions mgr) (sessionTimeout mgr)
          oldestSessionSeconds totalMessages.

End SessionManager.

(* ===================================================================== *)
(** ** src/library/notebook-library.ts                                    *)
(* ===================================================================== *)

Module NotebookLibrary.
Local Open Scope list_scope.

Record NotebookEntry : Type := mkEntry {
  id : string;
  url : string;
  name : string;
  description : string;
  topics : list string;
  content_types : list string;
  use_cases : list string;
  added_at : string;
  last_used : string;
  use_count : Z;
  tags : option (list string)
}.

Record Library : Type := mkLibrary {
  notebooks : list NotebookEntry;
  active_notebook_id : option string;
  last_modified : string;
  version : string
}.

Record AddNotebookInput : Type := mkAddInput {
  add_url : string;
  add_name : string;
  add_description : string;
  add_topics : list string;
  add_content_types : option (list string);
  add_use_cases : option (list string);
  add_tags : option (list string)
}.

Record UpdateNotebookInput : Type := mkUpdateInput {
  upd_id : string;
  upd_name : option string;
  upd_description : option string;
  upd_topics : option (list string);
  upd_content_types : option (list string);
  upd_use_cases : option (list string);
  upd_tags : option (list string);
  upd_url : option string
}.

Record LibraryStats : Type := mkLibraryStats {
  total_notebooks : nat;
  active_notebook : option string;
  most_used_notebook : option string;
  total_queries : Z;
  stats_last_modified : string
}.

(** What a call meets outside the object: [fs.writeFileSync] in
    [saveLibrary], and [new Date().toISOString()], whose readings within
    the call are numbered from 0. *)
Record Disk : Type := mkDisk {
  writeFile : outcome unit;
  isoNow : nat -> string
}.

(** *** [generateId] *)

(** A character of [a-z0-9]. *)
Definition isSlugChar (c : ascii) : bool :=
  let n := charCode c in
  ((97 <=? n) && (n <=? 122)) || ((48 <=? n) && (n <=? 57)).

Definition isDash (c : ascii) : bool := charCode c =? 45.

(** [.replace(/[^a-z0-9]+/g, "-")]: [inRun] tells that the character
    before was replaced. *)
Fixpoint dashRuns (inRun : bool) (s : string) : string :=
  match s with
  | EmptyString => EmptyString
  | String c r =>
      if isSlugChar c then String c (dashRuns false r)
      else if inRun then dashRuns true r
      else String "-" (dashRuns true r)
  end.

Fixpoint stripLeadingDashes (s : string) : string :=
  match s with
  | EmptyString => EmptyString
  | String c r => if isDash c then stripLeadingDashes r else s
  end.

Fixpoint stripTrailingDashes (s : string) : string :=
  match s with
  | EmptyString => EmptyString
  | String c r =>
      match stripTrailingDashes r with
      | EmptyString => if isDash c then EmptyString else String c EmptyString
      | String _ _ as r' => String c r'
      end
  end.

(** [.replace(/^-+|-+$/g, "")] *)
Definition stripDashes (s : string) : string :=
  stripTrailingDashes (stripLeadingDashes s).

(** [.substring(0, n)] *)
Fixpoint substring0 (n : nat) (s : string) : string :=
  match n, s with
  | O, _ => EmptyString
  | S _, EmptyString => EmptyString
  | S n', String c r => String c (substring0 n' r)
  end.

(** The [base] of [generateId]. *)
Definition slug (name : string) : string :=
  substring0 30 (stripDashes (dashRuns false (toLowerCase name))).

(** The decimal form of a counter. *)
Definition decimal (n : nat) : string :=
  NilEmpty.string_of_uint (Nat.to_uint n).

(** [this.library.notebooks.some((n) => n.id === id)] *)
Definition hasId (lib : Library) (i : string) : bool :=
  existsb (fun n => String.eqb (id n) i) (notebooks lib).

(** The [while] loop of [generateId], for at most [fuel] tests of its
    condition. *)
Fixpoint generateIdFrom (fuel : nat) (lib : Library) (base i : string)
    (counter : nat) : option string :=
  match fuel with
  | O => None
  | S fuel' =>
      if hasId lib i
      then generateIdFrom fuel' lib base (base ++ "-" ++ decimal counter)%string
                          (S counter)
      else Some i
  end.

(** [generateId(name)]; one test more than there are notebooks is
    enough. *)
Definition generateId (lib : Library) (name : string) : option string :=
  generateIdFrom (S (length (notebooks lib))) lib (slug name) (slug name) 1.

(** *** Reading *)

(** [listNotebooks()] *)
Definition listNotebooks (lib : Library) : list NotebookEntry :=
  notebooks lib.

(** [getNotebook(id)] *)
Definition getNotebook (lib : Library) (i : string) : option NotebookEntry :=
  List.find (fun n => String.eqb (id n) i) (notebooks lib).

(** [getActiveNotebook()] *)
Definition getActiveNotebook (lib : Library) : option NotebookEntry :=
  match active_notebook_id lib with
  | None => None
  | Some active => if truthy active then getNotebook lib active else None
  end.

(** [notebooks.findIndex((n) => n.id === id)] *)
Fixpoint findIndex (i : string) (l : list NotebookEntry) : option nat :=
  match l with
  | [] => None
  | n :: rest =>
      if String.eqb (id n) i then Some O
      else match findIndex i rest with
           | Some k => Some (S k)
           | None => None
           end
  end.

(** *** Writing

    [saveLibrary] stamps the object it is given and stores it as the
    library when the file is written.  The callers pass a shallow copy of
    the library, which shares the array of notebooks: what they push to
    that array or assign at an index is in the library whether or not the
    file is written, what they set on the copy only if it is. *)

(** The library after [saveLibrary(updated)], where [shared] is the
    array of notebooks as the library has it by then, [reading] the
    number of the clock reading that [saveLibrary] makes, and [value]
    what the caller returns after it. *)
Definition saveLibrary {A : Type} (lib : Library) (w : Disk)
    (shared : list NotebookEntry) (updated : Library) (reading : nat)
    (value : A) : outcome A * Library :=
  match writeFile w with
  | Resolved _ =>
      (Resolved value,
       mkLibrary (notebooks updated) (active_notebook_id updated)
                 (isoNow w reading) (version updated))
  | Rejected e =>
      (Rejected e,
       mkLibrary shared (active_notebook_id lib) (last_modified lib)
                 (version lib))
  end.

Definition orDefault {A : Type} (o : option A) (d : A) : A :=
  match o with Some a => a | None => d end.

(** The entry that [addNotebook] creates under the id. *)
Definition newEntry (i : string) (input : AddNotebookInput) (w : Disk)
  : NotebookEntry :=
  mkEntry i (add_url input) (add_name input) (add_description input)
          (add_topics input)
          (orDefault (add_content_types input) ["documentation"; "examples"])
          (orDefault (add_use_cases input)
             [ ("Learning about " ++ add_name input)%string;
               ("Implementing features with " ++ add_name input)%string ])
          (isoNow w 0%nat) (isoNow w 1%nat) 0
          (Some (orDefault (add_tags input) [])).

(** [addNotebook(input)]; [None] if [generateId] had not ended. *)
Definition addNotebook (lib : Library) (input : AddNotebookInput) (w : Disk)
  : option (outcome NotebookEntry * Library) :=
  match generateId lib (add_name input) with
  | None => None
  | Some i =>
      let notebook := newEntry i input w in
      let pushed := notebooks lib ++ [notebook] in
      let active :=
        if (length pushed =? 1)%nat then Some i else active_notebook_id lib in
      Some (saveLibrary lib w pushed
              (mkLibrary pushed active (last_modified lib) (version lib))
              2 notebook)
  end.

Definition notFound (i : string) : JsError :=
  Error_ ("Notebook not found: " ++ i).

Definition touch (n : NotebookEntry) (now : string) : NotebookEntry :=
  mkEntry (id n) (url n) (name n) (description n) (topics n)
          (content_types n) (use_cases n) (added_at n) now (use_count n)
          (tags n).

(** [notebooks[index] = entry], the index being the one of
    [findIndex]. *)
Definition assignAt (l : list NotebookEntry) (index : option nat)
    (entry : NotebookEntry) : list NotebookEntry :=
  match index with
  | Some k => <[k := entry]> l
  | None => l
  end.

(** [selectNotebook(id)] *)
Definition selectNotebook (lib : Library) (i : string) (w : Disk)
  : outcome NotebookEntry * Library :=
  match getNotebook lib i with
  | None => (Rejected (notFound i), lib)
  | Some notebook =>
      let entry := touch notebook (isoNow w 0%nat) in
      let assigned := assignAt (notebooks lib) (findIndex i (notebooks lib))
                               entry in
      saveLibrary lib w assigned
        (mkLibrary assigned (Some i) (last_modified lib) (version lib))
        1 entry
  end.

(** [input.field && { field: input.field }] for a string. *)
Definition givenString (o : option string) (old : string) : string :=
  match o with
  | Some s => if truthy s then s else old
  | None => old
  end.

(** The entry that [updateNotebook] assigns. *)
Definition updatedEntry (n : NotebookEntry) (input : UpdateNotebookInput)
  : NotebookEntry :=
  mkEntry (id n)
          (givenString (upd_url input) (url n))
          (givenString (upd_name input) (name n))
          (givenString (upd_description input) (description n))
          (orDefault (upd_topics input) (topics n))
          (orDefault (upd_content_types input) (content_types n))
          (orDefault (upd_use_cases input) (use_cases n))
          (added_at n) (last_used n) (use_count n)
          (match upd_tags input with Some t => Some t | None => tags n end).

(** [updateNotebook(input)] *)
Definition updateNotebook (lib : Library) (input : UpdateNotebookInput)
    (w : Disk) : outcome NotebookEntry * Library :=
  match getNotebook lib (upd_id input) with
  | None => (Rejected (notFound (upd_id input)), lib)
  | Some notebook =>
      let entry := updatedEntry notebook input in
      let assigned :=
        assignAt (notebooks lib) (findIndex (upd_id input) (notebooks lib))
                 entry in
      saveLibrary lib w assigned
        (mkLibrary assigned (active_notebook_id lib) (last_modified lib)
                   (version lib)) 0 entry
  end.

(** [removeNotebook(id)]: the filtered array is a new one. *)
Definition removeNotebook (lib : Library) (i : string) (w : Disk)
  : outcome bool * Library :=
  match getNotebook lib i with
  | None => (Resolved false, lib)
  | Some _ =>
      let remaining :=
        List.filter (fun n => negb (String.eqb (id n) i)) (notebooks lib) in
      let active :=
        match active_notebook_id lib with
        | Some a =>
            if String.eqb a i then
              match remaining with
              | first :: _ => Some (id first)
              | [] => None
              end
            else Some a
        | None => None
        end in
      saveLibrary lib w (notebooks lib)
        (mkLibrary remaining active (last_modified lib) (version lib))
        0 true
  end.

Definition used (n : NotebookEntry) (now : string) : NotebookEntry :=
  mkEntry (id n) (url n) (name n) (description n) (topics n)
          (content_types n) (use_cases n) (added_at n) now (use_count n + 1)
          (tags n).

(** [incrementUseCount(id)] *)
Definition incrementUseCount (lib : Library) (i : string) (w : Disk)
  : outcome (option NotebookEntry) * Library :=
  match findIndex i (notebooks lib) with
  | None => (Resolved None, lib)
  | Some k =>
      match notebooks lib !! k with
      | None => (Resolved None, lib)
      | Some notebook =>
          let entry := used notebook (isoNow w 0%nat) in
          let assigned := <[k := entry]> (notebooks lib) in
          saveLibrary lib w assigned
            (mkLibrary assigned (active_notebook_id lib) (last_modified lib)
                       (version lib)) 1 (Some entry)
      end
  end.

(** *** Statistics and search *)

(** The reducer of [mostUsed]:
    [n.use_count > (max?.use_count || 0) ? n : max]. *)
Definition moreUsed (max : option NotebookEntry) (n : NotebookEntry)
  : option NotebookEntry :=
  let bar := match max with Some m => use_count m | None => 0 end in
  if bar <? use_count n then Some n else max.

Definition mostUsed (lib : Library) : option NotebookEntry :=
  fold_left moreUsed (notebooks lib) None.

(** [getStats()] *)
Definition getStats (lib : Library) : LibraryStats :=
  let totalQueries :=
    fold_left (fun sum n => sum + use_count n) (notebooks lib) 0 in
  mkLibraryStats (length (notebooks lib)) (active_notebook_id lib)
    (match mostUsed lib with
     | Some m => if truthy (id m) then Some (id m) else None
     | None => None
     end)
    totalQueries (last_modified lib).

(** The filter of [searchNotebooks]. *)
Definition matches (lowerQuery : string) (n : NotebookEntry) : bool :=
  includes (toLowerCase (name n)) lowerQuery
  || includes (toLowerCase (description n)) lowerQuery
  || existsb (fun t => includes (toLowerCase t) lowerQuery) (topics n)
  || match tags n with
     | Some ts => existsb (fun t => includes (toLowerCase t) lowerQuery) ts
     | None => false
     end.

(** [searchNotebooks(query)] *)
Definition searchNotebooks (lib : Library) (query : string)
  : list NotebookEntry :=
  let lowerQuery := toLowerCase query in
  List.filter (matches lowerQuery) (notebooks lib).

End NotebookLibrary.

(* ===================================================================== *)
(** ** Vocabulary of the properties                                       *)
(* ===================================================================== *)

Module Vocabulary.
Import PageUtils.
Local Open Scope list_scope.

(** What a poll tick contributes to the stability count: nothing (the
    thinking indicator made it sleep, the extraction found no new text,
    or the text was the echo of the question), or a candidate. *)
Inductive Observation : Type :=
| Skipped
| Observed (text : string).

Definition resolves {A : Type} (o : outcome A) : bool :=
  match o with Resolved _ => true | Rejected _ => false end.

Definition observe (sanitizedQuestion : string) (page : Page)
    (st : LoopState) : Observation :=
  if thinkingVisible page && resolves (waitForTimeout page) then Skipped
  else
    match extractLatestText page (knownHashes st) with
    | Some candidate =>
        let normalized := trim candidate in
        if truthy candidate && truthy normalized
           && negb (String.eqb (toLowerCase normalized) sanitizedQuestion)
        then Observed normalized
        else Skipped
    | None => Skipped
    end.

(** The observations of the ticks the loop runs, in order. *)
Fixpoint observations (sanitizedQuestion : string) (pages : list Page)
    (st : LoopState) : list Observation :=
  match pages with
  | [] => []
  | page :: rest =>
      observe sanitizedQuestion page st
      :: match tick sanitizedQuestion page st with
         | Continue st' => observations sanitizedQuestion rest st'
         | Return _ => []
         | Throw _ => []
         end
  end.

(** The observations of a call of [waitForLatestAnswer]. *)
Definition pollObservations (question : string) (ignoreTexts : list string)
    (pages : list Page) : list Observation :=
  observations (toLowerCase (trim question)) pages
    (mkLoopState (ignoreHashes ignoreTexts ∅) None 0%nat).

Fixpoint candidates (obs : list Observation) : list string :=
  match obs with
  | [] => []
  | Skipped :: rest => candidates rest
  | Observed text :: rest => text :: candidates rest
  end.

(** Three equal texts in a row somewhere in the list. *)
Definition threeInARow (l : list string) : Prop :=
  exists l1 x l2, l = l1 ++ x :: x :: x :: l2.

(** A page that shows the given answer texts in its primary containers
    and nothing else; [thinking] tells whether the indicator is
    visible. *)
Definition answerPage (thinking : bool) (texts : list string) : Page :=
  mkPage (Resolved (if thinking then Some (Resolved true) else None))
         (Resolved (map (fun t => mkContainer (Resolved (Some (Resolved t))))
                        texts))
         (fun _ => Resolved [])
         (Resolved (fun _ => []))
         (Resolved tt).

(** The loop variables agree with the candidates seen so far. *)
Definition agrees (h : list string) (st : LoopState) : Prop :=
  ~ threeInARow h /\
  match lastCandidate st with
  | None => h = [] /\ stableCount st = 0%nat
  | Some l =>
      (stableCount st = 1%nat /\ (exists p, h = p ++ [l])
                          /\ (forall p, h <> p ++ [l; l]))
      \/ (stableCount st = 2%nat /\ (exists p, h = p ++ [l; l]))
  end.

(** The five polls of the example. *)
Definition helloPolls : list Page :=
  map (fun t => answerPage false [t])
      ["Hel"; "Hello"; "Hello world"; "Hello world"; "Hello world"].

(** Two polls with the same answer, a poll during which the thinking
    indicator is visible, and a fourth poll with that answer again. *)
Definition interruptedPolls : list Page :=
  [ answerPage false ["A"]; answerPage false ["A"]; answerPage true ["A"];
    answerPage false ["A"] ].

(** *** Text blocks of the extraction paths, in document order *)

(** The text of a container or element whose text can be read. *)
Definition containerBlock (c : Container) : option string :=
  match messageTextContent c with
  | Resolved (Some (Resolved text)) => Some text
  | _ => None
  end.

Definition elementBlock (e : ResponseElement) : option string :=
  match containerText e with
  | Resolved text => Some text
  | Rejected _ => None
  end.

(** Trimmed, with the blank ones left out. *)
Definition textBlocks (texts : list string) : list string :=
  List.filter truthy (map trim texts).

Definition primaryContainers (page : Page) : list Container :=
  match toUserContainers page with
  | Resolved containers => containers
  | Rejected _ => []
  end.

Definition primaryBlocks (containers : list Container) : list string :=
  textBlocks (omap containerBlock containers).

Definition selectorBlocks (page : Page) (selector : string) : list string :=
  match queryAll page selector with
  | Resolved elements => textBlocks (omap elementBlock elements)
  | Rejected _ => []
  end.

(** The blocks of the fallback selectors, selector by selector in the
    order of their priority. *)
Definition fallbackBlocks (page : Page) : list string :=
  concat (map (selectorBlocks page) RESPONSE_SELECTORS).

(** The blocks of the raw DOM scan. *)
Definition rawBlocks (page : Page) : list string :=
  match documentQueryAll page with
  | Resolved document => collectSelectors document RAW_SELECTORS ∅ []
  | Rejected _ => []
  end.

(** The first block whose hash is not known. *)
Definition firstUnseen (knownHashes : gset Z) (blocks : list string)
  : option string :=
  List.find (fun t => negb (known knownHashes t)) blocks.

(** A page whose primary query rejects, whose fallback selectors match
    nothing, and whose raw scan sees the given visible nodes under the
    first raw selector. *)
Definition rawOnlyPage (texts : list string) : Page :=
  mkPage (Resolved None)
         (Rejected (Error_ "Execution context was destroyed"))
         (fun _ => Resolved [])
         (Resolved (fun selector =>
            if String.eqb selector "[data-message-author]"
            then imap (fun i t => mkDomElement i true t t) texts
            else []))
         (Resolved tt).

(** A page without primary containers on which the fallback selector
    [[data-message-author='bot']] matches elements with the given
    texts. *)
Definition fallbackOnlyPage (texts : list string) : Page :=
  mkPage (Resolved None)
         (Resolved [])
         (fun selector =>
            if String.eqb selector "[data-message-author='bot']"
            then Resolved (map (fun t => mkResponseElement (Resolved None)
                                           (Resolved t)) texts)
            else Resolved [])
         (Resolved (fun _ => []))
         (Resolved tt).

(** *** Cookies *)

(** [Date.now() / 1000], the double nearest to the quotient. *)
Definition currentTime (nowMs : Z) : Q := divide (inject_Z nowMs) 1000.

(** A session cookie: no [expires], or [expires] equal to [-1]. *)
Definition sessionScoped (c : AuthManager.Cookie) : Prop :=
  (AuthManager.expiresOr c == -1)%Q.

(** The cookie is session-scoped or does not expire before [nowMs]. *)
Definition unexpired (nowMs : Z) (c : AuthManager.Cookie) : Prop :=
  sessionScoped c \/ (currentTime nowMs <= AuthManager.expiresOr c)%Q.

(** The cookie is session-scoped or expires after [nowMs]. *)
Definition expiresInFuture (nowMs : Z) (c : AuthManager.Cookie) : Prop :=
  sessionScoped c \/ (currentTime nowMs < AuthManager.expiresOr c)%Q.

Definition critical (c : AuthManager.Cookie) : Prop :=
  AuthManager.isCritical c = true.

(** A valid and an expired critical cookie, at time 1 000 000 ms. *)
Definition mixedCookies : list AuthManager.Cookie :=
  [ AuthManager.mkCookie "SID" ".google.com" (Some 2000%Q);
    AuthManager.mkCookie "HSID" ".google.com" (Some 500%Q) ].

(** A critical cookie that expires at second 1000. *)
Definition expiringNow : AuthManager.Cookie :=
  AuthManager.mkCookie "SID" ".google.com" (Some 1000%Q).

(** A snapshot written at time 0 whose cookies expire at second
    10 000 000. *)
Definition oldSnapshot : AuthManager.StateFile :=
  AuthManager.mkStateFile
    [ AuthManager.mkCookie "SID" ".google.com" (Some 10000000%Q);
      AuthManager.mkCookie "OSID" "notebooklm.google.com" (Some 10000000%Q) ]
    0%Q.

Definition stateJson : AuthManager.AuthManager :=
  AuthManager.mkAuthManager "browser_state/state.json"
                            "browser_state/session.json".

Definition diskWith (am : AuthManager.AuthManager)
    (f : AuthManager.StateFile) : AuthManager.Disk :=
  fun path =>
    if String.eqb path (AuthManager.stateFilePath am) then Some f else None.

(** *** Asking *)

(** A page without error elements and without a chat input. *)
Definition quietDom : BrowserSession.ErrorDom :=
  BrowserSession.mkErrorDom (fun _ => Resolved []) (Resolved None).

(** The same script on a page with other error elements. *)
Definition setErrorDom (w : BrowserSession.AskScript)
    (dom : BrowserSession.ErrorDom) : BrowserSession.AskScript :=
  BrowserSession.mkAskScript
    (BrowserSession.pageClosed w) (BrowserSession.initScript w)
    (BrowserSession.cookies w) (BrowserSession.authNow w)
    (BrowserSession.reAuth w) (BrowserSession.pageBefore w)
    (BrowserSession.chatInput w) (BrowserSession.typing w)
    (BrowserSession.pressEnter w) (BrowserSession.polls w) dom
    (BrowserSession.doneNow w).

Definition withErrorDom (w : BrowserSession.AskWorld)
    (dom : BrowserSession.ErrorDom) : BrowserSession.AskWorld :=
  BrowserSession.mkAskWorld
    (setErrorDom (BrowserSession.first w) dom)
    (BrowserSession.recoveryInit w)
    (setErrorDom (BrowserSession.retry w) dom).

(** The text includes "rate limit", whatever the case of its letters. *)
Definition mentionsRateLimit (text : string) : Prop :=
  includes (toLowerCase text) "rate limit" = true.

(** An element matched by one of the error selectors, or the parent of
    the disabled chat input, has a text that mentions the rate limit. *)
Definition rateLimitShown (dom : BrowserSession.ErrorDom) : Prop :=
  (exists selector elements text,
      In selector BrowserSession.errorSelectors
      /\ BrowserSession.errorElements dom selector = Resolved elements
      /\ In (Resolved text) elements
      /\ mentionsRateLimit text)
  \/ (exists input text,
        BrowserSession.queryBoxInput dom = Resolved (Some input)
        /\ BrowserSession.isDisabled input = Resolved true
        /\ BrowserSession.parentText input = Resolved (Some (Resolved text))
        /\ mentionsRateLimit text).

(** How often an event occurs. *)
Definition countEvent (e : BrowserSession.Event)
    (events : list BrowserSession.Event) : nat :=
  length (List.filter
            (fun e' =>
               match e, e' with
               | BrowserSession.Attempt, BrowserSession.Attempt => true
               | BrowserSession.Recovery, BrowserSession.Recovery => true
               | BrowserSession.Reinit, BrowserSession.Reinit => true
               | _, _ => false
               end) events).

(** An initialized session with an open tab. *)
Definition readySession : BrowserSession.BrowserSession :=
  BrowserSession.mkSession "s1" "https://notebooklm.google.com/notebook/abc"
                           0 0 0 (Some 1%nat) true.

(** A run of [askOnce] with valid cookies and a visible chat input. *)
Definition script (typing : outcome unit) (polls : list Page)
    (dom : BrowserSession.ErrorDom) : BrowserSession.AskScript :=
  BrowserSession.mkAskScript false
    (BrowserSession.mkInitScript (Resolved 2%nat) None (Resolved tt) 10)
    (Resolved [AuthManager.mkCookie "SID" ".google.com" None]) 5
    (Resolved true) (answerPage false [])
    (Some "textarea.query-box-input") typing (Resolved tt) polls dom 20.

Definition closedError : JsError :=
  Error_ "page.fill: Target page, context or browser has been closed".

(** The tab is gone when the question is typed; the retry, on a fresh
    tab, sees no answer before the deadline. *)
Definition closedThenTimeout : BrowserSession.AskWorld :=
  BrowserSession.mkAskWorld
    (script (Rejected closedError) [] quietDom)
    (BrowserSession.mkInitScript (Resolved 2%nat) None (Resolved tt) 10)
    (script (Resolved tt) [] quietDom).

Definition quotaAnswer : string :=
  "The free plan has a rate limit of 50 queries per day.".

(** The answer itself speaks of a rate limit; the page shows no error. *)
Definition answerAboutRateLimit : BrowserSession.AskWorld :=
  let polls := [ answerPage false [quotaAnswer]; answerPage false [quotaAnswer];
                 answerPage false [quotaAnswer] ] in
  BrowserSession.mkAskWorld
    (script (Resolved tt) polls quietDom)
    (BrowserSession.mkInitScript (Resolved 2%nat) None (Resolved tt) 10)
    (script (Resolved tt) polls quietDom).

Definition plainAnswer : string := "Paris is the capital of France.".

(** An answer that is stable over three polls. *)
Definition plainAnswerWorld : BrowserSession.AskWorld :=
  let polls := [ answerPage false [plainAnswer]; answerPage false [plainAnswer];
                 answerPage false [plainAnswer] ] in
  BrowserSession.mkAskWorld
    (script (Resolved tt) polls quietDom)
    (BrowserSession.mkInitScript (Resolved 2%nat) None (Resolved tt) 10)
    (script (Resolved tt) polls quietDom).

(** An alert that announces the rate limit. *)
Definition alertDom : BrowserSession.ErrorDom :=
  BrowserSession.mkErrorDom
    (fun selector =>
       if String.eqb selector "[role='alert']"
       then Resolved [Resolved "Daily Rate Limit reached"]
       else Resolved [])
    (Resolved None).

(** The counter after a run: one more when it returned, the same when it
    threw. *)
Definition counted (before : BrowserSession.BrowserSession)
    (r : outcome string * BrowserSession.BrowserSession) : Prop :=
  match fst r with
  | Resolved _ => BrowserSession.messageCount (snd r) = BrowserSession.messageCount before + 1
  | Rejected _ => BrowserSession.messageCount (snd r) = BrowserSession.messageCount before
  end.

(** *** The session pool *)

(** The keys of a [Map] are distinct; the pool never registers the empty
    id (a missing or empty id is replaced by a generated one). *)
Definition wellFormed (m : SessionManager.SessionMap) : Prop :=
  List.NoDup (SessionManager.mapKeys m)
  /\ forall k v, In (k, v) m -> truthy k = true.

(** The call does not ask for another visibility mode. *)
Definition keepsMode (mgr : SessionManager.SessionManager)
    (w : SessionManager.PoolWorld) (overrideHeadless : option bool) : Prop :=
  match overrideHeadless with
  | Some _ =>
      SessionManager.needsHeadlessModeChange
        mgr (SessionManager.config w) overrideHeadless = false
  | None => True
  end.


Definition notebookA : string := "https://notebooklm.google.com/notebook/a".

(** An initialized session created at the given time. *)
Definition sessionAt (id : string) (created : Z) (tab : nat)
  : BrowserSession.BrowserSession :=
  BrowserSession.mkSession id notebookA created created 0 (Some tab) true.

(** A pool of at most two sessions that holds A, created at 0, and B,
    created at 1. *)
Definition poolAB : SessionManager.SessionManager :=
  SessionManager.mkManager
    [("A", sessionAt "A" 0 1%nat); ("B", sessionAt "B" 1 2%nat)]
    2 900 true (Some true).

Definition emptyPool : SessionManager.SessionManager :=
  SessionManager.mkManager [] 2 900 true None.


(** The empty pool while the first session is initialized in
    [calmWorld]. *)
Definition emptyPoolInFlight : SessionManager.SessionManager :=
  SessionManager.mkManager [] 2 900 true (Some true).

(** A world in which every call of the driver resolves; the clock shows
    2 when the new session is constructed and 3 when it is initialized. *)
Definition calmWorld : SessionManager.PoolWorld :=
  SessionManager.mkPoolWorld
    (SessionManager.mkConfig "" true) "0a1b2c3d" (fun _ => Resolved tt) true
    (Resolved true) 2 2 (BrowserSession.mkInitScript (Resolved 3%nat) None (Resolved tt) 3).

(** The session that a call for C in [calmWorld] creates. *)
Definition sessionC : BrowserSession.BrowserSession :=
  BrowserSession.mkSession "C" notebookA 2 3 0 (Some 3%nat) true.

(** *** More on the pool *)

(** A call for a session that is not in the pool, with a valid notebook
    URL and no wish for a visibility mode, whose context and
    initialization succeed. *)
Definition createsSession (mgr : SessionManager.SessionManager)
    (c : SessionManager.Call) : Prop :=
  let w := SessionManager.callWorld c in
  let url := SessionManager.targetUrlOf w (SessionManager.callNotebookUrl c) in
  let id := SessionManager.sessionIdOf w (SessionManager.callSessionId c) in
  truthy url = true
  /\ startsWith url "http" = true
  /\ SessionManager.callOverrideHeadless c = None
  /\ SessionManager.mapGet (SessionManager.sessions mgr) id = None
  /\ resolves (SessionManager.contextMode w) = true
  /\ resolves (fst (BrowserSession.init
                      (BrowserSession.new id url (SessionManager.newNow w))
                      (SessionManager.sessionInit w))) = true.

(** The pool has room for exactly one more session, and two calls ask
    for two different sessions that are not in it. *)
Definition oneFreeSlot (mgr : SessionManager.SessionManager)
    (c1 c2 : SessionManager.Call) : Prop :=
  SessionManager.mapSize (SessionManager.sessions mgr) + 1
  = SessionManager.maxSessions mgr
  /\ createsSession mgr c1
  /\ createsSession mgr c2
  /\ SessionManager.sessionIdOf (SessionManager.callWorld c1)
                                (SessionManager.callSessionId c1)
     <> SessionManager.sessionIdOf (SessionManager.callWorld c2)
                                   (SessionManager.callSessionId c2).

(** A pool of at most two sessions that holds A. *)
Definition poolA : SessionManager.SessionManager :=
  SessionManager.mkManager [("A", sessionAt "A" 0 1%nat)] 2 900 true
                           (Some true).

(** A call for the session of the given id on notebook A, in
    [calmWorld]. *)
Definition callFor (id : string) : SessionManager.Call :=
  SessionManager.mkCall calmWorld (Some id) (Some notebookA) None.

(** Every session is stored under its own id and has an absolute URL. *)
Definition keyed (m : SessionManager.SessionMap) : Prop :=
  forall k v, In (k, v) m ->
    BrowserSession.sessionId v = k
    /\ startsWith (BrowserSession.notebookUrl v) "http" = true.

(** The session targets the notebook. *)
Definition targets (url : string)
    (e : string * BrowserSession.BrowserSession) : bool :=
  String.eqb (BrowserSession.notebookUrl (snd e)) url.

(** The session is inactive for longer than the timeout of the pool when
    the sweep looks at it. *)
Definition inactive (mgr : SessionManager.SessionManager)
    (clock : string -> Z) (e : string * BrowserSession.BrowserSession)
  : bool :=
  BrowserSession.isExpired (snd e) (SessionManager.sessionTimeout mgr)
                           (clock (fst e)).

(** The entry is under none of the ids. *)
Definition keptBy (ids : list string)
    (e : string * BrowserSession.BrowserSession) : bool :=
  negb (existsb (String.eqb (fst e)) ids).

(** A is idle since time 0, B since 500 seconds; the timeout is 900
    seconds. *)
Definition poolStale : SessionManager.SessionManager :=
  SessionManager.mkManager
    [("A", sessionAt "A" 0 1%nat); ("B", sessionAt "B" 500000 2%nat)]
    5 900 true (Some true).

Definition notebookB : string := "https://notebooklm.google.com/notebook/b".

(** A session on notebook B between two sessions on notebook A. *)
Definition poolABA : SessionManager.SessionManager :=
  SessionManager.mkManager
    [ ("A", sessionAt "A" 0 1%nat);
      ("B", BrowserSession.mkSession "B" notebookB 1 1 0 (Some 2%nat) true);
      ("C", sessionAt "C" 2 3%nat) ]
    5 900 true (Some true).

(** *** More on the session *)

(** The flag [initialized] is set only on a session that holds a tab. *)
Definition consistent (s : BrowserSession.BrowserSession) : Prop :=
  BrowserSession.initialized s = true -> BrowserSession.page s <> None.

(** Every call of the driver that a run of [askOnce] awaits resolves. *)
Definition driverResolves (w : BrowserSession.AskScript) : Prop :=
  resolves (BrowserSession.initBody (BrowserSession.initScript w)) = true
  /\ resolves (BrowserSession.reAuth w) = true
  /\ resolves (BrowserSession.typing w) = true
  /\ resolves (BrowserSession.pressEnter w) = true
  /\ forall page, In page (BrowserSession.polls w) ->
       resolves (waitForTimeout page) = true.

(** An element matched by one of the error selectors, or the parent of
    the disabled chat input, has a text with one of the keywords. *)
Definition keywordShown (dom : BrowserSession.ErrorDom) : Prop :=
  (exists selector elements text,
      In selector BrowserSession.errorSelectors
      /\ BrowserSession.errorElements dom selector = Resolved elements
      /\ In (Resolved text) elements
      /\ BrowserSession.hasKeyword text = true)
  \/ (exists input text,
        BrowserSession.queryBoxInput dom = Resolved (Some input)
        /\ BrowserSession.isDisabled input = Resolved true
        /\ BrowserSession.parentText input = Resolved (Some (Resolved text))
        /\ BrowserSession.hasKeyword text = true).

(** A reload that resolves on a page that is ready. *)
Definition calmReset : BrowserSession.ResetScript :=
  BrowserSession.mkResetScript false
    (BrowserSession.mkInitScript (Resolved 2%nat) None (Resolved tt) 10)
    (Resolved tt) (fun _ => Resolved tt) 30.

(** *** More on the completion detector *)

(** The hash of Java's [String.hashCode], without wrap-around: each
    character code is added to 31 times the hash so far. *)
Fixpoint polynomialHash (hash : Z) (str : string) : Z :=
  match str with
  | EmptyString => hash
  | String c r => polynomialHash (31 * hash + charCode c) r
  end.

(** Three polls of a page that shows an old and a new answer. *)
Definition oldAndNewPolls : list Page :=
  [ answerPage false ["old answer"; "new answer"];
    answerPage false ["old answer"; "new answer"];
    answerPage false ["old answer"; "new answer"] ].

(** A page on which the sleep of the poll is rejected. *)
Definition closingPage : Page :=
  mkPage (Resolved None) (Resolved []) (fun _ => Resolved [])
         (Resolved (fun _ => [])) (Rejected closedError).

(** The primary query of every page resolves. *)
Definition primaryResolves (pages : list Page) : Prop :=
  forall page, In page pages ->
    exists containers, toUserContainers page = Resolved containers.

(** *** The notebook library *)

(** The ids that [generateId] tries, in order: the slug, then the slug
    with [-1], [-2], ... *)
Definition candidateId (base : string) (k : nat) : string :=
  match k with
  | O => base
  | S _ => (base ++ "-" ++ NotebookLibrary.decimal k)%string
  end.

(** The first notebook of a list that has the id, as [getNotebook] finds
    it. *)
Definition findId (i : string) (l : list NotebookLibrary.NotebookEntry)
  : option NotebookLibrary.NotebookEntry :=
  List.find (fun n => String.eqb (NotebookLibrary.id n) i) l.

Fixpoint allChars (p : ascii -> bool) (s : string) : bool :=
  match s with
  | EmptyString => true
  | String c r => p c && allChars p r
  end.

(** A letter of [a-z], a digit or a dash. *)
Definition slugOrDash (c : ascii) : bool :=
  NotebookLibrary.isSlugChar c || NotebookLibrary.isDash c.

Definition startsWithDash (s : string) : bool :=
  match s with
  | EmptyString => false
  | String c _ => NotebookLibrary.isDash c
  end.

(** No two dashes in a row. *)
Fixpoint noDoubleDash (s : string) : bool :=
  match s with
  | EmptyString => true
  | String c r =>
      negb (NotebookLibrary.isDash c && startsWithDash r) && noDoubleDash r
  end.

(** The ids of the library are distinct and the active id, if any, is
    one of them. *)
Definition soundLibrary (lib : NotebookLibrary.Library) : Prop :=
  List.NoDup (List.map NotebookLibrary.id (NotebookLibrary.notebooks lib))
  /\ forall a, NotebookLibrary.active_notebook_id lib = Some a ->
        NotebookLibrary.hasId lib a = true.

Definition entryOf (i : string) (count : Z) : NotebookLibrary.NotebookEntry :=
  NotebookLibrary.mkEntry i ("https://notebooklm.google.com/notebook/" ++ i)
    i "Documentation" ["api"] ["documentation"] ["Learning"]
    "2025-01-01T00:00:00.000Z" "2025-01-02T00:00:00.000Z" count (Some []).

(** A library of two notebooks, the first one active. *)
Definition twoNotebooks : NotebookLibrary.Library :=
  NotebookLibrary.mkLibrary [entryOf "n8n-docs" 3; entryOf "react" 5]
    (Some "n8n-docs") "2025-01-02T00:00:00.000Z" "1.0.0".

Definition clockAt (k : nat) : string :=
  ("2025-02-01T00:00:0" ++ NotebookLibrary.decimal k ++ ".000Z")%string.

(** The file is written. *)
Definition writableDisk : NotebookLibrary.Disk :=
  NotebookLibrary.mkDisk (Resolved tt) clockAt.

Definition diskError : JsError := Error_ "ENOSPC: no space left on device".

(** The file cannot be written. *)
Definition fullDisk : NotebookLibrary.Disk :=
  NotebookLibrary.mkDisk (Rejected diskError) clockAt.

Definition reactInput : NotebookLibrary.AddNotebookInput :=
  NotebookLibrary.mkAddInput "https://notebooklm.google.com/notebook/r2"
    "React" "React documentation" ["react"] None None None.

End Vocabulary.

(* ===================================================================== *)
(** ** Completion detection                                                *)
(* ===================================================================== *)

Module CompletionDetection.
Import PageUtils Vocabulary.
Local Open Scope list_scope.
Local Open Scope nat_scope.

Lemma threeInARow_snoc (h : list string) (x : string) :
  threeInARow (h ++ [x]) ->
  threeInARow h \/ exists p, h = p ++ [x; x].
Proof.
  intros (l1 & y & l2 & E).
  destruct l2 as [|z l2] using rev_ind.
  - right. exists l1.
    change (l1 ++ [y; y; y]) with (l1 ++ [y; y] ++ [y]) in E.
    rewrite app_assoc in E. apply app_inj_tail in E as [E1 E2].
    subst. reflexivity.
  - left. clear IHl2. exists l1, y, l2.
    change (l1 ++ y :: y :: y :: l2 ++ [z])
      with (l1 ++ (y :: y :: y :: l2) ++ [z]) in E.
    rewrite app_assoc in E. apply app_inj_tail in E as [E1 E2].
    exact E1.
Qed.


Local Arguments Nat.leb : simpl never.

Lemma snoc_two_inv (p p' : list string) (a b c : string) :
  p ++ [a] = p' ++ [b; c] -> a = c /\ exists p'', p = p'' ++ [b].
Proof.
  intros E.
  change (p' ++ [b; c]) with (p' ++ [b] ++ [c]) in E.
  rewrite app_assoc in E. apply app_inj_tail in E as [E1 E2].
  split; [exact E2 | eauto].
Qed.

Lemma sameText_true (x : string) (last : option string) :
  sameText x last = true -> last = Some x.
Proof.
  destruct last as [l|]; simpl; [|discriminate].
  intros E. apply String.eqb_eq in E. congruence.
Qed.

Lemma sameText_false (x : string) (l : string) :
  sameText x (Some l) = false -> x <> l.
Proof. simpl. intros E. apply String.eqb_neq in E. exact E. Qed.

(** The count and the remembered candidate after a new candidate [x]. *)
Lemma agrees_step (h : list string) (st : LoopState) (x : string) :
  agrees h st ->
  let st' :=
    if sameText x (lastCandidate st)
    then mkLoopState (knownHashes st) (lastCandidate st) (S (stableCount st))
    else mkLoopState (knownHashes st) (Some x) 1 in
  if requiredStablePolls <=? stableCount st'
  then exists pre, h ++ [x] = pre ++ [x; x; x] /\ ~ threeInARow (pre ++ [x; x])
  else agrees (h ++ [x]) st'.
Proof.
  intros [Hno Hlast]. destruct (sameText x (lastCandidate st)) eqn:Esame; simpl.
  - apply sameText_true in Esame. rewrite Esame in Hlast.
    destruct Hlast as [(Hc & (p & Hp) & Hnp) | (Hc & p & Hp)]; rewrite Hc; simpl.
    + split.
      * intros H3. apply threeInARow_snoc in H3 as [H3 | (p' & Hp')]; [tauto|].
        exact (Hnp _ Hp').
      * rewrite Esame. right. split; [reflexivity|].
        exists p. rewrite Hp, <- app_assoc. reflexivity.
    + exists p. split; [rewrite Hp, <- app_assoc; reflexivity|].
      rewrite <- Hp. exact Hno.
  - assert (Hend : forall p, h <> p ++ [x]).
    { intros p Hp. destruct (lastCandidate st) as [l|] eqn:El.
      - apply sameText_false in Esame.
        destruct Hlast as [(_ & (p' & Hp') & _) | (_ & p' & Hp')]; rewrite Hp in Hp'.
        + apply app_inj_tail in Hp' as [_ E]. congruence.
        + apply snoc_two_inv in Hp' as [E _]. congruence.
      - destruct Hlast as [Hnil _]. rewrite Hnil in Hp.
        destruct p; discriminate. }
    split.
    + intros H3. apply threeInARow_snoc in H3 as [H3 | (p' & Hp')]; [tauto|].
      apply (Hend (p' ++ [x])). rewrite Hp', <- app_assoc. reflexivity.
    + simpl. left. split; [reflexivity|]. split; [eauto|].
      intros p Hp. apply snoc_two_inv in Hp as [_ (p'' & Hp'')].
      exact (Hend _ Hp'').
Qed.

(** One tick, against what it observed. *)
Lemma tick_observe (q : string) (page : Page) (st : LoopState)
    (h : list string) :
  agrees h st ->
  match tick q page st, observe q page st with
  | Continue st', Skipped => agrees h st'
  | Continue st', Observed x => agrees (h ++ [x]) st'
  | Return y, Observed x =>
      y = x /\ exists pre,
        h ++ [x] = pre ++ [x; x; x] /\ ~ threeInARow (pre ++ [x; x])
  | Return _, Skipped => False
  | Throw _, _ => True
  end.
Proof.
  intros Hag. unfold tick, observe.
  destruct (thinkingVisible page); simpl;
    destruct (waitForTimeout page) as [[]|e] eqn:Ew; simpl; try exact Hag.
  all: unfold extractStep, sleepThen; rewrite Ew.
  all: destruct (extractLatestText page (knownHashes st)) as [cand|];
    simpl; try exact Hag; try exact I.
  all: destruct (truthy cand); simpl; try exact Hag; try exact I.
  all: destruct (truthy (trim cand)); simpl; try exact Hag; try exact I.
  all: destruct (String.eqb (toLowerCase (trim cand)) q); simpl;
    try exact Hag; try exact I.
  all: pose proof (agrees_step h st (trim cand) Hag) as Hs; cbv zeta in Hs.
  all: match type of Hs with
       | if ?b then _ else _ => destruct b
       end; [split; [reflexivity | exact Hs] | first [exact Hs | exact I]].
Qed.


(** The loop, started in any state that agrees with the candidates [h]
    seen before. *)
Lemma pollLoop_sound (q : string) (pages : list Page) :
  forall (st : LoopState) (pc : nat) (h : list string) (c : string) (n : nat),
    agrees h st ->
    pollLoop q pages st pc = mkWaitResult (Resolved (Some c)) n ->
    n = pc + length (observations q pages st)
    /\ last (observations q pages st) = Some (Observed c)
    /\ exists pre,
         h ++ candidates (observations q pages st) = pre ++ [c; c; c]
         /\ ~ threeInARow (pre ++ [c; c]).
Proof.
  induction pages as [|page rest IH]; intros st pc h c n Hag Hrun.
  - discriminate.
  - cbn [pollLoop observations] in *.
    pose proof (tick_observe q page st h Hag) as Ht.
    destruct (tick q page st) as [st' | y | e].
    + destruct (observe q page st) as [|x].
      * destruct (IH st' (S pc) h c n Ht Hrun) as (Hn & Hl & Hp).
        cbn [length candidates]. split; [lia|]. split; [|exact Hp].
        rewrite last_cons, Hl. reflexivity.
      * destruct (IH st' (S pc) (h ++ [x]) c n Ht Hrun) as (Hn & Hl & Hp).
        cbn [length candidates]. split; [lia|]. split.
        -- rewrite last_cons, Hl. reflexivity.
        -- rewrite <- app_assoc in Hp. exact Hp.
    + destruct (observe q page st) as [|x]; [contradiction|].
      destruct Ht as [-> Hp]. injection Hrun as -> <-.
      cbn [length candidates]. split; [lia|]. split; [reflexivity | exact Hp].
    + discriminate.
Qed.

Lemma agrees_start (k : gset Z) : agrees [] (mkLoopState k None 0).
Proof.
  split; [|split; reflexivity].
  intros (l1 & x & l2 & E). destruct l1; discriminate.
Qed.

(** C1 (as amended).  [waitForLatestAnswer] returns a candidate only at a
    poll that observes it and only when the last three candidates observed
    are that candidate, where polls that sleep on the thinking indicator,
    find no new text or find the echo of the question are passed over: they
    neither count nor reset the stability counter.  At no earlier poll were
    three candidates in a row equal, and a candidate that changes at the
    third poll after two equal polls is not returned there.  On the polls
    Hel, Hello, Hello world, Hello world, Hello world the result is
    Hello world at the fifth poll. *)
Theorem waitForLatestAnswer_three_stable_candidates :
  (forall (question : string) (ignoreTexts : list string) (pages : list Page)
          (c : string) (n : nat),
      waitForLatestAnswer question ignoreTexts pages
        = mkWaitResult (Resolved (Some c)) n ->
      let obs := pollObservations question ignoreTexts pages in
      n = length obs
      /\ last obs = Some (Observed c)
      /\ exists pre, candidates obs = pre ++ [c; c; c]
                     /\ ~ threeInARow (pre ++ [c; c]))
  /\ (forall (question : string) (ignoreTexts : list string) (pages : list Page)
             (a b c : string) (rest : list Observation),
        pollObservations question ignoreTexts pages
          = Observed a :: Observed a :: Observed b :: rest ->
        a <> b ->
        waitForLatestAnswer question ignoreTexts pages
          <> mkWaitResult (Resolved (Some c)) 3)
  /\ waitForLatestAnswer "" [] helloPolls
       = mkWaitResult (Resolved (Some "Hello world")) 5.
Proof.
  assert (Hsound : forall question ignoreTexts pages c n,
      waitForLatestAnswer question ignoreTexts pages
        = mkWaitResult (Resolved (Some c)) n ->
      let obs := pollObservations question ignoreTexts pages in
      n = length obs
      /\ last obs = Some (Observed c)
      /\ exists pre, candidates obs = pre ++ [c; c; c]
                     /\ ~ threeInARow (pre ++ [c; c])).
  { intros question ignoreTexts pages c n Hrun obs.
    unfold waitForLatestAnswer in Hrun.
    destruct (pollLoop_sound _ _ _ _ [] c n (agrees_start _) Hrun)
      as (Hn & Hl & Hp).
    repeat split; assumption. }
  split; [exact Hsound | split].
  - intros question ignoreTexts pages a b c rest Hobs Hab Hrun.
    destruct (Hsound _ _ _ _ _ Hrun) as (Hn & _ & pre & Hc & _).
    rewrite Hobs in Hn, Hc. cbn [length candidates] in Hn, Hc.
    destruct rest; [|discriminate Hn]. cbn [candidates] in Hc.
    destruct pre as [|p1 pre]; [injection Hc; congruence|].
    apply (f_equal (@length string)) in Hc.
    rewrite length_app in Hc. cbn [length] in Hc. lia.
  - vm_compute. reflexivity.
Qed.

(** On the example polls the theorem gives the three observations of
    Hello world that end the five polls. *)
Lemma waitForLatestAnswer_three_stable_candidates_witness :
  let obs := pollObservations "" [] helloPolls in
  5 = length obs
  /\ last obs = Some (Observed "Hello world")
  /\ exists pre,
       candidates obs = pre ++ ["Hello world"; "Hello world"; "Hello world"]
       /\ ~ threeInARow (pre ++ ["Hello world"; "Hello world"]).
Proof.
  apply (proj1 waitForLatestAnswer_three_stable_candidates "" [] helloPolls).
  vm_compute. reflexivity.
Defined.

(** C1 as stated fails: after two polls that see the answer, a poll
    during which the thinking indicator is visible observes nothing, and
    the fourth poll returns the answer.  The three polls before the return
    are not three identical observations. *)
Lemma waitForLatestAnswer_returns_across_skipped_poll :
  waitForLatestAnswer "q" [] interruptedPolls
    = mkWaitResult (Resolved (Some "A")) 4
  /\ pollObservations "q" [] interruptedPolls
       = [Observed "A"; Observed "A"; Skipped; Observed "A"]
  /\ ~ (exists pre,
          pollObservations "q" [] interruptedPolls
            = pre ++ [Observed "A"; Observed "A"; Observed "A"]).
Proof.
  split; [vm_compute; reflexivity|].
  split; [vm_compute; reflexivity|].
  intros (pre & E).
  replace (pollObservations "q" [] interruptedPolls)
    with [Observed "A"; Observed "A"; Skipped; Observed "A"] in E
    by (vm_compute; reflexivity).
  apply (f_equal (@rev Observation)) in E.
  rewrite rev_app_distr in E. simpl in E. discriminate E.
Qed.

End CompletionDetection.

(* ===================================================================== *)
(** ** Text extraction                                                     *)
(* ===================================================================== *)

Module Extraction.
Import PageUtils Vocabulary.
Local Open Scope list_scope.
Local Open Scope nat_scope.

Lemma scanContainers_firstUnseen (knownHashes : gset Z)
    (containers : list Container) :
  scanContainers knownHashes containers
  = firstUnseen knownHashes (primaryBlocks containers).
Proof.
  unfold firstUnseen, primaryBlocks, textBlocks.
  induction containers as [|c rest IH]; [reflexivity|].
  cbn [scanContainers omap list_omap]. unfold containerBlock at 1.
  destruct (messageTextContent c) as [[[text|e]|]|e]; cbn; try exact IH.
  destruct (truthy (trim text)); cbn; [|exact IH].
  destruct (known knownHashes (trim text)); cbn; [exact IH | reflexivity].
Qed.

Lemma find_app_first {A : Type} (f : A -> bool) (l1 l2 : list A) :
  find f (l1 ++ l2)
  = match find f l1 with Some x => Some x | None => find f l2 end.
Proof.
  induction l1 as [|a l1 IH]; [reflexivity|].
  cbn. destruct (f a); [reflexivity | exact IH].
Qed.

Lemma scanElements_firstUnseen (knownHashes : gset Z)
    (elements : list ResponseElement) :
  scanElements knownHashes elements
  = firstUnseen knownHashes (textBlocks (omap elementBlock elements)).
Proof.
  unfold firstUnseen, textBlocks.
  induction elements as [|e rest IH]; [reflexivity|].
  cbn [scanElements omap list_omap]. unfold elementBlock at 1.
  destruct (containerText e) as [text|err]; cbn; [|exact IH].
  destruct (truthy (trim text)); cbn; [|exact IH].
  destruct (known knownHashes (trim text)); cbn; [exact IH | reflexivity].
Qed.

Lemma scanSelectors_firstUnseen (page : Page) (knownHashes : gset Z)
    (selectors : list string) :
  scanSelectors page knownHashes selectors
  = firstUnseen knownHashes (concat (map (selectorBlocks page) selectors)).
Proof.
  induction selectors as [|selector rest IH]; [reflexivity|].
  cbn [scanSelectors map concat]. unfold firstUnseen in *.
  rewrite find_app_first, <- IH. unfold selectorBlocks at 1.
  destruct (queryAll page selector) as [elements|e]; [|reflexivity].
  destruct elements as [|el els]; [reflexivity|].
  rewrite scanElements_firstUnseen. reflexivity.
Qed.

(** Where [extractLatestText] follows the first-unseen-hash rule.  When
    the primary query resolves with more containers than there are known
    hashes, it returns the first text block of the primary containers, in
    document order, whose hash is not known ([null] when there is none,
    without falling back); with at most as many containers as known
    hashes, none included, it returns [null] at once.  When the primary
    query rejects, the fallback selectors are scanned in their priority
    order by the same first-unseen-hash rule. *)
Theorem extractLatestText_first_unseen (page : Page) (knownHashes : gset Z) :
  match toUserContainers page with
  | Resolved containers =>
      if length containers <=? size knownHashes
      then extractLatestText page knownHashes = None
      else extractLatestText page knownHashes
           = firstUnseen knownHashes (primaryBlocks containers)
  | Rejected _ =>
      match firstUnseen knownHashes (fallbackBlocks page) with
      | Some text => extractLatestText page knownHashes = Some text
      | None => True
      end
  end.
Proof.
  unfold extractLatestText.
  destruct (toUserContainers page) as [containers|e].
  - destruct (length containers <=? size knownHashes) eqn:Esize;
      [reflexivity|].
    apply Nat.leb_gt in Esize.
    destruct (0 <? length containers) eqn:Epos.
    + apply scanContainers_firstUnseen.
    + apply Nat.ltb_ge in Epos. lia.
  - unfold fallbackChain, fallbackBlocks.
    rewrite scanSelectors_firstUnseen.
    destruct (firstUnseen knownHashes _); [reflexivity | exact I].
Qed.

(** C2.  The code departs from the first-unseen-hash rule at three
    inputs.  With one known hash and one primary container, the guard on
    the number of containers returns [null] before any scan, although the
    text of the container is unseen.  With no primary container the same
    guard returns [null] without trying the fallback selectors, although
    one of them matches an unseen text.  And the raw scan returns its
    last block, although the hash of that block is known and an earlier
    block is unseen. *)
Theorem extractLatestText_not_first_unseen :
  (let knownHashes := ignoreHashes ["old answer"] ∅ in
   let page := answerPage false ["fresh answer"] in
   size knownHashes = 1
   /\ primaryBlocks (primaryContainers page) = ["fresh answer"]
   /\ firstUnseen knownHashes (primaryBlocks (primaryContainers page))
      = Some "fresh answer"
   /\ extractLatestText page knownHashes = None)
  /\ (let page := fallbackOnlyPage ["new answer"] in
      toUserContainers page = Resolved []
      /\ firstUnseen ∅ (fallbackBlocks page) = Some "new answer"
      /\ extractLatestText page ∅ = None)
  /\ (let knownHashes := ignoreHashes ["old answer"] ∅ in
      let page := rawOnlyPage ["new answer"; "old answer"] in
      rawBlocks page = ["new answer"; "old answer"]
      /\ firstUnseen knownHashes (rawBlocks page) = Some "new answer"
      /\ extractLatestText page knownHashes = Some "old answer").
Proof.
  split; [split; [|split; [|split]] | split; split; [|split| |split]];
    vm_compute; reflexivity.
Qed.

End Extraction.

(* ===================================================================== *)
(** ** Credential checks                                                   *)
(* ===================================================================== *)

Module Credentials.
Import AuthManager Vocabulary.
Local Open Scope list_scope.

Lemma Qlt_bool_iff (x y : Q) : Qlt_bool x y = true <-> (x < y)%Q.
Proof.
  unfold Qlt_bool. rewrite negb_true_iff. split.
  - intros H. apply Qnot_le_lt. intros Hle.
    apply Qle_bool_iff in Hle. congruence.
  - intros H. destruct (Qle_bool y x) eqn:E; [|reflexivity].
    apply Qle_bool_iff in E. exfalso. exact (Qlt_not_le _ _ H E).
Qed.

Lemma expiredNames_nil (nowMs : Z) (cs : list Cookie) :
  expiredNames (currentTime nowMs) cs = []
  <-> forall c, In c cs -> unexpired nowMs c.
Proof.
  induction cs as [|c cs IH]; cbn [expiredNames].
  - split; [intros _ c [] | reflexivity].
  - destruct (Qeq_bool (expiresOr c) (-1)) eqn:Eq.
    + apply Qeq_bool_iff in Eq. rewrite IH. split.
      * intros H c' [<-|Hin]; [left; exact Eq | exact (H c' Hin)].
      * intros H c' Hin. apply H. right. exact Hin.
    + destruct (Qlt_bool (expiresOr c) (currentTime nowMs)) eqn:Elt.
      * apply Qlt_bool_iff in Elt. split; [discriminate|].
        intros H. destruct (H c (or_introl eq_refl)) as [Hs | Hle].
        -- apply Qeq_bool_iff in Hs. unfold sessionScoped in *. congruence.
        -- exfalso. exact (Qlt_not_le _ _ Elt Hle).
      * rewrite IH. split.
        -- intros H c' [<-|Hin]; [|exact (H c' Hin)].
           right. apply Qnot_lt_le. intros Hlt.
           apply Qlt_bool_iff in Hlt. congruence.
        -- intros H c' Hin. apply H. right. exact Hin.
Qed.

(** C6 (as amended).  [validateCookiesExpiry] is true exactly when the
    cookies can be read, at least one cookie of the critical-name set is
    present, and every critical cookie present is session-scoped (no
    expiry, or the expiry -1) or has an expiry that is not before the
    current time, which is the double that [Date.now() / 1000] gives. *)
Theorem validateCookiesExpiry_all_critical_unexpired
    (cookies : outcome (list Cookie)) (nowMs : Z) :
  validateCookiesExpiry cookies nowMs = true
  <-> exists cs, cookies = Resolved cs
        /\ (exists c, In c cs /\ critical c)
        /\ (forall c, In c cs -> critical c -> unexpired nowMs c).
Proof.
  unfold validateCookiesExpiry. destruct cookies as [cs|e].
  2:{ split; [discriminate | intros (cs & E & _); discriminate]. }
  assert (Hall : (forall c, In c (List.filter isCritical cs) -> unexpired nowMs c)
                 <-> (forall c, In c cs -> critical c -> unexpired nowMs c)).
  { split.
    - intros H c Hin Hc. apply H. apply filter_In. split; assumption.
    - intros H c Hin. apply filter_In in Hin as [Hin Hc]. exact (H c Hin Hc). }
  assert (Hex : List.filter isCritical cs <> []
                <-> exists c, In c cs /\ critical c).
  { split.
    - destruct (List.filter isCritical cs) as [|c l] eqn:E; [congruence|].
      intros _. exists c. apply filter_In. rewrite E. left. reflexivity.
    - intros (c & Hin & Hc) E.
      assert (Hf : In c (List.filter isCritical cs))
        by (apply filter_In; split; assumption).
      rewrite E in Hf. exact Hf. }
  fold (currentTime nowMs).
  destruct (length cs =? 0)%nat eqn:El.
  { apply Nat.eqb_eq in El. destruct cs; [|discriminate El].
    split; [discriminate|]. intros (cs' & E & (c & Hin & _) & _).
    injection E as <-. destruct Hin. }
  destruct (length (List.filter isCritical cs) =? 0)%nat eqn:Ef.
  { apply Nat.eqb_eq, length_zero_iff_nil in Ef.
    split; [discriminate|]. intros (cs' & E & Hc & _).
    injection E as <-. apply Hex in Hc. congruence. }
  apply Nat.eqb_neq in Ef.
  destruct (0 <? length (expiredNames (currentTime nowMs)
                                      (List.filter isCritical cs)))%nat eqn:Ee.
  - apply Nat.ltb_lt in Ee. split; [discriminate|].
    intros (cs' & E & _ & Hok). injection E as <-.
    pose proof (proj2 (expiredNames_nil nowMs _) (proj2 Hall Hok)) as Hnil.
    rewrite Hnil in Ee. cbn in Ee. lia.
  - apply Nat.ltb_ge in Ee. split; [|reflexivity]. intros _. exists cs.
    split; [reflexivity|]. split.
    + apply Hex. intros E. rewrite E in Ef. apply Ef. reflexivity.
    + apply (proj1 Hall). apply (proj1 (expiredNames_nil _ _)).
      apply length_zero_iff_nil. lia.
Qed.

(** C6 as stated fails.  With a critical cookie that expires in the
    future and a second critical cookie that has expired, a critical
    cookie with a future expiry is present, and the check is false.  And
    a critical cookie that expires at the current second, so not in the
    future, passes the check. *)
Lemma validateCookiesExpiry_not_one_future_cookie :
  ((exists c, In c mixedCookies /\ critical c /\ expiresInFuture 1000000 c)
   /\ validateCookiesExpiry (Resolved mixedCookies) 1000000 = false)
  /\ (~ expiresInFuture 1000000 expiringNow
      /\ validateCookiesExpiry (Resolved [expiringNow]) 1000000 = true).
Proof.
  split; split.
  - exists (mkCookie "SID" ".google.com" (Some 2000%Q)).
    split; [left; reflexivity|]. split; [reflexivity|].
    right. vm_compute. reflexivity.
  - vm_compute. reflexivity.
  - intros [H | H]; vm_compute in H; discriminate H.
  - vm_compute. reflexivity.
Qed.

(** The current time is the rounded quotient: at 1 700 000 000 001 ms it
    is the double 3565158400002097 / 2^21, which is below the exact
    quotient, and a critical cookie that expires at that double passes
    the check. *)
Lemma validateCookiesExpiry_rounds_the_time :
  (currentTime 1700000000001 == 3565158400002097 # 2097152)%Q
  /\ (3565158400002097 # 2097152 < inject_Z 1700000000001 / 1000)%Q
  /\ validateCookiesExpiry
       (Resolved [mkCookie "SID" ".google.com"
                           (Some (3565158400002097 # 2097152)%Q)])
       1700000000001
     = true.
Proof. repeat split; vm_compute; reflexivity. Qed.

(** The age of the state file, in seconds. *)
Lemma isStateExpired_old (am : AuthManager.AuthManager) (disk : Disk)
    (nowMs : Z) (f : StateFile) :
  disk (stateFilePath am) = Some f ->
  (maxAgeSeconds < (inject_Z nowMs - mtimeMs f) / 1000)%Q ->
  isStateExpired am disk nowMs = true.
Proof.
  intros Hf Hold. unfold isStateExpired, stat. rewrite Hf.
  apply Qlt_bool_iff in Hold. rewrite Hold. reflexivity.
Qed.

(** C7.  For a snapshot file older than 24 hours [getValidStatePath]
    returns [null], whatever cookies the snapshot holds. *)
Theorem getValidStatePath_null_when_older_than_24h
    (am : AuthManager.AuthManager) (disk : Disk) (nowMs : Z) (f : StateFile) :
  disk (stateFilePath am) = Some f ->
  (24 * 60 * 60 < (inject_Z nowMs - mtimeMs f) / 1000)%Q ->
  getValidStatePath am disk nowMs = None.
Proof.
  intros Hf Hold. unfold getValidStatePath, getStatePath. rewrite Hf.
  rewrite (isStateExpired_old am disk nowMs f Hf Hold). reflexivity.
Qed.

(** A snapshot written 25 hours ago whose cookies all expire far in the
    future is not handed out. *)
Lemma getValidStatePath_null_when_older_than_24h_witness :
  (forall c, In c (savedCookies oldSnapshot) -> expiresInFuture 90000000 c)
  /\ getValidStatePath stateJson (diskWith stateJson oldSnapshot) 90000000
     = None.
Proof.
  split.
  - intros c [<-|[<-|[]]]; right; vm_compute; reflexivity.
  - apply (getValidStatePath_null_when_older_than_24h
             stateJson (diskWith stateJson oldSnapshot) 90000000 oldSnapshot).
    + reflexivity.
    + vm_compute. reflexivity.
Defined.

(** The file-age check does not read the cookies: two disks whose state
    files have the same modification time get the same answer. *)
Lemma getValidStatePath_ignores_cookies (am : AuthManager.AuthManager)
    (disk disk' : Disk) (nowMs : Z) :
  option_map mtimeMs (disk (stateFilePath am))
  = option_map mtimeMs (disk' (stateFilePath am)) ->
  getValidStatePath am disk nowMs = getValidStatePath am disk' nowMs.
Proof.
  unfold getValidStatePath, getStatePath, isStateExpired, stat.
  destruct (disk (stateFilePath am)) as [f|], (disk' (stateFilePath am)) as [f'|];
    cbn; intros E; try discriminate; [|reflexivity].
  injection E as ->. reflexivity.
Qed.

End Credentials.

(* ===================================================================== *)
(** ** The ask protocol                                                    *)
(* ===================================================================== *)

Module Asking.
Import PageUtils BrowserSession Vocabulary.
Local Open Scope list_scope.

(** *** The message counter *)

Lemma init_messageCount (s : BrowserSession) (w : InitScript) :
  messageCount (snd (init s w)) = messageCount s.
Proof.
  unfold init, initFailed. destruct (initialized s); [reflexivity|].
  destruct (initBody w); [reflexivity|].
  destruct (initOpened w), (page s), (initPageClose w); reflexivity.
Qed.

Lemma askBody_counted (q : string) (s : BrowserSession) (w : AskScript) :
  counted s (askBody q s w).
Proof.
  unfold counted, askBody.
  destruct (findChatInput s w); [|reflexivity].
  destruct (typing w); [|reflexivity].
  destruct (pressEnter w); [|reflexivity].
  destruct (answer _) as [[ans|]|err]; try reflexivity.
  destruct (negb (truthy ans)); [reflexivity|].
  destruct (detectRateLimitError s (errorDom w)); reflexivity.
Qed.

Lemma askAuthenticated_counted (q : string) (s : BrowserSession)
    (w : AskScript) :
  counted s (askAuthenticated q s w).
Proof.
  unfold askAuthenticated.
  destruct (negb _); [|apply askBody_counted].
  destruct (ensureAuthenticated s w) as [[]|e];
    first [apply askBody_counted | reflexivity].
Qed.

Lemma askOnce_counted (q : string) (s : BrowserSession) (w : AskScript) :
  counted s (askOnce q s w).
Proof.
  unfold askOnce.
  destruct (negb (initialized s) || isNull (page s) || isPageClosedSafe s w);
    [|apply askAuthenticated_counted].
  pose proof (init_messageCount s (initScript w)) as Hinit.
  destruct (init s (initScript w)) as [[[]|e] s1]; cbn in Hinit.
  - pose proof (askAuthenticated_counted q s1 w) as H.
    unfold counted in *. rewrite <- Hinit. exact H.
  - exact Hinit.
Qed.


Lemma ask_counted (q : string) (s : BrowserSession) (w : AskWorld) :
  counted s (result (ask q s w), session (ask q s w)).
Proof.
  unfold counted, ask. cbn [fst snd].
  pose proof (askOnce_counted q s (first w)) as H1. unfold counted in H1.
  destruct (askOnce q s (first w)) as [[a1|e1] s1]; cbn in H1; [exact H1|].
  destruct (closedPattern (errorText e1)); [|exact H1].
  set (s2 := setPage (setInitialized s1 false) None).
  pose proof (init_messageCount s2 (recoveryInit w)) as H2.
  destruct (init s2 (recoveryInit w)) as [[[]|e2] s3]; cbn in H2.
  - pose proof (askOnce_counted q s3 (retry w)) as H3. unfold counted in H3.
    destruct (askOnce q s3 (retry w)) as [[a4|e4] s4]; cbn in *;
      rewrite H3, H2; subst s2; cbn; rewrite H1; reflexivity.
  - cbn. rewrite H2. subst s2. cbn. exact H1.
Qed.

(** C8.  A call of [ask] that returns an answer leaves [messageCount]
    one higher; a call that throws, whatever the error and whether or not
    a recovery was tried, leaves it as it was. *)
Theorem ask_messageCount (q : string) (s : BrowserSession) (w : AskWorld) :
  match result (ask q s w) with
  | Resolved _ => messageCount (session (ask q s w)) = messageCount s + 1
  | Rejected _ => messageCount (session (ask q s w)) = messageCount s
  end.
Proof. exact (ask_counted q s w). Qed.

(** *** Recovery from a closed tab or context *)

(** C3 (as amended).  When the first run of [askOnce] throws an error
    that matches the closed-context pattern, [ask] enters the recovery
    once: it marks the session uninitialized, drops the tab, calls
    [init()] once and, if that resolves, runs [askOnce] once more.  What
    the recovery gives is what [ask] gives: an error of [init()] or of the
    second run is thrown as it is, also when it matches the pattern
    again. *)
Theorem ask_recovers_once (q : string) (s : BrowserSession) (w : AskWorld)
    (error : JsError) (s1 : BrowserSession) :
  askOnce q s (first w) = (Rejected error, s1) ->
  closedPattern (errorText error) = true ->
  let r := ask q s w in
  let s2 := setPage (setInitialized s1 false) None in
  countEvent Recovery (events r) = 1%nat
  /\ countEvent Reinit (events r) = 1%nat
  /\ (countEvent Attempt (events r) <= 2)%nat
  /\ initialized s2 = false /\ page s2 = None
  /\ match init s2 (recoveryInit w) with
     | (Rejected e2, s3) =>
         result r = Rejected e2 /\ session r = s3
         /\ events r = [Attempt; Recovery; Reinit]
     | (Resolved _, s3) =>
         (result r, session r) = askOnce q s3 (retry w)
         /\ events r = [Attempt; Recovery; Reinit; Attempt]
     end.
Proof.
  intros Hfirst Hclosed r s2. subst r. unfold ask.
  rewrite Hfirst, Hclosed. fold s2.
  destruct (init s2 (recoveryInit w)) as [[[]|e2] s3].
  - destruct (askOnce q s3 (retry w)) as [[a4|e4] s4]; cbn;
      repeat split; lia.
  - cbn. repeat split; lia.
Qed.

(** The tab closes while the question is typed and the retry times out:
    one recovery, and the timeout is what the caller gets. *)
Lemma ask_recovers_once_witness :
  let r := ask "q" readySession closedThenTimeout in
  countEvent Recovery (events r) = 1%nat
  /\ events r = [Attempt; Recovery; Reinit; Attempt]
  /\ result r = Rejected timeoutError.
Proof.
  pose proof (ask_recovers_once "q" readySession closedThenTimeout
                closedError readySession eq_refl eq_refl) as H.
  cbv zeta in H. destruct H as (Hr & _ & _ & _ & _ & H).
  split; [exact Hr|]. vm_compute in H. destruct H as [_ He].
  split; [exact He | vm_compute; reflexivity].
Defined.

(** An error that does not match the pattern is thrown without
    recovery. *)
Lemma ask_no_recovery (q : string) (s : BrowserSession) (w : AskWorld)
    (error : JsError) (s1 : BrowserSession) :
  askOnce q s (first w) = (Rejected error, s1) ->
  closedPattern (errorText error) = false ->
  ask q s w = mkAskResult (Rejected error) s1 [Attempt].
Proof. intros H1 H2. unfold ask. rewrite H1, H2. reflexivity. Qed.

(** C3 as stated fails: the first run throws the closed-tab error, the
    retry throws the timeout error, and the caller gets the timeout error,
    not the original one. *)
Lemma ask_surfaces_retry_error :
  fst (askOnce "q" readySession (first closedThenTimeout))
    = Rejected closedError
  /\ closedPattern (errorText closedError) = true
  /\ result (ask "q" readySession closedThenTimeout) = Rejected timeoutError
  /\ timeoutError <> closedError.
Proof.
  split; [vm_compute; reflexivity|].
  split; [vm_compute; reflexivity|].
  split; [vm_compute; reflexivity|].
  discriminate.
Qed.


(** *** Rate-limit detection *)

Lemma hasKeyword_rate_limit (text : string) :
  mentionsRateLimit text -> hasKeyword text = true.
Proof.
  unfold mentionsRateLimit, hasKeyword, keywords. intros H.
  cbn [existsb]. rewrite H. reflexivity.
Qed.

Lemma anyKeyword_in (elements : list (outcome string)) (text : string) :
  In (Resolved text) elements -> mentionsRateLimit text ->
  anyKeyword elements = true.
Proof.
  intros Hin Hm. induction elements as [|el rest IH]; [destruct Hin|].
  destruct Hin as [-> | Hin]; cbn [anyKeyword].
  - rewrite (hasKeyword_rate_limit _ Hm). reflexivity.
  - destruct el as [t|e]; [|exact (IH Hin)].
    destruct (hasKeyword t); [reflexivity | exact (IH Hin)].
Qed.

Lemma scanErrorSelectors_in (dom : ErrorDom) (selectors : list string)
    (selector : string) (elements : list (outcome string)) :
  In selector selectors ->
  errorElements dom selector = Resolved elements ->
  anyKeyword elements = true ->
  scanErrorSelectors dom selectors = true.
Proof.
  intros Hin Hq Hk. induction selectors as [|sel rest IH]; [destruct Hin|].
  cbn [scanErrorSelectors]. destruct Hin as [-> | Hin].
  - rewrite Hq, Hk. reflexivity.
  - destruct (errorElements dom sel) as [els|e]; [|exact (IH Hin)].
    destruct (anyKeyword els); [reflexivity | exact (IH Hin)].
Qed.

Lemma detectRateLimitError_shown (s : BrowserSession) (dom : ErrorDom) :
  rateLimitShown dom -> page s <> None ->
  detectRateLimitError s dom = true.
Proof.
  intros Hshown Hpage. unfold detectRateLimitError.
  destruct (page s); [|congruence].
  destruct Hshown as [(sel & els & text & Hin & Hq & Het & Hm)
                     | (input & text & Hq & Hd & Hp & Hm)].
  - rewrite (scanErrorSelectors_in dom _ sel els Hin Hq
               (anyKeyword_in els text Het Hm)). reflexivity.
  - destruct (scanErrorSelectors dom errorSelectors); [reflexivity|].
    unfold disabledInputCheck. rewrite Hq, Hd, Hp.
    apply hasKeyword_rate_limit. exact Hm.
Qed.

Lemma detectRateLimitError_quiet (s : BrowserSession) :
  detectRateLimitError s quietDom = false.
Proof. unfold detectRateLimitError. destruct (page s); reflexivity. Qed.

(** A run on a page that shows the rate limit, against the same run on a
    page without error elements: the answer of the one is the
    [RateLimitError] of the other, and every other error is the same. *)
Lemma askBody_shown (q : string) (s : BrowserSession) (w : AskScript)
    (dom : ErrorDom) :
  rateLimitShown dom ->
  match askBody q s (setErrorDom w quietDom) with
  | (Resolved _, _) =>
      askBody q s (setErrorDom w dom) = (Rejected RateLimitError, s)
  | (Rejected e, s') => askBody q s (setErrorDom w dom) = (Rejected e, s')
  end.
Proof.
  intros Hshown. unfold askBody, findChatInput. cbn [setErrorDom pageBefore chatInput typing pressEnter polls errorDom doneNow].
  destruct (page s) as [tab|] eqn:Epage; [|reflexivity].
  destruct (chatInput w); [|reflexivity].
  destruct (typing w); [|reflexivity].
  destruct (pressEnter w); [|reflexivity].
  destruct (answer _) as [[ans|]|err]; try reflexivity.
  destruct (negb (truthy ans)); [reflexivity|].
  rewrite detectRateLimitError_quiet.
  rewrite (detectRateLimitError_shown s dom Hshown); [reflexivity|].
  congruence.
Qed.

Lemma askOnce_shown (q : string) (s : BrowserSession) (w : AskScript)
    (dom : ErrorDom) :
  rateLimitShown dom ->
  match askOnce q s (setErrorDom w quietDom) with
  | (Resolved _, _) =>
      exists s', askOnce q s (setErrorDom w dom) = (Rejected RateLimitError, s')
  | (Rejected e, s') => askOnce q s (setErrorDom w dom) = (Rejected e, s')
  end.
Proof.
  intros Hshown.
  assert (Hauth : forall s0,
    match askAuthenticated q s0 (setErrorDom w quietDom) with
    | (Resolved _, _) =>
        exists s', askAuthenticated q s0 (setErrorDom w dom)
                   = (Rejected RateLimitError, s')
    | (Rejected e, s') =>
        askAuthenticated q s0 (setErrorDom w dom) = (Rejected e, s')
    end).
  { intros s0. unfold askAuthenticated, ensureAuthenticated.
    cbn [setErrorDom cookies authNow reAuth].
    pose proof (askBody_shown q s0 w dom Hshown) as Hb.
    assert (Hb' : match askBody q s0 (setErrorDom w quietDom) with
                  | (Resolved _, _) =>
                      exists s', askBody q s0 (setErrorDom w dom)
                                 = (Rejected RateLimitError, s')
                  | (Rejected e, s') =>
                      askBody q s0 (setErrorDom w dom) = (Rejected e, s')
                  end).
    { destruct (askBody q s0 (setErrorDom w quietDom)) as [[a0|e0] s0'];
        [eauto | exact Hb]. }
    destruct (negb _); [|exact Hb'].
    destruct (page s0); [|reflexivity].
    destruct (reAuth w) as [[]|e]; first [exact Hb' | reflexivity]. }
  unfold askOnce, isPageClosedSafe. cbn [setErrorDom pageClosed initScript].
  destruct (negb (initialized s) || isNull (page s) || _); [|apply Hauth].
  destruct (init s (initScript w)) as [[[]|e] s1]; [apply Hauth | reflexivity].
Qed.

(** C9 (as amended).  Whenever a call of [ask] would return an extracted
    answer on a page without error elements, the same call on a page where
    an element matched by one of the error selectors, or the parent of the
    disabled chat input, has a text that includes "rate limit" in any case
    of letters throws [RateLimitError] instead, and counts no message. *)
Theorem ask_rate_limit_error (q : string) (s : BrowserSession) (w : AskWorld)
    (dom : ErrorDom) (extracted : string) :
  rateLimitShown dom ->
  result (ask q s (withErrorDom w quietDom)) = Resolved extracted ->
  result (ask q s (withErrorDom w dom)) = Rejected RateLimitError
  /\ messageCount (session (ask q s (withErrorDom w dom))) = messageCount s.
Proof.
  intros Hshown Hquiet.
  assert (Hres : result (ask q s (withErrorDom w dom)) = Rejected RateLimitError).
  { revert Hquiet. unfold ask. cbn [withErrorDom first recoveryInit retry].
    pose proof (askOnce_shown q s (first w) dom Hshown) as H1.
    destruct (askOnce q s (setErrorDom (first w) quietDom)) as [[a1|e1] s1].
    - destruct H1 as [s' ->]. intros _. reflexivity.
    - rewrite H1. destruct (closedPattern (errorText e1)); [|discriminate].
      destruct (init _ (recoveryInit w)) as [[[]|e2] s3]; [|discriminate].
      pose proof (askOnce_shown q s3 (retry w) dom Hshown) as H2.
      destruct (askOnce q s3 (setErrorDom (retry w) quietDom)) as [[a4|e4] s4];
        [|discriminate].
      destruct H2 as [s' ->]. intros _. reflexivity. }
  split; [exact Hres|].
  pose proof (ask_counted q s (withErrorDom w dom)) as Hc.
  unfold counted in Hc. cbn [fst snd] in Hc. rewrite Hres in Hc. exact Hc.
Qed.

(** An alert with the text "Daily Rate Limit reached" turns the answer
    into a [RateLimitError]. *)
Lemma ask_rate_limit_error_witness :
  rateLimitShown alertDom
  /\ result (ask "q" readySession (withErrorDom plainAnswerWorld quietDom))
     = Resolved plainAnswer
  /\ result (ask "q" readySession (withErrorDom plainAnswerWorld alertDom))
     = Rejected RateLimitError
  /\ messageCount (session (ask "q" readySession
                              (withErrorDom plainAnswerWorld alertDom)))
     = messageCount readySession.
Proof.
  assert (Hshown : rateLimitShown alertDom).
  { left. exists "[role='alert']", [Resolved "Daily Rate Limit reached"],
      "Daily Rate Limit reached".
    split; [right; right; left; reflexivity|].
    split; [reflexivity|]. split; [left; reflexivity | reflexivity]. }
  assert (Hquiet :
    result (ask "q" readySession (withErrorDom plainAnswerWorld quietDom))
    = Resolved plainAnswer) by (vm_compute; reflexivity).
  split; [exact Hshown|]. split; [exact Hquiet|].
  exact (ask_rate_limit_error "q" readySession plainAnswerWorld
           alertDom plainAnswer Hshown Hquiet).
Defined.

(** C9 as stated fails: the extracted answer, and so any region of the
    page that contains it, includes "rate limit", and [ask] returns the
    answer. *)
Lemma ask_returns_answer_about_rate_limit :
  result (ask "q" readySession answerAboutRateLimit) = Resolved quotaAnswer
  /\ mentionsRateLimit quotaAnswer.
Proof. split; vm_compute; reflexivity. Qed.

End Asking.

(* ===================================================================== *)
(** ** The session pool                                                    *)
(* ===================================================================== *)

Module Pool.
Import BrowserSession SessionManager Vocabulary.
Local Open Scope list_scope.

(** *** The map *)

Lemma mapHas_mapGet (m : SessionMap) (k : string) :
  mapHas m k = true <-> exists v, mapGet m k = Some v.
Proof.
  induction m as [|[k' v'] m IH]; cbn.
  - split; [discriminate | intros [v H]; discriminate].
  - destruct (String.eqb k' k); cbn; [split; eauto | exact IH].
Qed.

Lemma mapGet_mapDelete_eq (m : SessionMap) (k : string) :
  mapGet (mapDelete m k) k = None.
Proof.
  induction m as [|[k' v'] m IH]; [reflexivity|]. cbn.
  destruct (String.eqb k' k) eqn:E; cbn; [exact IH|].
  rewrite E. exact IH.
Qed.

Lemma mapGet_mapDelete_ne (m : SessionMap) (k k' : string) :
  k' <> k -> mapGet (mapDelete m k) k' = mapGet m k'.
Proof.
  intros Hne. induction m as [|[k0 v0] m IH]; [reflexivity|]. cbn.
  destruct (String.eqb k0 k) eqn:E; cbn.
  - apply String.eqb_eq in E. subst k0.
    destruct (String.eqb k k') eqn:E'; [|exact IH].
    apply String.eqb_eq in E'. congruence.
  - destruct (String.eqb k0 k'); [reflexivity | exact IH].
Qed.

Lemma mapGet_None_mapDelete (m : SessionMap) (k k' : string) :
  mapGet m k' = None -> mapGet (mapDelete m k) k' = None.
Proof.
  intros H. destruct (String.eqb_spec k' k) as [->|Hne].
  - apply mapGet_mapDelete_eq.
  - rewrite mapGet_mapDelete_ne; assumption.
Qed.

Lemma mapSet_fresh (m : SessionMap) (k : string) (v : BrowserSession) :
  mapGet m k = None -> mapSet m k v = m ++ [(k, v)].
Proof.
  induction m as [|[k' v'] m IH]; [reflexivity|]. cbn.
  destruct (String.eqb k' k); [discriminate|].
  intros H. rewrite (IH H). reflexivity.
Qed.

Lemma mapGet_In (m : SessionMap) (k : string) (v : BrowserSession) :
  List.NoDup (mapKeys m) -> In (k, v) m -> mapGet m k = Some v.
Proof.
  induction m as [|[k' v'] m IH]; [intros _ []|].
  cbn. intros Hnd Hin. apply List.NoDup_cons_iff in Hnd as [Hnotin Hnd].
  destruct Hin as [E | Hin].
  - injection E as -> ->. rewrite String.eqb_refl. reflexivity.
  - destruct (String.eqb_spec k' k) as [->|Hne]; [|exact (IH Hnd Hin)].
    exfalso. apply Hnotin. apply (in_map fst) in Hin. exact Hin.
Qed.

Lemma mapDelete_absent (m : SessionMap) (k : string) :
  ~ In k (mapKeys m) -> mapDelete m k = m.
Proof.
  induction m as [|[k0 v0] m IH]; [reflexivity|].
  unfold mapDelete, mapKeys in *. cbn [List.filter fst map]. intros Hn.
  destruct (String.eqb_spec k0 k) as [->|Hne]; cbn [negb].
  - exfalso. apply Hn. left. reflexivity.
  - rewrite IH; [reflexivity|]. intros H. apply Hn. right. exact H.
Qed.


(** *** The oldest session *)




(** *** Creation *)



Lemma switchMode_keeps (mgr : SessionManager) (w : PoolWorld)
    (overrideHeadless : option bool) :
  keepsMode mgr w overrideHeadless ->
  switchMode mgr w overrideHeadless = (mgr, []).
Proof.
  unfold keepsMode, switchMode. destruct overrideHeadless; [|reflexivity].
  intros ->. reflexivity.
Qed.

(** *** Eviction *)




(** *** Registration *)

Lemma cleanupOldestSession_absent (mgr : SessionManager) (w : PoolWorld)
    (id : string) :
  mapGet (sessions mgr) id = None ->
  mapGet (sessions (snd (fst (cleanupOldestSession mgr w)))) id = None.
Proof.
  intros H. unfold cleanupOldestSession.
  destruct (mapSize (sessions mgr) =? 0); [exact H|].
  destruct (findOldest _ None None) as [oldestId|]; [|exact H].
  destruct (negb (truthy oldestId)); [exact H|].
  destruct (mapGet (sessions mgr) oldestId); [|exact H].
  cbn. apply mapGet_None_mapDelete. exact H.
Qed.

Lemma createSession_inFlight (mgr : SessionManager) (w : PoolWorld)
    (id url : string) (evs : list Event) (m : SessionManager) :
  mapGet (sessions mgr) id = None ->
  let r := createSession mgr w id url evs in
  inFlight r = Some m ->
  mapGet (sessions m) id = None
  /\ match returned r with
     | Resolved session =>
         sessions (manager r) = sessions m ++ [(id, session)]
         /\ exists pre, trace r = pre ++ [InitAwaited id; Registered id]
     | Rejected _ =>
         sessions (manager r) = sessions m
         /\ exists pre, trace r = pre ++ [InitAwaited id]
     end.
Proof.
  intros Hfresh r. subst r. unfold createSession.
  destruct (contextMode w) as [mode|e]; [|discriminate].
  destruct (init (new id url (newNow w)) (sessionInit w)) as [[[]|e] s1];
    cbn; intros E; injection E as <-; cbn; (split; [exact Hfresh|]).
  - split; [apply mapSet_fresh; exact Hfresh|].
    exists (evs ++ [ContextAcquired; Constructed id]).
    rewrite <- !app_assoc. reflexivity.
  - split; [reflexivity|].
    exists (evs ++ [ContextAcquired; Constructed id]).
    rewrite <- !app_assoc. reflexivity.
Qed.

Lemma freeUpAndCreate_inFlight (mgr : SessionManager) (w : PoolWorld)
    (id url : string) (evs : list Event) (m : SessionManager) :
  mapGet (sessions mgr) id = None ->
  let r := freeUpAndCreate mgr w id url evs in
  inFlight r = Some m ->
  mapGet (sessions m) id = None
  /\ match returned r with
     | Resolved session =>
         sessions (manager r) = sessions m ++ [(id, session)]
         /\ exists pre, trace r = pre ++ [InitAwaited id; Registered id]
     | Rejected _ =>
         sessions (manager r) = sessions m
         /\ exists pre, trace r = pre ++ [InitAwaited id]
     end.
Proof.
  intros Hfresh r. subst r. unfold freeUpAndCreate.
  destruct (maxSessions mgr <=? mapSize (sessions mgr));
    [|apply createSession_inFlight; exact Hfresh].
  pose proof (cleanupOldestSession_absent mgr w id Hfresh) as Habs.
  destruct (cleanupOldestSession mgr w) as [[[] mgr1] evs1]; cbn in Habs.
  - apply createSession_inFlight. exact Habs.
  - discriminate.
Qed.

(** C5 (as amended).  While [init()] of a newly created session is
    awaited the session is not in the pool's map, so it is not counted;
    it is registered after [init()] has resolved, as the last step of the
    call, and it is never registered when [init()] rejects. *)
Theorem getOrCreateSession_registers_after_init
    (mgr : SessionManager) (w : PoolWorld)
    (sessionId notebookUrl : option string) (overrideHeadless : option bool)
    (m : SessionManager) :
  let id := sessionIdOf w sessionId in
  let r := getOrCreateSession mgr w sessionId notebookUrl overrideHeadless in
  inFlight r = Some m ->
  mapGet (sessions m) id = None
  /\ match returned r with
     | Resolved session =>
         sessions (manager r) = sessions m ++ [(id, session)]
         /\ exists pre, trace r = pre ++ [InitAwaited id; Registered id]
     | Rejected _ =>
         sessions (manager r) = sessions m
         /\ exists pre, trace r = pre ++ [InitAwaited id]
     end.
Proof.
  intros id r. subst r. unfold getOrCreateSession. fold id.
  destruct (negb (truthy _)); [discriminate|].
  destruct (negb (startsWith _ "http")); [discriminate|].
  destruct (switchMode mgr w overrideHeadless) as [mgr1 evs1].
  destruct (mapGet (sessions mgr1) id) as [session|] eqn:Eget.
  - destruct (negb (String.eqb _ _)); [|discriminate].
    apply freeUpAndCreate_inFlight. cbn. apply mapGet_mapDelete_eq.
  - apply freeUpAndCreate_inFlight. exact Eget.
Qed.

(** A call for C on the empty pool: while C is initialized the pool
    counts no session. *)
Lemma getOrCreateSession_registers_after_init_witness :
  let r := getOrCreateSession emptyPool calmWorld (Some "C") (Some notebookA)
                              None in
  inFlight r = Some emptyPoolInFlight
  /\ mapGet (sessions emptyPoolInFlight) "C" = None
  /\ sessions (manager r) = sessions emptyPoolInFlight ++ [("C", sessionC)].
Proof.
  assert (Hflight :
    inFlight (getOrCreateSession emptyPool calmWorld (Some "C")
                                 (Some notebookA) None)
    = Some emptyPoolInFlight) by (vm_compute; reflexivity).
  split; [exact Hflight|].
  destruct (getOrCreateSession_registers_after_init emptyPool calmWorld
              (Some "C") (Some notebookA) None emptyPoolInFlight Hflight)
    as [Hnone Hret].
  split; [exact Hnone|]. exact (proj1 Hret).
Defined.

(** C5 as stated fails: when [init()] of the new session C is awaited, C
    is not in the map and the pool counts no active session; the
    registration follows the initialization. *)
Lemma getOrCreateSession_unregistered_in_flight :
  let r := getOrCreateSession emptyPool calmWorld (Some "C") (Some notebookA)
                              None in
  inFlight r = Some emptyPoolInFlight
  /\ mapHas (sessions emptyPoolInFlight) "C" = false
  /\ activeSessions emptyPoolInFlight = 0%nat
  /\ trace r = [ContextAcquired; Constructed "C"; InitAwaited "C";
                Registered "C"].
Proof. repeat split; vm_compute; reflexivity. Qed.

(** *** The pool keeps its map well formed *)

Lemma wellFormed_nil : wellFormed [].
Proof. split; [constructor | intros k v []]. Qed.

Lemma mapKeys_mapDelete_in (m : SessionMap) (k k' : string) :
  In k' (mapKeys (mapDelete m k)) -> In k' (mapKeys m).
Proof.
  unfold mapKeys, mapDelete. intros H.
  apply in_map_iff in H as ([k0 v0] & <- & Hin).
  apply filter_In in Hin as [Hin _].
  apply in_map_iff. exists (k0, v0). split; [reflexivity | exact Hin].
Qed.

Lemma wellFormed_mapDelete (m : SessionMap) (k : string) :
  wellFormed m -> wellFormed (mapDelete m k).
Proof.
  intros [Hnd Hkeys]. split.
  - clear Hkeys. induction m as [|[k0 v0] m IH]; [constructor|].
    apply List.NoDup_cons_iff in Hnd as [Hnotin Hnd].
    change (mapDelete ((k0, v0) :: m) k)
      with (if negb (String.eqb k0 k) then (k0, v0) :: mapDelete m k
            else mapDelete m k).
    destruct (negb (String.eqb k0 k)); [|exact (IH Hnd)].
    cbn. constructor; [|exact (IH Hnd)].
    intros H. apply Hnotin. exact (mapKeys_mapDelete_in m k k0 H).
  - intros k' v' Hin. apply filter_In in Hin as [Hin _].
    exact (Hkeys k' v' Hin).
Qed.

Lemma mapGet_None_keys (m : SessionMap) (k : string) :
  mapGet m k = None -> ~ In k (mapKeys m).
Proof.
  induction m as [|[k0 v0] m IH]; [intros _ []|]. cbn.
  destruct (String.eqb_spec k0 k) as [->|Hne]; [discriminate|].
  intros H [E | Hin]; [congruence | exact (IH H Hin)].
Qed.

Lemma wellFormed_mapSet (m : SessionMap) (k : string) (v : BrowserSession) :
  truthy k = true -> wellFormed m -> wellFormed (mapSet m k v).
Proof.
  intros Hk. induction m as [|[k0 v0] m IH]; intros [Hnd Hkeys].
  - split; [repeat constructor; intros [] |].
    intros k' v' [E | []]. injection E as <- <-. exact Hk.
  - cbn [mapSet]. destruct (String.eqb_spec k0 k) as [->|Hne].
    + split; [exact Hnd|]. intros k' v' [E | Hin].
      * injection E as <- <-. exact Hk.
      * apply (Hkeys k' v'). right. exact Hin.
    + apply List.NoDup_cons_iff in Hnd as [Hnotin Hnd].
      destruct IH as [Hnd' Hkeys'].
      { split; [exact Hnd|]. intros k' v' Hin. apply (Hkeys k' v').
        right. exact Hin. }
      split.
      * cbn. constructor; [|exact Hnd'].
        intros H. apply in_map_iff in H as ([k1 v1] & E & Hin).
        cbn in E. subst k1.
        assert (Hcases : forall l : SessionMap,
                 In (k0, v1) (mapSet l k v) -> In k0 (mapKeys l)).
        { induction l as [|[k2 v2] l IHl]; cbn.
          - intros [E | []]. injection E as E _. congruence.
          - destruct (String.eqb_spec k2 k) as [->|Hne2].
            + intros [E | Hin']; [injection E as E _; congruence|].
              right. apply in_map_iff. exists (k0, v1). split; [reflexivity | exact Hin'].
            + intros [E | Hin']; [injection E as -> _; left; reflexivity|].
              right. exact (IHl Hin'). }
        exact (Hnotin (Hcases m Hin)).
      * intros k' v' [E | Hin].
        -- injection E as <- <-. apply (Hkeys k0 v0). left. reflexivity.
        -- exact (Hkeys' k' v' Hin).
Qed.

Lemma wellFormed_closeAllSessions (mgr : SessionManager) (w : PoolWorld) :
  wellFormed (sessions mgr) ->
  wellFormed (sessions (fst (closeAllSessions mgr w))).
Proof.
  intros Hwf. unfold closeAllSessions.
  assert (Hctx : forall m, sessions (closeContext m w) = sessions m).
  { intros m. unfold closeContext. destruct (contextCloses w); reflexivity. }
  destruct (mapSize (sessions (clearInterval mgr)) =? 0).
  { cbn [fst]. rewrite Hctx. exact Hwf. }
  assert (Hfold : forall (keys : list string) (st : SessionManager * list Event),
             wellFormed (sessions (fst st)) ->
             wellFormed (sessions (fst (fold_left
                (fun st id => closeAndDelete w id st) keys st)))).
  { induction keys as [|k keys IH]; intros st Hst; [exact Hst|].
    cbn [fold_left]. apply IH. destruct st as [m evs]. cbn [fst] in *.
    unfold closeAndDelete. destruct (mapGet (sessions m) k); [|exact Hst].
    cbn. apply wellFormed_mapDelete. exact Hst. }
  specialize (Hfold (mapKeys (sessions (clearInterval mgr)))
                    (clearInterval mgr, []) Hwf).
  destruct (fold_left _ _ _) as [mgr1 evs]. cbn [fst] in *.
  rewrite Hctx. exact Hfold.
Qed.

Lemma wellFormed_cleanupOldestSession (mgr : SessionManager) (w : PoolWorld) :
  wellFormed (sessions mgr) ->
  wellFormed (sessions (snd (fst (cleanupOldestSession mgr w)))).
Proof.
  intros Hwf. unfold cleanupOldestSession.
  destruct (mapSize (sessions mgr) =? 0); [exact Hwf|].
  destruct (findOldest _ None None) as [oldestId|]; [|exact Hwf].
  destruct (negb (truthy oldestId)); [exact Hwf|].
  destruct (mapGet (sessions mgr) oldestId); [|exact Hwf].
  cbn. apply wellFormed_mapDelete. exact Hwf.
Qed.

Lemma wellFormed_createSession (mgr : SessionManager) (w : PoolWorld)
    (id url : string) (evs : list Event) :
  truthy id = true -> wellFormed (sessions mgr) ->
  wellFormed (sessions (manager (createSession mgr w id url evs))).
Proof.
  intros Hid Hwf. unfold createSession.
  destruct (contextMode w) as [mode|e]; [|exact Hwf].
  destruct (init _ (sessionInit w)) as [[[]|e] s1]; [|exact Hwf].
  cbn. apply wellFormed_mapSet; assumption.
Qed.

Lemma wellFormed_freeUpAndCreate (mgr : SessionManager) (w : PoolWorld)
    (id url : string) (evs : list Event) :
  truthy id = true -> wellFormed (sessions mgr) ->
  wellFormed (sessions (manager (freeUpAndCreate mgr w id url evs))).
Proof.
  intros Hid Hwf. unfold freeUpAndCreate.
  destruct (maxSessions mgr <=? mapSize (sessions mgr));
    [|apply wellFormed_createSession; assumption].
  pose proof (wellFormed_cleanupOldestSession mgr w Hwf) as Hc.
  destruct (cleanupOldestSession mgr w) as [[[] mgr1] evs1]; cbn in Hc.
  - apply wellFormed_createSession; assumption.
  - exact Hc.
Qed.

Lemma sessionIdOf_truthy (w : PoolWorld) (sessionId : option string) :
  truthy (generatedId w) = true -> truthy (sessionIdOf w sessionId) = true.
Proof.
  intros Hg. unfold sessionIdOf, orElse. destruct sessionId as [s|]; [|exact Hg].
  destruct (truthy s) eqn:E; [exact E | exact Hg].
Qed.

(** Every call of [getOrCreateSession] and of [closeSession] leaves the
    keys of the map distinct and not empty, as they are in the empty map
    of a new manager. *)
Lemma wellFormed_getOrCreateSession (mgr : SessionManager) (w : PoolWorld)
    (sessionId notebookUrl : option string) (overrideHeadless : option bool) :
  truthy (generatedId w) = true ->
  wellFormed (sessions mgr) ->
  wellFormed (sessions (manager (getOrCreateSession mgr w sessionId
                                   notebookUrl overrideHeadless))).
Proof.
  intros Hg Hwf. unfold getOrCreateSession.
  destruct (negb (truthy _)); [exact Hwf|].
  destruct (negb (startsWith _ "http")); [exact Hwf|].
  pose proof (sessionIdOf_truthy w sessionId Hg) as Hid.
  assert (Hwf1 : wellFormed (sessions (fst (switchMode mgr w overrideHeadless)))).
  { unfold switchMode. destruct overrideHeadless; [|exact Hwf].
    destruct (needsHeadlessModeChange _ _ _); [|exact Hwf].
    apply wellFormed_closeAllSessions. exact Hwf. }
  destruct (switchMode mgr w overrideHeadless) as [mgr1 evs1]. cbn [fst] in Hwf1.
  destruct (mapGet (sessions mgr1) (sessionIdOf w sessionId)) as [session|].
  - destruct (negb (String.eqb _ _)).
    + apply wellFormed_freeUpAndCreate; [exact Hid|].
      cbn. apply wellFormed_mapDelete. exact Hwf1.
    + cbn. apply wellFormed_mapSet; assumption.
  - apply wellFormed_freeUpAndCreate; assumption.
Qed.

Lemma wellFormed_closeSession (mgr : SessionManager) (w : PoolWorld)
    (sessionId : string) :
  wellFormed (sessions mgr) ->
  wellFormed (sessions (snd (fst (closeSession mgr w sessionId)))).
Proof.
  intros Hwf. unfold closeSession.
  destruct (negb (mapHas (sessions mgr) sessionId)); [exact Hwf|].
  destruct (mapGet (sessions mgr) sessionId); [|exact Hwf].
  cbn. apply wellFormed_mapDelete. exact Hwf.
Qed.

(** *** Closing a session *)

(** C10.  [closeSession] returns [true] exactly when the id is in the
    pool.  Then that session is closed and deleted, and the entries of all
    other ids are as they were; otherwise the pool is unchanged and
    nothing is closed. *)
Theorem closeSession_present_iff (mgr : SessionManager) (w : PoolWorld)
    (sessionId : string) :
  match closeSession mgr w sessionId with
  | (true, mgr', evs) =>
      exists session,
        mapGet (sessions mgr) sessionId = Some session
        /\ evs = [Closed sessionId (close session (pageClose w sessionId));
                  Deleted sessionId]
        /\ initialized (close session (pageClose w sessionId)) = false
        /\ mgr' = setSessions mgr (mapDelete (sessions mgr) sessionId)
        /\ mapGet (sessions mgr') sessionId = None
        /\ forall other, other <> sessionId ->
             mapGet (sessions mgr') other = mapGet (sessions mgr) other
  | (false, mgr', evs) =>
      mapGet (sessions mgr) sessionId = None /\ mgr' = mgr /\ evs = []
  end.
Proof.
  unfold closeSession.
  destruct (mapHas (sessions mgr) sessionId) eqn:Ehas; cbn [negb].
  - apply mapHas_mapGet in Ehas as [session Hget]. rewrite Hget.
    exists session. split; [reflexivity|]. split; [reflexivity|].
    split; [reflexivity|]. split; [reflexivity|].
    split; [apply mapGet_mapDelete_eq|].
    intros other Hne. apply mapGet_mapDelete_ne. exact Hne.
  - split; [|split; reflexivity].
    destruct (mapGet (sessions mgr) sessionId) as [session|] eqn:Hget;
      [|reflexivity].
    assert (H : mapHas (sessions mgr) sessionId = true)
      by (apply mapHas_mapGet; eauto).
    congruence.
Qed.

End Pool.

(* ===================================================================== *)
(** ** More on page-utils.ts                                               *)
(* ===================================================================== *)

Module PageFacts.
Import PageUtils Vocabulary.
Local Open Scope list_scope.

(** *** [hashString] *)

Lemma toInt32_range (z : Z) : - 2 ^ 31 <= toInt32 z < 2 ^ 31.
Proof.
  unfold toInt32.
  pose proof (Z.mod_pos_bound (z + 2 ^ 31) (2 ^ 32) ltac:(lia)). lia.
Qed.

Lemma toInt32_shift (z k : Z) : toInt32 (z + 2 ^ 32 * k) = toInt32 z.
Proof.
  unfold toInt32.
  replace (z + 2 ^ 32 * k + 2 ^ 31) with (z + 2 ^ 31 + k * 2 ^ 32) by lia.
  rewrite Z_mod_plus_full. reflexivity.
Qed.

Lemma toInt32_wraps (z : Z) : exists k, toInt32 z = z + 2 ^ 32 * k.
Proof.
  unfold toInt32. exists (- ((z + 2 ^ 31) / 2 ^ 32)).
  pose proof (Z.div_mod (z + 2 ^ 31) (2 ^ 32) ltac:(lia)). lia.
Qed.

Lemma band_diag (z : Z) : band z z = toInt32 z.
Proof. unfold band. apply Z.land_diag. Qed.

Lemma hashFrom_polynomial (str : string) :
  forall h, hashFrom (toInt32 h) str = toInt32 (polynomialHash h str).
Proof.
  induction str as [|c r IH]; intros h; [reflexivity|].
  cbn [hashFrom polynomialHash]. rewrite band_diag, <- IH. f_equal.
  unfold shl. rewrite Z.shiftl_mul_pow2 by lia.
  destruct (toInt32_wraps h) as [k0 E0].
  destruct (toInt32_wraps (toInt32 h)) as [k1 E1].
  destruct (toInt32_wraps (toInt32 (toInt32 h) * 2 ^ 5)) as [k2 E2].
  rewrite E2, E1, E0.
  replace ((h + 2 ^ 32 * k0 + 2 ^ 32 * k1) * 2 ^ 5 + 2 ^ 32 * k2
           - (h + 2 ^ 32 * k0) + charCode c)
    with (31 * h + charCode c + 2 ^ 32 * (32 * k0 + 32 * k1 + k2 - k0))
    by lia.
  apply toInt32_shift.
Qed.

(** X1.  [hashString] is the hash [31 * hash + code] over the character
    codes, wrapped to a signed 32-bit integer; so it lies between -2^31
    and 2^31 - 1. *)
Theorem hashString_polynomial (str : string) :
  hashString str = toInt32 (polynomialHash 0 str)
  /\ - 2 ^ 31 <= hashString str < 2 ^ 31.
Proof.
  assert (E : hashString str = toInt32 (polynomialHash 0 str)).
  { unfold hashString. change 0 with (toInt32 0) at 1.
    apply hashFrom_polynomial. }
  split; [exact E|]. rewrite E. apply toInt32_range.
Qed.

(** *** Trimming *)

Lemma trimEnd_cons (c : ascii) (r : string) :
  trimEnd (String c r)
  = match trimEnd r with
    | EmptyString =>
        if isWhiteSpace c then EmptyString else String c EmptyString
    | String _ _ as r' => String c r'
    end.
Proof. reflexivity. Qed.

Lemma trimEnd_idempotent (s : string) : trimEnd (trimEnd s) = trimEnd s.
Proof.
  induction s as [|c r IH]; [reflexivity|]. rewrite trimEnd_cons.
  destruct (trimEnd r) as [|a b] eqn:Er.
  - destruct (isWhiteSpace c) eqn:Ec; [reflexivity|].
    rewrite trimEnd_cons. cbn [trimEnd]. rewrite Ec. reflexivity.
  - rewrite trimEnd_cons, IH. reflexivity.
Qed.

Lemma trimStart_head (s : string) :
  match trimStart s with
  | EmptyString => True
  | String c _ => isWhiteSpace c = false
  end.
Proof.
  induction s as [|c r IH]; [exact I|]. cbn [trimStart].
  destruct (isWhiteSpace c) eqn:Ec; [exact IH | exact Ec].
Qed.

Lemma trimEnd_head (s : string) :
  match s with
  | EmptyString => True
  | String c _ => isWhiteSpace c = false
  end ->
  trimStart (trimEnd s) = trimEnd s.
Proof.
  destruct s as [|c r]; [reflexivity|]. intros Ec. rewrite trimEnd_cons.
  destruct (trimEnd r); rewrite ?Ec; cbn [trimStart]; rewrite Ec; reflexivity.
Qed.

Lemma trim_idempotent (s : string) : trim (trim s) = trim s.
Proof.
  unfold trim. rewrite (trimEnd_head _ (trimStart_head s)).
  apply trimEnd_idempotent.
Qed.

(** *** What [waitForLatestAnswer] returns *)

Lemma tick_return (q : string) (page : Page) (st : LoopState) (y : string) :
  tick q page st = Return y ->
  exists candidate,
    extractLatestText page (knownHashes st) = Some candidate
    /\ y = trim candidate /\ truthy y = true
    /\ String.eqb (toLowerCase y) q = false.
Proof.
  assert (H : extractStep q page st = Return y ->
              exists candidate,
                extractLatestText page (knownHashes st) = Some candidate
                /\ y = trim candidate /\ truthy y = true
                /\ String.eqb (toLowerCase y) q = false).
  { unfold extractStep, sleepThen.
    destruct (extractLatestText page (knownHashes st)) as [cand|];
      [|destruct (waitForTimeout page); discriminate].
    destruct (truthy cand); [|destruct (waitForTimeout page); discriminate].
    destruct (truthy (trim cand)) eqn:Et;
      [|destruct (waitForTimeout page); discriminate].
    destruct (String.eqb (toLowerCase (trim cand)) q) eqn:Eq;
      [destruct (waitForTimeout page); discriminate|].
    destruct (requiredStablePolls <=? _)%nat;
      [|destruct (waitForTimeout page); discriminate].
    intros E. injection E as <-. exists cand. repeat split; assumption. }
  unfold tick. destruct (thinkingVisible page); [|exact H].
  destruct (waitForTimeout page); [discriminate | exact H].
Qed.

Lemma tick_throw (q : string) (page : Page) (st : LoopState) (e : JsError) :
  tick q page st = Throw e -> waitForTimeout page = Rejected e.
Proof.
  unfold tick, extractStep, sleepThen.
  destruct (waitForTimeout page) as [[]|e'] eqn:Ew.
  - destruct (thinkingVisible page); [discriminate|].
    repeat (match goal with
            | |- context [match ?x with _ => _ end] => destruct x
            end; try discriminate).
  - assert (H : forall t, t = Throw e -> (t = Throw e' \/ exists y, t = Return y)
                -> Rejected e' = @Rejected unit e).
    { intros t -> [E | [y E]]; [injection E as ->; reflexivity | discriminate]. }
    intros E. apply (H _ E). clear E H.
    destruct (thinkingVisible page);
      repeat (match goal with
              | |- context [match ?x with _ => _ end] => destruct x
              end); eauto.
Qed.

(** The known hashes only grow. *)
Lemma tick_known (q : string) (page : Page) (st st' : LoopState) :
  tick q page st = Continue st' -> knownHashes st ⊆ knownHashes st'.
Proof.
  unfold tick, extractStep, sleepThen.
  destruct (waitForTimeout page) as [[]|e'].
  - destruct (thinkingVisible page); [intros E; injection E as <-; done|].
    repeat (match goal with
            | |- context [match ?x with _ => _ end] => destruct x
            end; try discriminate);
      intros E; injection E as <-; cbn; set_solver.
  - destruct (thinkingVisible page);
      repeat (match goal with
              | |- context [match ?x with _ => _ end] => destruct x
              end; try discriminate).
Qed.

Lemma answer_shape (question : string)
    (ignoreTexts : list string) (pages : list Page) (c : string) (n : nat) :
  waitForLatestAnswer question ignoreTexts pages
    = mkWaitResult (Resolved (Some c)) n ->
  truthy c = true
  /\ trim c = c
  /\ toLowerCase c <> toLowerCase (trim question).
Proof.
  unfold waitForLatestAnswer.
  generalize (mkLoopState (ignoreHashes ignoreTexts ∅) None 0) as st.
  generalize 0%nat as pc.
  induction pages as [|page rest IH]; intros pc st Hrun; [discriminate|].
  cbn [pollLoop] in Hrun.
  destruct (tick _ page st) as [st' | y | e] eqn:Et.
  - exact (IH _ _ Hrun).
  - injection Hrun as -> _.
    apply tick_return in Et as (cand & _ & -> & Htruthy & Hne).
    split; [exact Htruthy|]. split; [apply trim_idempotent|].
    apply String.eqb_neq. exact Hne.
  - discriminate.
Qed.

(** X2.  An answer returned by [waitForLatestAnswer] is not empty, has no
    white space at its ends, and is not the question, whatever the case of
    letters. *)
Theorem waitForLatestAnswer_never_echo (question : string)
    (ignoreTexts : list string) (pages : list Page) (c : string) (n : nat) :
  waitForLatestAnswer question ignoreTexts pages
    = mkWaitResult (Resolved (Some c)) n ->
  truthy c = true
  /\ trim c = c
  /\ toLowerCase c <> toLowerCase (trim question).
Proof. apply answer_shape. Qed.

(** The answer of the example polls is Hello world, which is not the
    empty question. *)
Lemma waitForLatestAnswer_never_echo_witness :
  truthy "Hello world" = true
  /\ trim "Hello world" = "Hello world"
  /\ toLowerCase "Hello world" <> toLowerCase (trim "").
Proof.
  apply (waitForLatestAnswer_never_echo "" [] helloPolls "Hello world" 5).
  vm_compute. reflexivity.
Defined.

Lemma pollLoop_gives_up (q : string) (pages : list Page) :
  forall (st : LoopState) (pc : nat) (h : list string) (n : nat),
    agrees h st ->
    pollLoop q pages st pc = mkWaitResult (Resolved None) n ->
    n = (pc + length pages)%nat
    /\ length (observations q pages st) = length pages
    /\ ~ threeInARow (h ++ candidates (observations q pages st)).
Proof.
  induction pages as [|page rest IH]; intros st pc h n Hag Hrun.
  - injection Hrun as <-. cbn. rewrite app_nil_r.
    split; [lia|]. split; [reflexivity | exact (proj1 Hag)].
  - cbn [pollLoop observations] in *.
    pose proof (CompletionDetection.tick_observe q page st h Hag) as Ht.
    destruct (tick q page st) as [st' | y | e]; try discriminate.
    destruct (observe q page st) as [|x].
    + destruct (IH st' (S pc) h n Ht Hrun) as (Hn & Hl & Hno).
      cbn [length candidates]. split; [lia|]. split; [lia | exact Hno].
    + destruct (IH st' (S pc) (h ++ [x]) n Ht Hrun) as (Hn & Hl & Hno).
      cbn [length candidates]. split; [lia|]. split; [lia|].
      rewrite <- app_assoc in Hno. exact Hno.
Qed.

(** X3.  [waitForLatestAnswer] returns [null] only after the last poll
    before the deadline, and only if no candidate was observed three times
    in a row. *)
Theorem waitForLatestAnswer_null_at_deadline (question : string)
    (ignoreTexts : list string) (pages : list Page) (n : nat) :
  waitForLatestAnswer question ignoreTexts pages
    = mkWaitResult (Resolved None) n ->
  n = length pages
  /\ length (pollObservations question ignoreTexts pages) = length pages
  /\ ~ threeInARow (candidates (pollObservations question ignoreTexts pages)).
Proof.
  intros Hrun. unfold waitForLatestAnswer in Hrun.
  exact (pollLoop_gives_up _ _ _ _ [] n
           (CompletionDetection.agrees_start _) Hrun).
Qed.

(** On the polls Hel, Hello, Hello world the deadline passes without a
    stable answer. *)
Lemma waitForLatestAnswer_null_at_deadline_witness :
  3%nat = length (firstn 3 helloPolls)
  /\ ~ threeInARow
         (candidates (pollObservations "" [] (firstn 3 helloPolls))).
Proof.
  destruct (waitForLatestAnswer_null_at_deadline "" [] (firstn 3 helloPolls) 3
              ltac:(vm_compute; reflexivity)) as (Hn & _ & Hno).
  split; assumption.
Defined.

Lemma rejection_is_sleep (question : string)
    (ignoreTexts : list string) (pages : list Page) (e : JsError) (n : nat) :
  waitForLatestAnswer question ignoreTexts pages
    = mkWaitResult (Rejected e) n ->
  exists page, nth_error pages (pred n) = Some page
               /\ (1 <= n)%nat
               /\ waitForTimeout page = Rejected e.
Proof.
  unfold waitForLatestAnswer.
  generalize (mkLoopState (ignoreHashes ignoreTexts ∅) None 0) as st.
  assert (H : forall st pc,
    pollLoop (toLowerCase (trim question)) pages st pc
      = mkWaitResult (Rejected e) n ->
    exists page, nth_error pages (pred n - pc) = Some page
                 /\ (pc + 1 <= n)%nat
                 /\ waitForTimeout page = Rejected e).
  { induction pages as [|page rest IH]; intros st pc Hrun; [discriminate|].
    cbn [pollLoop] in Hrun.
    destruct (tick _ page st) as [st' | y | e'] eqn:Et; try discriminate.
    - destruct (IH _ _ Hrun) as (p & Hnth & Hle & Hw).
      exists p. split; [|split; [lia | exact Hw]].
      replace (pred n - pc)%nat with (S (pred n - S pc))%nat by lia.
      exact Hnth.
    - injection Hrun as -> <-. exists page.
      replace (pred (S pc) - pc)%nat with 0%nat by lia.
      split; [reflexivity|]. split; [lia|].
      exact (tick_throw _ _ _ _ Et). }
  intros st Hrun. destruct (H st 0%nat Hrun) as (p & Hnth & Hle & Hw).
  exists p. rewrite Nat.sub_0_r in Hnth. split; [exact Hnth|].
  split; [lia | exact Hw].
Qed.

(** X4.  The only rejection that leaves [waitForLatestAnswer] is the one
    of [page.waitForTimeout] at the poll where it stops. *)
Theorem waitForLatestAnswer_rejects_with_sleep (question : string)
    (ignoreTexts : list string) (pages : list Page) (e : JsError) (n : nat) :
  waitForLatestAnswer question ignoreTexts pages
    = mkWaitResult (Rejected e) n ->
  exists page, nth_error pages (pred n) = Some page
               /\ (1 <= n)%nat
               /\ waitForTimeout page = Rejected e.
Proof. apply rejection_is_sleep. Qed.

(** A page whose sleep is rejected because the tab is gone. *)
Lemma waitForLatestAnswer_rejects_with_sleep_witness :
  exists page, nth_error [closingPage] 0 = Some page
               /\ waitForTimeout page = Rejected closedError.
Proof.
  destruct (waitForLatestAnswer_rejects_with_sleep "q" [] [closingPage]
              closedError 1 ltac:(vm_compute; reflexivity))
    as (page & Hnth & _ & Hw).
  exists page. split; assumption.
Defined.

(** *** Texts that are already known *)

Lemma scanContainers_some (known : gset Z) (containers : list Container)
    (t : string) :
  scanContainers known containers = Some t ->
  (exists text, t = trim text) /\ truthy t = true /\ hashString t ∉ known.
Proof.
  induction containers as [|c rest IH]; [discriminate|].
  cbn [scanContainers].
  destruct (messageTextContent c) as [[[text|e]|]|e]; try exact IH.
  destruct (truthy (trim text)) eqn:Et; [|exact IH].
  unfold PageUtils.known. destruct (bool_decide _) eqn:Ek; cbn [negb]; [exact IH|].
  intros E. injection E as <-. split; [eauto|]. split; [exact Et|].
  apply bool_decide_eq_false in Ek. exact Ek.
Qed.

Lemma ignoreHashes_grows (texts : list string) :
  forall k, k ⊆ ignoreHashes texts k.
Proof.
  induction texts as [|t rest IH]; intros k; [done|]. cbn [ignoreHashes].
  destruct (truthy (trim t)); [|apply IH].
  etransitivity; [|apply IH]. set_solver.
Qed.

Lemma ignoreHashes_in (texts : list string) (t : string) :
  forall k, In t texts -> truthy (trim t) = true ->
            hashString (trim t) ∈ ignoreHashes texts k.
Proof.
  induction texts as [|t0 rest IH]; intros k Hin Ht; [destruct Hin|].
  cbn [ignoreHashes]. destruct Hin as [-> | Hin].
  - rewrite Ht. apply (ignoreHashes_grows rest). set_solver.
  - destruct (truthy (trim t0)); apply IH; assumption.
Qed.

(** X5.  When the primary query of every polled page resolves, the answer
    that [waitForLatestAnswer] returns has a hash that is not among the
    hashes of the texts to ignore; so it is none of these texts, trimmed. *)
Theorem waitForLatestAnswer_not_ignored (question : string)
    (ignoreTexts : list string) (pages : list Page) (c : string) (n : nat) :
  primaryResolves pages ->
  waitForLatestAnswer question ignoreTexts pages
    = mkWaitResult (Resolved (Some c)) n ->
  (hashString c ∉ ignoreHashes ignoreTexts ∅)
  /\ forall t, In t ignoreTexts -> trim t <> c.
Proof.
  intros Hprim Hrun.
  assert (Hhash : hashString c ∉ ignoreHashes ignoreTexts ∅).
  { revert Hrun. unfold waitForLatestAnswer.
    assert (H : forall st pc,
      ignoreHashes ignoreTexts ∅ ⊆ knownHashes st ->
      pollLoop (toLowerCase (trim question)) pages st pc
        = mkWaitResult (Resolved (Some c)) n ->
      hashString c ∉ ignoreHashes ignoreTexts ∅).
    { induction pages as [|page rest IH]; intros st pc Hsub Hrun;
        [discriminate|].
      cbn [pollLoop] in Hrun.
      destruct (tick _ page st) as [st' | y | e] eqn:Et; try discriminate.
      - apply (IH (fun p Hp => Hprim p (or_intror Hp)) st' (S pc)); [|exact Hrun].
        etransitivity; [exact Hsub | exact (tick_known _ _ _ _ Et)].
      - injection Hrun as -> _.
        apply tick_return in Et as (cand & Hext & -> & _ & _).
        destruct (Hprim page (or_introl eq_refl)) as [cs Hcs].
        unfold extractLatestText in Hext. rewrite Hcs in Hext.
        destruct (length cs <=? size (knownHashes st))%nat eqn:Eg;
          [discriminate|].
        apply Nat.leb_gt in Eg.
        destruct (0 <? length cs)%nat eqn:Epos.
        + apply scanContainers_some in Hext as ((text & ->) & _ & Hnotin).
          rewrite trim_idempotent. set_solver.
        + apply Nat.ltb_ge in Epos. lia. }
    apply (H _ 0%nat). done. }
  split; [exact Hhash|].
  intros t Hin E. apply Hhash. rewrite <- E.
  apply ignoreHashes_in; [exact Hin|]. rewrite E.
  exact (proj1 (answer_shape _ _ _ _ _ Hrun)).
Qed.

(** An old answer stays on the page while the new one is stable. *)
Lemma waitForLatestAnswer_not_ignored_witness :
  (hashString "new answer" ∉ ignoreHashes ["old answer"] ∅)
  /\ forall t, In t ["old answer"] -> trim t <> "new answer".
Proof.
  apply (waitForLatestAnswer_not_ignored "q" ["old answer"] oldAndNewPolls
           "new answer" 3).
  - intros page Hin. unfold oldAndNewPolls in Hin. cbn in Hin.
    destruct Hin as [<- | [<- | [<- | []]]]; eexists; reflexivity.
  - vm_compute. reflexivity.
Defined.

Lemma containerTexts_trimmed (containers : list Container) (t : string) :
  In t (containerTexts containers) -> trim t = t /\ truthy t = true.
Proof.
  induction containers as [|c rest IH]; [intros []|]. cbn [containerTexts].
  destruct (messageTextContent c) as [[[text|e]|]|e]; try exact IH.
  destruct (truthy (trim text)) eqn:Et; [|exact IH].
  intros [<- | Hin]; [|exact (IH Hin)].
  split; [apply trim_idempotent | exact Et].
Qed.

Lemma scanContainers_all_known (known : gset Z) (containers : list Container) :
  (forall t, In t (containerTexts containers) -> hashString t ∈ known) ->
  scanContainers known containers = None.
Proof.
  induction containers as [|c rest IH]; [reflexivity|].
  cbn [scanContainers containerTexts].
  destruct (messageTextContent c) as [[[text|e]|]|e]; try exact IH.
  destruct (truthy (trim text)); [|exact IH].
  intros H. unfold PageUtils.known.
  rewrite bool_decide_eq_true_2 by (apply H; left; reflexivity).
  cbn [negb]. apply IH. intros t Hin. apply H. right. exact Hin.
Qed.

(** X6.  Checked against the snapshot of its own responses, a page whose
    primary query resolves has no new text: the answers that are visible
    when the snapshot is taken are not extracted again. *)
Theorem extractLatestText_own_snapshot (page : Page)
    (containers : list Container) (known : gset Z) :
  toUserContainers page = Resolved containers ->
  extractLatestText page (ignoreHashes (snapshotAllResponses page) known)
  = None.
Proof.
  intros Hcs. unfold extractLatestText, snapshotAllResponses. rewrite Hcs.
  cbv zeta.
  destruct (length containers <=? _)%nat eqn:Eg; [reflexivity|].
  apply Nat.leb_gt in Eg.
  destruct (0 <? length containers)%nat eqn:Epos.
  - apply scanContainers_all_known. intros t Hin.
    destruct (containerTexts_trimmed _ _ Hin) as [Htrim Htruthy].
    rewrite <- Htrim. apply ignoreHashes_in; [exact Hin|].
    rewrite Htrim. exact Htruthy.
  - apply Nat.ltb_ge in Epos. lia.
Qed.

(** The page with the old and the new answer, against its own
    snapshot. *)
Lemma extractLatestText_own_snapshot_witness :
  snapshotAllResponses (answerPage false ["old answer"; "new answer"])
  = ["old answer"; "new answer"]
  /\ extractLatestText (answerPage false ["old answer"; "new answer"])
       (ignoreHashes
          (snapshotAllResponses (answerPage false ["old answer"; "new answer"]))
          ∅)
     = None.
Proof.
  split; [vm_compute; reflexivity|].
  exact (extractLatestText_own_snapshot
           (answerPage false ["old answer"; "new answer"]) _ ∅ eq_refl).
Defined.

Lemma scanContainers_empty_known (containers : list Container) :
  scanContainers ∅ containers = head (containerTexts containers).
Proof.
  induction containers as [|c rest IH]; [reflexivity|].
  cbn [scanContainers containerTexts].
  destruct (messageTextContent c) as [[[text|e]|]|e]; try exact IH.
  destruct (truthy (trim text)); [reflexivity | exact IH].
Qed.

(** X7.  On a page whose primary query resolves, [snapshotLatestResponse]
    is the first of the texts that [snapshotAllResponses] lists (the first
    in document order, not the last), and [null] when there is none. *)
Theorem snapshotLatestResponse_is_first (page : Page)
    (containers : list Container) :
  toUserContainers page = Resolved containers ->
  snapshotLatestResponse page = head (snapshotAllResponses page).
Proof.
  intros Hcs.
  unfold snapshotLatestResponse, extractLatestText, snapshotAllResponses.
  rewrite Hcs. cbv zeta. rewrite size_empty.
  destruct containers as [|c rest]; [reflexivity|].
  cbn [length Nat.leb Nat.ltb]. apply scanContainers_empty_known.
Qed.

Lemma snapshotLatestResponse_is_first_witness :
  snapshotLatestResponse (answerPage false ["old answer"; "new answer"])
  = Some "old answer".
Proof.
  rewrite (snapshotLatestResponse_is_first
             (answerPage false ["old answer"; "new answer"]) _ eq_refl).
  vm_compute. reflexivity.
Defined.

End PageFacts.

(* ===================================================================== *)
(** ** More on browser-session.ts                                          *)
(* ===================================================================== *)

Module SessionFacts.
Import PageUtils BrowserSession Vocabulary.
Local Open Scope list_scope.

(** *** [close] *)

(** X8.  [close()] marks the session uninitialized and changes nothing
    but the tab: a [page.close()] that resolves releases the tab, one that
    rejects leaves it for a later call; a second [close()] after a
    released tab changes nothing. *)
Theorem close_releases_and_is_idempotent (s : BrowserSession) :
  (forall oc, initialized (close s oc) = false
              /\ messageCount (close s oc) = messageCount s
              /\ sessionId (close s oc) = sessionId s)
  /\ (forall u, page (close s (Resolved u)) = None)
  /\ (forall e, page (close s (Rejected e)) = page s)
  /\ (forall u oc, close (close s (Resolved u)) oc = close s (Resolved u)).
Proof.
  unfold close. split; [|split; [|split]].
  - intros oc. destruct (page s), oc; repeat split; reflexivity.
  - intros u. destruct (page s) eqn:E; cbn; [reflexivity | exact E].
  - intros e. destruct (page s) eqn:E; cbn; [exact E | exact E].
  - intros u oc. destruct (page s) eqn:E; cbn; [reflexivity|].
    rewrite E. reflexivity.
Qed.

(** *** The flag and the tab *)

Lemma init_consistent (s : BrowserSession) (w : InitScript) :
  consistent s -> consistent (snd (init s w)).
Proof.
  unfold consistent, init, initFailed. intros Hs.
  destruct (initialized s) eqn:Ei; [cbn; intros _; exact (Hs eq_refl)|].
  destruct (initBody w); [cbn; discriminate|].
  destruct (initOpened w), (page s), (initPageClose w); cbn;
    rewrite ?Ei; discriminate.
Qed.

Lemma init_resolved_ready (s s1 : BrowserSession) (w : InitScript) (u : unit) :
  consistent s -> init s w = (Resolved u, s1) ->
  initialized s1 = true /\ page s1 <> None.
Proof.
  unfold consistent, init, initFailed. intros Hs.
  destruct (initialized s) eqn:Ei.
  - intros E. injection E as _ <-. split; [exact Ei | exact (Hs eq_refl)].
  - destruct (initBody w).
    + intros E. injection E as _ <-. cbn. split; [reflexivity | discriminate].
    + destruct (initOpened w), (page s), (initPageClose w); discriminate.
Qed.

Lemma askAuthenticated_state (q : string) (s : BrowserSession) (w : AskScript) :
  let r := askAuthenticated q s w in
  initialized (snd r) = initialized s /\ page (snd r) = page s
  /\ match fst r with
     | Resolved _ => page s <> None /\ lastActivity (snd r) = doneNow w
     | Rejected _ => snd r = s
     end.
Proof.
  assert (Hbody : let r := askBody q s w in
    initialized (snd r) = initialized s /\ page (snd r) = page s
    /\ match fst r with
       | Resolved _ => page s <> None /\ lastActivity (snd r) = doneNow w
       | Rejected _ => snd r = s
       end).
  { unfold askBody, findChatInput.
    destruct (page s) eqn:Ep; [|cbn; rewrite Ep; auto].
    destruct (chatInput w); [|cbn; rewrite Ep; auto].
    destruct (typing w); [|cbn; rewrite Ep; auto].
    destruct (pressEnter w); [|cbn; rewrite Ep; auto].
    destruct (answer _) as [[ans|]|err]; try (cbn; rewrite Ep; auto; fail).
    destruct (negb (truthy ans)); [cbn; rewrite Ep; auto|].
    destruct (detectRateLimitError s (errorDom w)); cbn; rewrite ?Ep; auto. }
  unfold askAuthenticated.
  destruct (negb _); [|exact Hbody].
  destruct (ensureAuthenticated s w) as [[]|e]; first [exact Hbody | cbn; auto].
Qed.

Lemma askOnce_state (q : string) (s : BrowserSession) (w : AskScript) :
  consistent s ->
  let r := askOnce q s w in
  consistent (snd r)
  /\ match fst r with
     | Resolved _ =>
         initialized (snd r) = true /\ page (snd r) <> None
         /\ lastActivity (snd r) = doneNow w
     | Rejected _ => True
     end.
Proof.
  intros Hs. unfold askOnce.
  destruct (negb (initialized s) || isNull (page s) || isPageClosedSafe s w)
    eqn:Eneed.
  - pose proof (init_consistent s (initScript w) Hs) as Hc.
    destruct (init s (initScript w)) as [[u|e] s1] eqn:Einit; cbn in Hc.
    + destruct (init_resolved_ready s s1 (initScript w) u Hs Einit)
        as [Hi Hp].
      destruct (askAuthenticated_state q s1 w) as (Ei & Ep & Hres).
      cbv zeta. split.
      * unfold consistent. rewrite Ep. intros _. exact Hp.
      * destruct (fst (askAuthenticated q s1 w)); [|exact I].
        rewrite Ei, Ep. destruct Hres as [_ Hl]. auto.
    + cbn. split; [exact Hc | exact I].
  - apply orb_false_iff in Eneed as [Eneed _].
    apply orb_false_iff in Eneed as [Ei _]. apply negb_false_iff in Ei.
    destruct (askAuthenticated_state q s w) as (Ei' & Ep & Hres).
    cbv zeta. split.
    + unfold consistent. rewrite Ep. intros _. exact (Hs Ei).
    + destruct (fst (askAuthenticated q s w)); [|exact I].
      rewrite Ei', Ep. destruct Hres as [Hp Hl]. auto.
Qed.

Lemma recovery_state_consistent (s : BrowserSession) :
  consistent (setPage (setInitialized s false) None).
Proof. unfold consistent. cbn. discriminate. Qed.

(** X9.  A call of [ask] that returns an answer leaves the session
    initialized, with a tab, and with the time of the answer as its last
    activity; and no call of [ask] leaves a session that is marked
    initialized without a tab. *)
Theorem ask_leaves_session_ready (q : string) (s : BrowserSession)
    (w : AskWorld) :
  consistent s ->
  consistent (session (ask q s w))
  /\ forall a, result (ask q s w) = Resolved a ->
       initialized (session (ask q s w)) = true
       /\ page (session (ask q s w)) <> None
       /\ (lastActivity (session (ask q s w)) = doneNow (first w)
           \/ lastActivity (session (ask q s w)) = doneNow (retry w)).
Proof.
  intros Hs. unfold ask.
  pose proof (askOnce_state q s (first w) Hs) as [Hc1 Hr1]. cbv zeta in *.
  destruct (askOnce q s (first w)) as [[a1|e1] s1]; cbn in Hc1, Hr1.
  - cbn. split; [exact Hc1|]. intros a _.
    destruct Hr1 as (Hi & Hp & Hl). auto.
  - destruct (closedPattern (errorText e1)).
    + set (s2 := setPage (setInitialized s1 false) None).
      pose proof (init_consistent s2 (recoveryInit w)
                    (recovery_state_consistent s1)) as Hc3.
      destruct (init s2 (recoveryInit w)) as [[u|e2] s3]; cbn in Hc3.
      * pose proof (askOnce_state q s3 (retry w) Hc3) as [Hc4 Hr4].
        cbv zeta in *.
        destruct (askOnce q s3 (retry w)) as [[a4|e4] s4]; cbn in *.
        -- split; [exact Hc4|]. intros a _.
           destruct Hr4 as (Hi & Hp & Hl). auto.
        -- split; [exact Hc4 | discriminate].
      * cbn. split; [exact Hc3 | discriminate].
    + cbn. split; [exact Hc1 | discriminate].
Qed.

(** The ready session answers the plain question. *)
Lemma ask_leaves_session_ready_witness :
  consistent readySession
  /\ initialized (session (ask "q" readySession plainAnswerWorld)) = true
  /\ page (session (ask "q" readySession plainAnswerWorld)) <> None.
Proof.
  assert (Hc : consistent readySession) by (intros _; discriminate).
  split; [exact Hc|].
  destruct (proj2 (ask_leaves_session_ready "q" readySession plainAnswerWorld Hc)
              plainAnswer ltac:(vm_compute; reflexivity)) as (Hi & Hp & _).
  split; assumption.
Defined.

(** *** [reset] *)

Lemma init_resolved_initialized (s s1 : BrowserSession) (w : InitScript)
    (u : unit) :
  init s w = (Resolved u, s1) -> initialized s1 = true.
Proof.
  unfold init, initFailed. destruct (initialized s) eqn:Ei.
  - intros E. injection E as _ <-. exact Ei.
  - destruct (initBody w).
    + intros E. injection E as _ <-. reflexivity.
    + destruct (initOpened w), (page s), (initPageClose w); discriminate.
Qed.

Lemma resetBody_state (s : BrowserSession) (w : ResetScript) :
  match fst (resetBody s w) with
  | Resolved _ =>
      messageCount (snd (resetBody s w)) = 0
      /\ lastActivity (snd (resetBody s w)) = resetNow w
      /\ page (snd (resetBody s w)) <> None
      /\ initialized (snd (resetBody s w)) = initialized s
  | Rejected _ => snd (resetBody s w) = s
  end.
Proof.
  unfold resetBody, waitForNotebookLMReady.
  destruct (page s) eqn:Ep; [|reflexivity].
  destruct (reload w); [|reflexivity].
  destruct (probeSelectors _ _); [|reflexivity].
  cbn. rewrite Ep. repeat split. discriminate.
Qed.

Lemma resetOnce_state (s : BrowserSession) (w : ResetScript) :
  match fst (resetOnce s w) with
  | Resolved _ =>
      messageCount (snd (resetOnce s w)) = 0
      /\ lastActivity (snd (resetOnce s w)) = resetNow w
      /\ page (snd (resetOnce s w)) <> None
      /\ initialized (snd (resetOnce s w)) = true
  | Rejected _ => messageCount (snd (resetOnce s w)) = messageCount s
  end.
Proof.
  unfold resetOnce.
  destruct (negb (initialized s) || isNull (page s) || _) eqn:Eneed.
  - pose proof (Asking.init_messageCount s (resetInit w)) as Hm.
    destruct (init s (resetInit w)) as [[u|e] s1] eqn:Einit; cbn in Hm.
    + pose proof (init_resolved_initialized _ _ _ _ Einit) as Hi.
      pose proof (resetBody_state s1 w) as Hb.
      destruct (fst (resetBody s1 w)).
      * destruct Hb as (H0 & Hl & Hp & Hi'). rewrite Hi'. auto.
      * rewrite Hb. exact Hm.
    + exact Hm.
  - apply orb_false_iff in Eneed as [Eneed _].
    apply orb_false_iff in Eneed as [Ei _]. apply negb_false_iff in Ei.
    pose proof (resetBody_state s w) as Hb.
    destruct (fst (resetBody s w)).
    + destruct Hb as (H0 & Hl & Hp & Hi'). rewrite Hi'. auto.
    + rewrite Hb. reflexivity.
Qed.

(** X10.  A call of [reset] that succeeds leaves the message counter at 0
    and the session initialized with a tab; a call that fails leaves the
    counter as it was. *)
Theorem reset_clears_messageCount (s : BrowserSession) (w : ResetWorld) :
  match fst (reset s w) with
  | Resolved _ =>
      messageCount (snd (reset s w)) = 0
      /\ page (snd (reset s w)) <> None
      /\ initialized (snd (reset s w)) = true
  | Rejected _ => messageCount (snd (reset s w)) = messageCount s
  end.
Proof.
  unfold reset.
  pose proof (resetOnce_state s (firstReset w)) as H1.
  destruct (resetOnce s (firstReset w)) as [[u1|e1] s1]; cbn in H1.
  - cbn. destruct H1 as (H0 & _ & Hp & Hi). auto.
  - destruct (closedPattern (errorText e1)); [|exact H1].
    set (s2 := setPage (setInitialized s1 false) None).
    pose proof (Asking.init_messageCount s2 (resetRecoveryInit w)) as H2.
    destruct (init s2 (resetRecoveryInit w)) as [[u|e2] s3]; cbn in H2.
    + pose proof (resetOnce_state s3 (retryReset w)) as H3.
      destruct (fst (resetOnce s3 (retryReset w))).
      * destruct H3 as (H0 & _ & Hp & Hi). auto.
      * rewrite H3, H2. subst s2. cbn. exact H1.
    + cbn. rewrite H2. subst s2. cbn. exact H1.
Qed.

(** *** Recovery is for the driver's errors *)

Lemma own_errors_not_closed :
  closedPattern (errorText (Error_ "Page not initialized")) = false
  /\ closedPattern (errorText (Error_ "Failed to re-authenticate session"))
     = false
  /\ closedPattern (errorText noInputError) = false
  /\ closedPattern (errorText timeoutError) = false
  /\ closedPattern (errorText RateLimitError) = false.
Proof. repeat split; vm_compute; reflexivity. Qed.

Lemma waitForLatestAnswer_resolves (q : string) (ig : list string)
    (pages : list Page) (e : JsError) :
  (forall page, In page pages -> resolves (waitForTimeout page) = true) ->
  answer (waitForLatestAnswer q ig pages) <> Rejected e.
Proof.
  intros Hall E.
  destruct (waitForLatestAnswer q ig pages) as [ans n] eqn:Erun.
  cbn in E. subst ans.
  destruct (PageFacts.rejection_is_sleep _ _ _ _ _ Erun) as (p & Hnth & _ & Hw).
  apply nth_error_In in Hnth. specialize (Hall p Hnth).
  rewrite Hw in Hall. discriminate.
Qed.

Lemma askOnce_own_error (q : string) (s s' : BrowserSession) (w : AskScript)
    (e : JsError) :
  driverResolves w -> askOnce q s w = (Rejected e, s') ->
  closedPattern (errorText e) = false.
Proof.
  intros (Hinit & Hre & Hty & Hpr & Hpolls).
  destruct own_errors_not_closed as (Hpage & Hauth & Hin & Hto & Hrl).
  assert (Hbody : forall s0 s1, askBody q s0 w = (Rejected e, s1) ->
                                closedPattern (errorText e) = false).
  { intros s0 s1. unfold askBody.
    destruct (findChatInput s0 w);
      [|intros E; injection E as <- _; exact Hin].
    destruct (typing w); [|discriminate].
    destruct (pressEnter w); [|discriminate].
    pose proof (waitForLatestAnswer_resolves q
                  (snapshotAllResponses (pageBefore w)) (polls w)) as Hw.
    destruct (answer _) as [[ans|]|err].
    - destruct (negb (truthy ans));
        [intros E; injection E as <- _; exact Hto|].
      destruct (detectRateLimitError s0 (errorDom w)); [|discriminate].
      intros E. injection E as <- _. exact Hrl.
    - intros E. injection E as <- _. exact Hto.
    - exfalso. exact (Hw err Hpolls eq_refl). }
  assert (Hauthd : forall s0 s1, askAuthenticated q s0 w = (Rejected e, s1) ->
                                 closedPattern (errorText e) = false).
  { intros s0 s1. unfold askAuthenticated, ensureAuthenticated.
    destruct (negb _); [|apply Hbody].
    destruct (page s0); [|intros E; injection E as <- _; exact Hpage].
    destruct (reAuth w) as [[]|]; [apply Hbody | | discriminate].
    intros E. injection E as <- _. exact Hauth. }
  unfold askOnce, init.
  destruct (negb (initialized s) || isNull (page s) || isPageClosedSafe s w);
    [|apply Hauthd].
  destruct (initialized s); [apply Hauthd|].
  destruct (initBody (initScript w)); [apply Hauthd | discriminate].
Qed.

(** X11.  When every call of the driver that the first run of [askOnce]
    awaits resolves, [ask] runs [askOnce] once and enters no recovery: the
    errors that [ask] raises itself (no chat input, failed
    re-authentication, timeout, rate limit) are not taken for a closed
    tab. *)
Theorem ask_recovers_only_from_driver_errors (q : string)
    (s : BrowserSession) (w : AskWorld) :
  driverResolves (first w) ->
  events (ask q s w) = [Attempt]
  /\ (result (ask q s w), session (ask q s w)) = askOnce q s (first w).
Proof.
  intros Hd. unfold ask.
  destruct (askOnce q s (first w)) as [[a1|e1] s1] eqn:E1.
  - split; reflexivity.
  - rewrite (askOnce_own_error q s s1 (first w) e1 Hd E1). split; reflexivity.
Qed.

(** A timeout on the ready session: one attempt, no recovery. *)
Lemma ask_recovers_only_from_driver_errors_witness :
  driverResolves (script (Resolved tt) [] quietDom)
  /\ events (ask "q" readySession
               (mkAskWorld (script (Resolved tt) [] quietDom)
                           (mkInitScript (Resolved 2%nat) None (Resolved tt) 10)
                           (script (Resolved tt) [] quietDom)))
     = [Attempt].
Proof.
  assert (Hd : driverResolves (script (Resolved tt) [] quietDom)).
  { repeat split. intros page []. }
  split; [exact Hd|].
  exact (proj1 (ask_recovers_only_from_driver_errors "q" readySession
                  (mkAskWorld (script (Resolved tt) [] quietDom)
                     (mkInitScript (Resolved 2%nat) None (Resolved tt) 10)
                     (script (Resolved tt) [] quietDom)) Hd)).
Defined.

(** *** Rate-limit detection, both ways *)

Lemma anyKeyword_iff (elements : list (outcome string)) :
  anyKeyword elements = true
  <-> exists text, In (Resolved text) elements /\ hasKeyword text = true.
Proof.
  induction elements as [|el rest IH]; cbn [anyKeyword].
  - split; [discriminate | intros (t & [] & _)].
  - destruct el as [t|e].
    + destruct (hasKeyword t) eqn:Ek.
      * split; [intros _; exists t; split; [left; reflexivity | exact Ek]
               | reflexivity].
      * rewrite IH. split.
        -- intros (t' & Hin & Hk). exists t'. split; [right; exact Hin | exact Hk].
        -- intros (t' & [E | Hin] & Hk); [injection E as ->; congruence|].
           exists t'. split; assumption.
    + rewrite IH. split.
      * intros (t' & Hin & Hk). exists t'. split; [right; exact Hin | exact Hk].
      * intros (t' & [E | Hin] & Hk); [discriminate|].
        exists t'. split; assumption.
Qed.

Lemma scanErrorSelectors_iff (dom : ErrorDom) (selectors : list string) :
  scanErrorSelectors dom selectors = true
  <-> exists selector elements,
        In selector selectors
        /\ errorElements dom selector = Resolved elements
        /\ anyKeyword elements = true.
Proof.
  induction selectors as [|sel rest IH]; cbn [scanErrorSelectors].
  - split; [discriminate | intros (x & y & [] & _)].
  - destruct (errorElements dom sel) as [els|e] eqn:Eq.
    + destruct (anyKeyword els) eqn:Ek.
      * split; [|reflexivity]. intros _. exists sel, els.
        split; [left; reflexivity|]. split; assumption.
      * rewrite IH. split.
        -- intros (x & y & Hin & H). exists x, y. split; [right; exact Hin | exact H].
        -- intros (x & y & [<- | Hin] & Hq & Hk).
           ++ rewrite Eq in Hq. injection Hq as <-. congruence.
           ++ exists x, y. repeat split; assumption.
    + rewrite IH. split.
      * intros (x & y & Hin & H). exists x, y. split; [right; exact Hin | exact H].
      * intros (x & y & [<- | Hin] & Hq & Hk).
        -- rewrite Eq in Hq. discriminate.
        -- exists x, y. repeat split; assumption.
Qed.

(** X12.  [detectRateLimitError] is true exactly when the session has a
    tab and an element matched by one of the error selectors, or the
    parent of the disabled chat input, has a text that includes one of the
    rate-limit keywords in any case of letters; elements whose text cannot
    be read are passed over. *)
Theorem detectRateLimitError_iff (s : BrowserSession) (dom : ErrorDom) :
  detectRateLimitError s dom = true
  <-> page s <> None /\ keywordShown dom.
Proof.
  unfold detectRateLimitError, keywordShown.
  destruct (page s) as [tab|]; [|split; [discriminate | intros [H _]; congruence]].
  destruct (scanErrorSelectors dom errorSelectors) eqn:Es.
  - split; [|reflexivity]. intros _. split; [discriminate|]. left.
    apply scanErrorSelectors_iff in Es as (sel & els & Hin & Hq & Hk).
    apply anyKeyword_iff in Hk as (t & Ht & Hk).
    exists sel, els, t. repeat split; assumption.
  - unfold disabledInputCheck. split.
    + intros H. split; [discriminate|]. right.
      destruct (queryBoxInput dom) as [[input|]|]; try discriminate.
      destruct (isDisabled input) as [[]|] eqn:Ed; try discriminate.
      destruct (parentText input) as [[[t|]|]|] eqn:Ep; try discriminate.
      exists input, t. repeat split; assumption.
    + intros [_ [(sel & els & t & Hin & Hq & Ht & Hk)
                | (input & t & Hq & Hd & Hp & Hk)]].
      * assert (scanErrorSelectors dom errorSelectors = true).
        { apply scanErrorSelectors_iff. exists sel, els.
          repeat split; try assumption. apply anyKeyword_iff. eauto. }
        congruence.
      * rewrite Hq, Hd, Hp. exact Hk.
Qed.

End SessionFacts.

(* ===================================================================== *)
(** ** More on session-manager.ts                                          *)
(* ===================================================================== *)

Module PoolFacts.
Import BrowserSession SessionManager Vocabulary.
Local Open Scope list_scope.

(** *** The sweep interval *)

(** X13.  The interval of the periodic sweep lies between 60 and 300
    seconds; from a timeout of 120 seconds on it is at most half the
    timeout, below that it is 60 seconds, more than half the timeout. *)
Theorem cleanupIntervalSeconds_bounds (sessionTimeout : Z) :
  60 <= cleanupIntervalSeconds sessionTimeout <= 300
  /\ (120 <= sessionTimeout ->
      2 * cleanupIntervalSeconds sessionTimeout <= sessionTimeout)
  /\ (sessionTimeout < 120 ->
      cleanupIntervalSeconds sessionTimeout = 60
      /\ sessionTimeout < 2 * cleanupIntervalSeconds sessionTimeout).
Proof.
  unfold cleanupIntervalSeconds.
  pose proof (Z.div_mod sessionTimeout 2 ltac:(lia)).
  pose proof (Z.mod_pos_bound sessionTimeout 2 ltac:(lia)).
  repeat split; lia.
Qed.

(** *** Closing by a list of ids *)

Lemma closeAndDelete_sessions (w : PoolWorld) (id : string)
    (mgr : SessionManager) (evs : list Event) :
  sessions (fst (closeAndDelete w id (mgr, evs)))
  = mapDelete (sessions mgr) id.
Proof.
  unfold closeAndDelete.
  destruct (mapGet (sessions mgr) id) eqn:Eg; [reflexivity|].
  cbn. symmetry. apply Pool.mapDelete_absent.
  apply Pool.mapGet_None_keys. exact Eg.
Qed.

Lemma closeAndDelete_rest (w : PoolWorld) (id : string)
    (mgr : SessionManager) (evs : list Event) :
  let mgr' := fst (closeAndDelete w id (mgr, evs)) in
  maxSessions mgr' = maxSessions mgr
  /\ sessionTimeout mgr' = sessionTimeout mgr
  /\ cleanupInterval mgr' = cleanupInterval mgr
  /\ currentHeadlessMode mgr' = currentHeadlessMode mgr.
Proof.
  unfold closeAndDelete. destruct (mapGet (sessions mgr) id); cbn; auto.
Qed.

Lemma filter_keptBy_mapDelete (m : SessionMap) (id : string)
    (ids : list string) :
  List.filter (keptBy ids) (mapDelete m id)
  = List.filter (keptBy (id :: ids)) m.
Proof.
  unfold mapDelete, keptBy.
  induction m as [|e m IHm]; [reflexivity|].
  cbn [List.filter existsb].
  rewrite (String.eqb_sym (fst e) id).
  destruct (String.eqb id (fst e)); cbn [negb orb List.filter].
  - exact IHm.
  - destruct (negb (existsb (String.eqb (fst e)) ids));
      [f_equal|]; exact IHm.
Qed.

Lemma closeList_sessions (w : PoolWorld) (ids : list string) :
  forall (mgr : SessionManager) (evs : list Event),
    let mgr' := fst (fold_left (fun st id => closeAndDelete w id st) ids
                               (mgr, evs)) in
    sessions mgr' = List.filter (keptBy ids) (sessions mgr)
    /\ maxSessions mgr' = maxSessions mgr
    /\ sessionTimeout mgr' = sessionTimeout mgr
    /\ cleanupInterval mgr' = cleanupInterval mgr
    /\ currentHeadlessMode mgr' = currentHeadlessMode mgr.
Proof.
  induction ids as [|id ids IH]; intros mgr evs.
  - cbn. split; [|auto]. symmetry. apply forallb_filter_id.
    apply forallb_forall. reflexivity.
  - cbn [fold_left].
    pose proof (closeAndDelete_sessions w id mgr evs) as Hs.
    pose proof (closeAndDelete_rest w id mgr evs) as Hr. cbv zeta in Hr.
    destruct (closeAndDelete w id (mgr, evs)) as [mgr1 evs1]. cbn [fst] in *.
    specialize (IH mgr1 evs1). cbv zeta in IH.
    destruct IH as (IHs & IH1 & IH2 & IH3 & IH4).
    destruct Hr as (H1 & H2 & H3 & H4).
    split; [|repeat split; congruence].
    rewrite IHs, Hs. apply filter_keptBy_mapDelete.
Qed.

Lemma closeList_events (w : PoolWorld) (ids : list string) :
  forall (mgr : SessionManager) (evs : list Event),
    let evs' := snd (fold_left (fun st id => closeAndDelete w id st) ids
                               (mgr, evs)) in
    (exists more, evs' = evs ++ more)
    /\ forall k v, In k ids -> mapGet (sessions mgr) k = Some v ->
         exists after, In (Closed k after) evs'.
Proof.
  induction ids as [|id ids IH]; intros mgr evs.
  - cbn. split; [exists []; symmetry; apply app_nil_r | intros k v []].
  - cbn [fold_left].
    pose proof (closeAndDelete_sessions w id mgr evs) as Hs.
    assert (Hev : exists more, snd (closeAndDelete w id (mgr, evs)) = evs ++ more
                  /\ forall v, mapGet (sessions mgr) id = Some v ->
                       exists after, In (Closed id after) more).
    { unfold closeAndDelete. destruct (mapGet (sessions mgr) id) as [v0|].
      - eexists. split; [reflexivity|]. intros v _. eexists. left. reflexivity.
      - exists []. split; [symmetry; apply app_nil_r | discriminate]. }
    destruct (closeAndDelete w id (mgr, evs)) as [mgr1 evs1]. cbn [fst snd] in *.
    destruct Hev as (more1 & -> & Hclosed).
    destruct (IH mgr1 (evs ++ more1)) as [(more & Hmore) Hin]. cbv zeta.
    split.
    + exists (more1 ++ more). rewrite Hmore, app_assoc. reflexivity.
    + intros k v [<- | Hk] Hget.
      * destruct (Hclosed v Hget) as [after Hafter]. exists after.
        rewrite Hmore. apply in_or_app. left. apply in_or_app. right.
        exact Hafter.
      * destruct (String.eqb_spec id k) as [<- | Hne].
        -- destruct (Hclosed v Hget) as [after Hafter]. exists after.
           rewrite Hmore. apply in_or_app. left. apply in_or_app. right.
           exact Hafter.
        -- apply (Hin k v Hk). rewrite Hs.
           rewrite Pool.mapGet_mapDelete_ne by congruence. exact Hget.
Qed.

Lemma filter_keptBy_all (m : SessionMap) :
  List.filter (keptBy (mapKeys m)) m = [].
Proof.
  assert (H : forall l, incl l m -> List.filter (keptBy (mapKeys m)) l = []).
  { induction l as [|e l IHl]; intros Hincl; [reflexivity|].
    cbn [List.filter]. unfold keptBy at 1.
    assert (He : existsb (String.eqb (fst e)) (mapKeys m) = true).
    { apply existsb_exists. exists (fst e). split; [|apply String.eqb_refl].
      apply in_map. apply Hincl. left. reflexivity. }
    rewrite He. cbn [negb]. apply IHl.
    intros x Hx. apply Hincl. right. exact Hx. }
  apply H. apply incl_refl.
Qed.

Lemma mapKeys_mapGet (m : SessionMap) (k : string) :
  In k (mapKeys m) -> exists v, mapGet m k = Some v.
Proof.
  intros Hin. destruct (mapGet m k) eqn:E; [eauto|].
  exfalso. exact (Pool.mapGet_None_keys m k E Hin).
Qed.

Lemma closeAllSessions_state (mgr : SessionManager) (w : PoolWorld) :
  let mgr' := fst (closeAllSessions mgr w) in
  let evs := snd (closeAllSessions mgr w) in
  sessions mgr' = []
  /\ cleanupInterval mgr' = false
  /\ maxSessions mgr' = maxSessions mgr
  /\ (forall k, In k (mapKeys (sessions mgr)) ->
        exists after, In (Closed k after) evs)
  /\ last evs = Some ContextClosed.
Proof.
  unfold closeAllSessions.
  assert (Hctx : forall m, sessions (closeContext m w) = sessions m
                           /\ cleanupInterval (closeContext m w) = cleanupInterval m
                           /\ maxSessions (closeContext m w) = maxSessions m).
  { intros m. unfold closeContext. destruct (contextCloses w); auto. }
  destruct (mapSize (sessions (clearInterval mgr)) =? 0) eqn:Esize.
  - apply Z.eqb_eq in Esize. unfold mapSize in Esize. cbn in Esize.
    destruct (sessions mgr) as [|e m] eqn:Es; [|cbn in Esize; lia].
    cbn [fst snd]. destruct (Hctx (clearInterval mgr)) as (H1 & H2 & H3).
    rewrite H1, H2, H3. cbn. rewrite Es.
    repeat split. intros k [].
  - pose proof (closeList_sessions w (mapKeys (sessions (clearInterval mgr)))
                  (clearInterval mgr) []) as Hs.
    pose proof (closeList_events w (mapKeys (sessions (clearInterval mgr)))
                  (clearInterval mgr) []) as He.
    cbv zeta in Hs, He.
    destruct (fold_left _ _ _) as [mgr1 evs1]. cbn [fst snd] in *.
    destruct Hs as (Hs & Hmax & _ & Hint & _). destruct He as [_ He].
    destruct (Hctx mgr1) as (H1 & H2 & H3). rewrite H1, H2, H3.
    split; [rewrite Hs; apply filter_keptBy_all|].
    split; [rewrite Hint; reflexivity|].
    split; [rewrite Hmax; reflexivity|].
    split.
    + intros k Hk. destruct (mapKeys_mapGet _ _ Hk) as [v Hv].
      destruct (He k v Hk Hv) as [after Hafter].
      exists after. apply in_or_app. left. exact Hafter.
    + apply last_snoc.
Qed.

(** X14.  [closeAllSessions] closes every session of the pool and leaves
    the map empty, stops the sweep timer, and closes the shared context
    after the sessions. *)
Theorem closeAllSessions_empties_pool (mgr : SessionManager) (w : PoolWorld) :
  let mgr' := fst (closeAllSessions mgr w) in
  let evs := snd (closeAllSessions mgr w) in
  sessions mgr' = []
  /\ cleanupInterval mgr' = false
  /\ maxSessions mgr' = maxSessions mgr
  /\ (forall k, In k (mapKeys (sessions mgr)) ->
        exists after, In (Closed k after) evs)
  /\ last evs = Some ContextClosed.
Proof. exact (closeAllSessions_state mgr w). Qed.

(** *** The sweep *)

Lemma same_key_same_entry (m : SessionMap) (e e' : string * BrowserSession) :
  List.NoDup (mapKeys m) -> In e m -> In e' m -> fst e = fst e' -> e = e'.
Proof.
  intros Hnd Hin Hin' Hk. destruct e as [k v], e' as [k' v']. cbn in Hk. subst k'.
  pose proof (Pool.mapGet_In m k v Hnd Hin) as H1.
  pose proof (Pool.mapGet_In m k v' Hnd Hin') as H2.
  congruence.
Qed.

Lemma keptBy_selected (m : SessionMap)
    (select : string * BrowserSession -> bool) :
  List.NoDup (mapKeys m) ->
  List.filter (keptBy (map fst (List.filter select m))) m
  = List.filter (fun e => negb (select e)) m.
Proof.
  intros Hnd. apply filter_ext_in. intros e Hin. unfold keptBy. f_equal.
  destruct (select e) eqn:Esel.
  - apply existsb_exists. exists (fst e). split; [|apply String.eqb_refl].
    apply in_map. apply filter_In. split; assumption.
  - destruct (existsb _ _) eqn:Eex; [|reflexivity].
    apply existsb_exists in Eex as (k & Hk & Heq).
    apply String.eqb_eq in Heq.
    apply in_map_iff in Hk as (e' & <- & Hin').
    apply filter_In in Hin' as [Hin' Hsel'].
    rewrite (same_key_same_entry m e e' Hnd Hin Hin' Heq) in Esel. congruence.
Qed.

(** X15.  The sweep [cleanupInactiveSessions] closes and removes exactly
    the sessions that are inactive for longer than the timeout, keeps the
    others in their order, returns the number of the removed ones, and
    does not touch the shared context. *)
Theorem cleanupInactiveSessions_removes_inactive (mgr : SessionManager)
    (w : PoolWorld) (clock : string -> Z) :
  wellFormed (sessions mgr) ->
  let r := cleanupInactiveSessions mgr w clock in
  sessions (snd (fst r))
  = List.filter (fun e => negb (inactive mgr clock e)) (sessions mgr)
  /\ fst (fst r)
     = Z.of_nat (length (List.filter (inactive mgr clock) (sessions mgr)))
  /\ currentHeadlessMode (snd (fst r)) = currentHeadlessMode mgr
  /\ maxSessions (snd (fst r)) = maxSessions mgr
  /\ forall k v, In k (inactiveSessions mgr clock) ->
       mapGet (sessions mgr) k = Some v ->
       exists after, In (Closed k after) (snd r).
Proof.
  intros [Hnd _] r. subst r. unfold cleanupInactiveSessions.
  fold (inactive mgr clock).
  assert (Hids : inactiveSessions mgr clock
                 = map fst (List.filter (inactive mgr clock) (sessions mgr)))
    by reflexivity.
  destruct (length (inactiveSessions mgr clock) =? 0)%nat eqn:El.
  - apply Nat.eqb_eq in El. cbn [fst snd].
    rewrite Hids, length_map in El.
    split.
    + rewrite <- (keptBy_selected _ _ Hnd).
      apply length_zero_iff_nil in El. rewrite El. cbn.
      symmetry. apply forallb_filter_id. apply forallb_forall. reflexivity.
    + split; [rewrite El; reflexivity|]. split; [reflexivity|].
      split; [reflexivity|]. intros k v Hk.
      rewrite Hids in Hk. apply length_zero_iff_nil in El. rewrite El in Hk.
      destruct Hk.
  - pose proof (closeList_sessions w (inactiveSessions mgr clock) mgr []) as Hs.
    pose proof (closeList_events w (inactiveSessions mgr clock) mgr []) as He.
    cbv zeta in Hs, He.
    destruct (fold_left _ _ _) as [mgr1 evs1]. cbn [fst snd] in *.
    destruct Hs as (Hs & Hmax & _ & _ & Hmode). destruct He as [_ He].
    split; [rewrite Hs, Hids; apply keptBy_selected; exact Hnd|].
    split; [rewrite Hids, length_map; reflexivity|].
    split; [exact Hmode|]. split; [exact Hmax | exact He].
Qed.

(** At second 1000 the sweep removes A and keeps B. *)
Lemma cleanupInactiveSessions_removes_inactive_witness :
  let r := cleanupInactiveSessions poolStale calmWorld (fun _ => 1000000) in
  mapKeys (sessions (snd (fst r))) = ["B"] /\ fst (fst r) = 1.
Proof.
  assert (Hwf : wellFormed (sessions poolStale)).
  { split.
    - repeat constructor; cbn; intuition discriminate.
    - intros k v [E|[E|[]]]; injection E as <- <-; reflexivity. }
  destruct (cleanupInactiveSessions_removes_inactive poolStale calmWorld
              (fun _ => 1000000) Hwf) as (Hs & Hn & _).
  cbv zeta. rewrite Hs, Hn. vm_compute. split; reflexivity.
Defined.

(** *** Closing the sessions of a notebook *)

Lemma closeForNotebook_fold (w : PoolWorld) (url : string)
    (l : SessionMap) :
  forall (mgr : SessionManager) (evs : list Event) (closed : Z),
    let r := fold_left (closeIfNotebook w url) l (mgr, evs, closed) in
    sessions (fst (fst r))
    = List.filter (keptBy (map fst (List.filter (targets url) l)))
                  (sessions mgr)
    /\ snd r = closed + Z.of_nat (length (List.filter (targets url) l))
    /\ currentHeadlessMode (fst (fst r)) = currentHeadlessMode mgr.
Proof.
  induction l as [|[k v] l IH]; intros mgr evs closed.
  - cbn. split; [|split; [lia | reflexivity]].
    symmetry. apply forallb_filter_id. apply forallb_forall. reflexivity.
  - assert (Et : targets url (k, v) = String.eqb (notebookUrl v) url)
      by reflexivity.
    cbn [fold_left closeIfNotebook List.filter]. rewrite Et.
    destruct (String.eqb (notebookUrl v) url).
    + destruct (IH (setSessions mgr (mapDelete (sessions mgr) k))
                   (evs ++ [Closed k (close v (pageClose w k)); Deleted k])
                   (closed + 1)) as (Hs & Hc & Hm).
      cbv zeta. split; [|split].
      * rewrite Hs. cbn [sessions setSessions map fst].
        apply filter_keptBy_mapDelete.
      * rewrite Hc. cbn [length]. lia.
      * rewrite Hm. reflexivity.
    + apply IH.
Qed.

(** X16.  [closeSessionsForNotebook] closes and removes exactly the
    sessions that target the given URL, keeps the others in their order,
    and returns the number of the removed ones; afterwards no session of
    the pool targets that URL. *)
Theorem closeSessionsForNotebook_removes_targets (mgr : SessionManager)
    (w : PoolWorld) (url : string) :
  wellFormed (sessions mgr) ->
  let r := closeSessionsForNotebook mgr w url in
  sessions (snd (fst r))
  = List.filter (fun e => negb (targets url e)) (sessions mgr)
  /\ fst (fst r)
     = Z.of_nat (length (List.filter (targets url) (sessions mgr)))
  /\ (forall k v, In (k, v) (sessions (snd (fst r))) -> notebookUrl v <> url)
  /\ currentHeadlessMode (snd (fst r)) = currentHeadlessMode mgr.
Proof.
  intros [Hnd _] r. subst r. unfold closeSessionsForNotebook.
  pose proof (closeForNotebook_fold w url (sessions mgr) mgr [] 0) as H.
  cbv zeta in H.
  destruct (fold_left _ _ _) as [[mgr1 evs1] closed]. cbn [fst snd] in *.
  destruct H as (Hs & Hc & Hm).
  assert (Hs' : sessions mgr1
                = List.filter (fun e => negb (targets url e)) (sessions mgr))
    by (rewrite Hs; apply keptBy_selected; exact Hnd).
  split; [exact Hs'|]. split; [lia|]. split; [|exact Hm].
  intros k v Hin. rewrite Hs' in Hin. apply filter_In in Hin as [_ Hneg].
  unfold targets in Hneg. cbn in Hneg. apply negb_true_iff in Hneg.
  apply String.eqb_neq. exact Hneg.
Qed.

(** Of the sessions A, B, C only B is on notebook B; A and C are on
    notebook A and are removed with it. *)
Lemma closeSessionsForNotebook_removes_targets_witness :
  let r := closeSessionsForNotebook poolABA calmWorld notebookA in
  mapKeys (sessions (snd (fst r))) = ["B"] /\ fst (fst r) = 2.
Proof.
  assert (Hwf : wellFormed (sessions poolABA)).
  { split.
    - repeat constructor; cbn; intuition discriminate.
    - intros k v [E|[E|[E|[]]]]; injection E as <- <-; reflexivity. }
  destruct (closeSessionsForNotebook_removes_targets poolABA calmWorld
              notebookA Hwf) as (Hs & Hn & _).
  cbv zeta. rewrite Hs, Hn. vm_compute. split; reflexivity.
Defined.

(** *** Reuse *)

Lemma mapGet_mapSet_eq (m : SessionMap) (k : string) (v : BrowserSession) :
  mapGet (mapSet m k v) k = Some v.
Proof.
  induction m as [|[k0 v0] m IH]; cbn.
  - rewrite String.eqb_refl. reflexivity.
  - destruct (String.eqb k0 k) eqn:E; cbn; [rewrite String.eqb_refl | rewrite E];
      [reflexivity | exact IH].
Qed.

Lemma mapKeys_mapSet_present (m : SessionMap) (k : string)
    (v0 v : BrowserSession) :
  mapGet m k = Some v0 -> mapKeys (mapSet m k v) = mapKeys m.
Proof.
  induction m as [|[k1 v1] m IH]; [discriminate|]. cbn.
  destruct (String.eqb_spec k1 k) as [->|Hne]; [reflexivity|].
  intros H. cbn. f_equal. exact (IH H).
Qed.

Lemma length_mapSet (m : SessionMap) (k : string) (v : BrowserSession) :
  (length (mapSet m k v) <= S (length m))%nat.
Proof.
  induction m as [|[k1 v1] m IH]; cbn; [lia|].
  destruct (String.eqb k1 k); cbn; lia.
Qed.

Lemma mapGet_Some_In (m : SessionMap) (k : string) (v : BrowserSession) :
  mapGet m k = Some v -> In (k, v) m.
Proof.
  induction m as [|[k1 v1] m IH]; [discriminate|]. cbn.
  destruct (String.eqb_spec k1 k) as [->|Hne].
  - intros E. injection E as ->. left. reflexivity.
  - intros H. right. exact (IH H).
Qed.

Lemma init_fields (s : BrowserSession) (w : InitScript) :
  sessionId (snd (init s w)) = sessionId s
  /\ notebookUrl (snd (init s w)) = notebookUrl s.
Proof.
  unfold init, initFailed. destruct (initialized s); [auto|].
  destruct (initBody w); [auto|].
  destruct (initOpened w), (page s), (initPageClose w); auto.
Qed.

Lemma createSession_registered (mgr : SessionManager) (w : PoolWorld)
    (id url : string) (evs : list Event) (session : BrowserSession) :
  returned (createSession mgr w id url evs) = Resolved session ->
  mapGet (sessions (manager (createSession mgr w id url evs))) id
  = Some session
  /\ notebookUrl session = url /\ sessionId session = id.
Proof.
  unfold createSession. destruct (contextMode w); [|discriminate].
  pose proof (init_fields (new id url (newNow w)) (sessionInit w)) as [Hi Hu].
  destruct (init (new id url (newNow w)) (sessionInit w)) as [[[]|e] s1];
    [|discriminate].
  cbn in *. intros E. injection E as <-.
  split; [apply mapGet_mapSet_eq | auto].
Qed.

Lemma freeUpAndCreate_registered (mgr : SessionManager) (w : PoolWorld)
    (id url : string) (evs : list Event) (session : BrowserSession) :
  returned (freeUpAndCreate mgr w id url evs) = Resolved session ->
  mapGet (sessions (manager (freeUpAndCreate mgr w id url evs))) id
  = Some session
  /\ notebookUrl session = url /\ sessionId session = id.
Proof.
  unfold freeUpAndCreate.
  destruct (maxSessions mgr <=? mapSize (sessions mgr));
    [|apply createSession_registered].
  destruct (cleanupOldestSession mgr w) as [[[] mgr1] evs1];
    [apply createSession_registered | discriminate].
Qed.

Lemma getOrCreateSession_registered (mgr : SessionManager) (w : PoolWorld)
    (sessionId notebookUrl : option string) (overrideHeadless : option bool)
    (session : BrowserSession) :
  let r := getOrCreateSession mgr w sessionId notebookUrl overrideHeadless in
  returned r = Resolved session ->
  truthy (targetUrlOf w notebookUrl) = true
  /\ startsWith (targetUrlOf w notebookUrl) "http" = true
  /\ mapGet (sessions (manager r)) (sessionIdOf w sessionId) = Some session
  /\ BrowserSession.notebookUrl session = targetUrlOf w notebookUrl.
Proof.
  intros r. subst r. unfold getOrCreateSession.
  destruct (truthy (targetUrlOf w notebookUrl)); [|discriminate].
  destruct (startsWith (targetUrlOf w notebookUrl) "http"); [|discriminate].
  cbn [negb].
  destruct (switchMode mgr w overrideHeadless) as [mgr1 evs1].
  destruct (mapGet (sessions mgr1) (sessionIdOf w sessionId)) as [s0|] eqn:Eg.
  - destruct (String.eqb (BrowserSession.notebookUrl s0) _) eqn:Eu; cbn [negb].
    + cbn. intros E. injection E as <-.
      split; [reflexivity|]. split; [reflexivity|].
      split; [apply mapGet_mapSet_eq|]. apply String.eqb_eq in Eu. exact Eu.
    + intros H. apply freeUpAndCreate_registered in H as (H1 & H2 & _). auto.
  - intros H. apply freeUpAndCreate_registered in H as (H1 & H2 & _). auto.
Qed.

(** X17.  After a call of [getOrCreateSession] that returned a session
    for an id and a notebook URL, a second call with the same id and URL
    that asks for no other visibility mode returns that session, with
    only its last activity renewed: nothing is closed, created or
    initialized, and the keys of the map are the same. *)
Theorem getOrCreateSession_reuses (mgr : SessionManager) (w1 w2 : PoolWorld)
    (id url : string) (ov1 ov2 : option bool) (session : BrowserSession) :
  truthy id = true -> truthy url = true ->
  let r1 := getOrCreateSession mgr w1 (Some id) (Some url) ov1 in
  returned r1 = Resolved session ->
  keepsMode (manager r1) w2 ov2 ->
  let r2 := getOrCreateSession (manager r1) w2 (Some id) (Some url) ov2 in
  returned r2 = Resolved (updateActivity session (touchNow w2))
  /\ trace r2 = []
  /\ inFlight r2 = None
  /\ mapKeys (sessions (manager r2)) = mapKeys (sessions (manager r1)).
Proof.
  intros Hid Hurl r1 Hret Hmode r2.
  assert (Ht : forall w, targetUrlOf w (Some url) = trim url).
  { intros w. unfold targetUrlOf, orElse. rewrite Hurl. reflexivity. }
  assert (Hi : forall w, sessionIdOf w (Some id) = id).
  { intros w. unfold sessionIdOf, orElse. rewrite Hid. reflexivity. }
  destruct (getOrCreateSession_registered mgr w1 (Some id) (Some url) ov1
              session Hret) as (Htr & Hhttp & Hget & Hu).
  fold r1 in Hget. rewrite Ht in Htr, Hhttp, Hu. rewrite Hi in Hget.
  subst r2. unfold getOrCreateSession.
  rewrite Ht, Hi, Htr, Hhttp. cbn [negb].
  rewrite (Pool.switchMode_keeps _ _ _ Hmode), Hget, Hu, String.eqb_refl.
  cbn. repeat split.
  exact (mapKeys_mapSet_present _ _ _ _ Hget).
Qed.

(** C is created in the empty pool and asked for again. *)
Lemma getOrCreateSession_reuses_witness :
  let r1 := getOrCreateSession emptyPool calmWorld (Some "C") (Some notebookA)
                               None in
  let r2 := getOrCreateSession (manager r1) calmWorld (Some "C")
                               (Some notebookA) None in
  returned r2 = Resolved (updateActivity sessionC 2) /\ trace r2 = [].
Proof.
  destruct (getOrCreateSession_reuses emptyPool calmWorld calmWorld "C"
              notebookA None None sessionC eq_refl eq_refl
              ltac:(vm_compute; reflexivity) I) as (H1 & H2 & _).
  split; assumption.
Defined.

(** *** The bound on the number of sessions *)

Lemma length_mapDelete (m : SessionMap) (k : string) :
  (length (mapDelete m k) <= length m)%nat.
Proof. apply filter_length_le. Qed.

Lemma length_mapDelete_present (m : SessionMap) (k : string)
    (v : BrowserSession) :
  mapGet m k = Some v -> (length (mapDelete m k) < length m)%nat.
Proof.
  induction m as [|[k1 v1] m IH]; [discriminate|].
  change (mapDelete ((k1, v1) :: m) k)
    with (if negb (String.eqb k1 k) then (k1, v1) :: mapDelete m k
          else mapDelete m k).
  cbn [mapGet]. destruct (String.eqb k1 k); cbn [negb length].
  - intros _. pose proof (length_mapDelete m k). lia.
  - intros H. specialize (IH H). lia.
Qed.

Lemma cleanupOldestSession_shrinks (mgr : SessionManager) (w : PoolWorld) :
  let r := cleanupOldestSession mgr w in
  maxSessions (snd (fst r)) = maxSessions mgr
  /\ if fst (fst r)
     then (length (sessions (snd (fst r))) < length (sessions mgr))%nat
     else snd (fst r) = mgr.
Proof.
  unfold cleanupOldestSession.
  destruct (mapSize (sessions mgr) =? 0); [cbn; auto|].
  destruct (findOldest _ None None) as [oldestId|]; [|cbn; auto].
  destruct (negb (truthy oldestId)); [cbn; auto|].
  destruct (mapGet (sessions mgr) oldestId) eqn:Eg; [|cbn; auto].
  cbn. split; [reflexivity|]. exact (length_mapDelete_present _ _ _ Eg).
Qed.

Lemma createSession_grows_by_one (mgr : SessionManager) (w : PoolWorld)
    (id url : string) (evs : list Event) :
  let r := createSession mgr w id url evs in
  maxSessions (manager r) = maxSessions mgr
  /\ (length (sessions (manager r)) <= S (length (sessions mgr)))%nat.
Proof.
  unfold createSession. destruct (contextMode w); [|cbn; split; [reflexivity | lia]].
  destruct (init _ (sessionInit w)) as [[[]|e] s1]; cbn;
    (split; [reflexivity|]); [apply length_mapSet | lia].
Qed.

Lemma freeUpAndCreate_bounded (mgr : SessionManager) (w : PoolWorld)
    (id url : string) (evs : list Event) :
  mapSize (sessions mgr) <= maxSessions mgr ->
  let r := freeUpAndCreate mgr w id url evs in
  maxSessions (manager r) = maxSessions mgr
  /\ mapSize (sessions (manager r)) <= maxSessions mgr.
Proof.
  unfold freeUpAndCreate, mapSize. intros Hle.
  destruct (maxSessions mgr <=? Z.of_nat (length (sessions mgr))) eqn:Eg.
  - apply Z.leb_le in Eg.
    pose proof (cleanupOldestSession_shrinks mgr w) as Hc. cbv zeta in Hc.
    destruct (cleanupOldestSession mgr w) as [[[] mgr1] evs1]; cbn in Hc.
    + destruct Hc as [Hm Hlt].
      pose proof (createSession_grows_by_one mgr1 w id url (evs ++ evs1)) as Hg.
      cbv zeta in *. destruct Hg as [Hm' Hle']. split; [congruence | lia].
    + destruct Hc as [_ ->]. cbn. split; [reflexivity | lia].
  - apply Z.leb_gt in Eg.
    pose proof (createSession_grows_by_one mgr w id url evs) as Hg.
    cbv zeta in *. destruct Hg as [Hm' Hle']. split; [congruence | lia].
Qed.

Lemma switchMode_shrinks (mgr : SessionManager) (w : PoolWorld)
    (overrideHeadless : option bool) :
  let mgr1 := fst (switchMode mgr w overrideHeadless) in
  maxSessions mgr1 = maxSessions mgr
  /\ (length (sessions mgr1) <= length (sessions mgr))%nat.
Proof.
  unfold switchMode. destruct overrideHeadless; [|cbn; split; [reflexivity | lia]].
  destruct (needsHeadlessModeChange _ _ _); [|cbn; split; [reflexivity | lia]].
  destruct (closeAllSessions_state mgr w) as (Hs & _ & Hm & _).
  cbv zeta. rewrite Hs, Hm. cbn. split; [reflexivity | lia].
Qed.

(** A call run alone leaves at most [maxSessions] sessions when there were
    at most that many, whether it returns or throws. *)
Lemma getOrCreateSession_bounded (mgr : SessionManager) (w : PoolWorld)
    (sessionId notebookUrl : option string) (overrideHeadless : option bool) :
  mapSize (sessions mgr) <= maxSessions mgr ->
  let r := getOrCreateSession mgr w sessionId notebookUrl overrideHeadless in
  maxSessions (manager r) = maxSessions mgr
  /\ mapSize (sessions (manager r)) <= maxSessions mgr.
Proof.
  intros Hle r. subst r. unfold getOrCreateSession.
  destruct (negb (truthy _)); [cbn; auto|].
  destruct (negb (startsWith _ "http")); [cbn; auto|].
  pose proof (switchMode_shrinks mgr w overrideHeadless) as Hsw.
  cbv zeta in Hsw.
  destruct (switchMode mgr w overrideHeadless) as [mgr1 evs1]. cbn [fst] in Hsw.
  destruct Hsw as [Hm1 Hl1].
  assert (Hle1 : mapSize (sessions mgr1) <= maxSessions mgr1)
    by (unfold mapSize in *; lia).
  destruct (mapGet (sessions mgr1) (sessionIdOf w sessionId)) as [s0|] eqn:Eg.
  - destruct (negb (String.eqb _ _)).
    + set (mgr2 := setSessions mgr1 (mapDelete (sessions mgr1) _)).
      assert (Hle2 : mapSize (sessions mgr2) <= maxSessions mgr2).
      { subst mgr2. unfold mapSize in *. cbn.
        pose proof (length_mapDelete (sessions mgr1) (sessionIdOf w sessionId)).
        lia. }
      destruct (freeUpAndCreate_bounded mgr2 w (sessionIdOf w sessionId)
                  (targetUrlOf w notebookUrl)
                  (evs1 ++ [Closed (sessionIdOf w sessionId)
                              (close s0 (pageClose w (sessionIdOf w sessionId)));
                            Deleted (sessionIdOf w sessionId)]) Hle2)
        as [Hm Hb].
      subst mgr2. cbn in *. split; [congruence | lia].
    + cbn. split; [exact Hm1|].
      rewrite <- Hm1. unfold mapSize in *.
      assert (length (mapSet (sessions mgr1) (sessionIdOf w sessionId)
                             (updateActivity s0 (touchNow w)))
              = length (sessions mgr1)).
      { rewrite <- !(length_map fst). fold (mapKeys (sessions mgr1)).
        change (map fst ?m) with (mapKeys m).
        rewrite (mapKeys_mapSet_present _ _ _ _ Eg). reflexivity. }
      lia.
  - destruct (freeUpAndCreate_bounded mgr1 w (sessionIdOf w sessionId)
                (targetUrlOf w notebookUrl) evs1 Hle1) as [Hm Hb].
    split; [congruence | lia].
Qed.

(** A call that creates its session on a pool with room: what it returns,
    the manager it leaves, and the manager while it is suspended. *)
Lemma run_creates (mgr : SessionManager) (c : Call) :
  createsSession mgr c ->
  mapSize (sessions mgr) < maxSessions mgr ->
  exists mode session,
    let mgr1 := setHeadlessMode mgr (Some mode) in
    let id := sessionIdOf (callWorld c) (callSessionId c) in
    returned (run mgr c) = Resolved session
    /\ inFlight (run mgr c) = Some mgr1
    /\ manager (run mgr c)
       = setSessions mgr1 (sessions mgr ++ [(id, session)]).
Proof.
  intros (Hurl & Hhttp & Hov & Hfresh & Hctx & Hinit) Hroom.
  cbv zeta in *. unfold run, getOrCreateSession.
  rewrite Hurl, Hhttp, Hov. cbn [negb switchMode]. rewrite Hfresh.
  unfold freeUpAndCreate.
  apply Z.leb_gt in Hroom. rewrite Hroom.
  unfold createSession.
  destruct (contextMode (callWorld c)) as [mode|e]; [|discriminate Hctx].
  destruct (init _ (sessionInit (callWorld c))) as [[[]|e] session];
    [|discriminate Hinit].
  exists mode, session. cbv zeta. cbn [returned inFlight manager].
  split; [reflexivity|]. split; [reflexivity|].
  cbn [sessions setHeadlessMode]. rewrite (Pool.mapSet_fresh _ _ _ Hfresh).
  reflexivity.
Qed.

Lemma mapGet_app_other (m : SessionMap) (k k' : string) (v : BrowserSession) :
  k <> k' -> mapGet m k = None -> mapGet (m ++ [(k', v)]) k = None.
Proof.
  intros Hne. induction m as [|[k1 v1] m IH]; cbn.
  - intros _. apply not_eq_sym in Hne. apply String.eqb_neq in Hne.
    now rewrite Hne.
  - destruct (String.eqb k1 k); [discriminate|exact IH].
Qed.

(** Without another call in between, [resume] gives the manager that the
    call leaves. *)
Lemma resume_alone (mgr : SessionManager) (c : Call) (m : SessionManager) :
  inFlight (run mgr c) = Some m ->
  manager (run mgr c)
  = resume (run mgr c) (sessionIdOf (callWorld c) (callSessionId c)) m.
Proof.
  unfold resume, run, getOrCreateSession.
  destruct (negb (truthy _)); [discriminate|].
  destruct (negb (startsWith _ "http")); [discriminate|].
  destruct (switchMode mgr _ _) as [mgr1 evs1].
  assert (Hf : forall mgr0 evs,
            let r := freeUpAndCreate mgr0 (callWorld c)
                       (sessionIdOf (callWorld c) (callSessionId c))
                       (targetUrlOf (callWorld c) (callNotebookUrl c)) evs in
            inFlight r = Some m ->
            manager r
            = match inFlight r, returned r with
              | Some _, Resolved session =>
                  setSessions m
                    (mapSet (sessions m)
                       (sessionIdOf (callWorld c) (callSessionId c)) session)
              | _, _ => m
              end).
  { assert (Hc : forall mgr0 evs,
              let r := createSession mgr0 (callWorld c)
                         (sessionIdOf (callWorld c) (callSessionId c))
                         (targetUrlOf (callWorld c) (callNotebookUrl c)) evs in
              inFlight r = Some m ->
              manager r
              = match inFlight r, returned r with
                | Some _, Resolved session =>
                    setSessions m
                      (mapSet (sessions m)
                         (sessionIdOf (callWorld c) (callSessionId c)) session)
                | _, _ => m
                end).
    { intros mgr0 evs. cbv zeta. unfold createSession.
      destruct (contextMode (callWorld c)) as [mode|e]; [|discriminate].
      destruct (init _ (sessionInit (callWorld c))) as [[[]|e] session];
        cbn; intros E; injection E as <-; reflexivity. }
    intros mgr0 evs. cbv zeta. unfold freeUpAndCreate.
    destruct (maxSessions mgr0 <=? mapSize (sessions mgr0)); [|apply Hc].
    destruct (cleanupOldestSession mgr0 (callWorld c)) as [[[] mgr2] evs2];
      [apply Hc|discriminate]. }
  destruct (mapGet (sessions mgr1) _) as [s0|]; [|apply Hf].
  destruct (negb (String.eqb _ _)); [apply Hf|discriminate].
Qed.

(** X18.  [getOrCreateSession] keeps the pool within its bound as long
    as its calls do not overlap.  When the map holds at most
    [maxSessions] sessions, it still does after one call run alone, and
    after two calls run one after the other; and a call run alone does
    at [await session.init()] what [resume] does on the map it left.  But
    when the pool has room for exactly one more session and a second call
    for another new session runs while the first is suspended at
    [await session.init()], both pass the capacity check, both register,
    and the pool ends with [maxSessions + 1] sessions. *)
Theorem getOrCreateSession_bound_unless_overlapped (mgr : SessionManager)
    (c1 c2 : Call) :
  mapSize (sessions mgr) <= maxSessions mgr ->
  mapSize (sessions (manager (run mgr c1))) <= maxSessions mgr
  /\ mapSize (sessions (oneAfterTheOther mgr c1 c2)) <= maxSessions mgr
  /\ (forall m, inFlight (run mgr c1) = Some m ->
        manager (run mgr c1)
        = resume (run mgr c1) (sessionIdOf (callWorld c1) (callSessionId c1)) m)
  /\ (oneFreeSlot mgr c1 c2 ->
      mapSize (sessions (overlapped mgr c1 c2)) = maxSessions mgr + 1).
Proof.
  intros Hle.
  destruct (getOrCreateSession_bounded mgr (callWorld c1) (callSessionId c1)
              (callNotebookUrl c1) (callOverrideHeadless c1) Hle) as [Hm1 Hb1].
  fold (run mgr c1) in Hm1, Hb1.
  split; [exact Hb1|]. split.
  { unfold oneAfterTheOther.
    destruct (getOrCreateSession_bounded (manager (run mgr c1)) (callWorld c2)
                (callSessionId c2) (callNotebookUrl c2)
                (callOverrideHeadless c2)) as [_ Hb2]; [lia|].
    fold (run (manager (run mgr c1)) c2) in Hb2. lia. }
  split; [intros m; apply resume_alone|].
  intros (Hslot & H1 & H2 & Hne).
  destruct (run_creates mgr c1 H1 ltac:(lia)) as (mode1 & s1 & Hr1 & Hf1 & _).
  cbv zeta in Hf1. unfold overlapped. rewrite Hf1.
  set (m1 := setHeadlessMode mgr (Some mode1)).
  assert (H2' : createsSession m1 c2) by exact H2.
  destruct (run_creates m1 c2 H2' ltac:(cbn; lia)) as (mode2 & s2 & _ & _ & Hm2).
  cbv zeta in Hm2. rewrite Hm2. unfold resume. rewrite Hf1, Hr1.
  cbn [sessions setSessions setHeadlessMode m1].
  destruct H1 as (_ & _ & _ & Hfresh1 & _). cbv zeta in Hfresh1.
  rewrite (Pool.mapSet_fresh _ _ s1
             (mapGet_app_other _ _ _ s2 Hne Hfresh1)).
  unfold mapSize in *. rewrite !length_app. cbn [length]. lia.
Qed.

Lemma getOrCreateSession_bound_unless_overlapped_witness :
  mapSize (sessions poolA) <= maxSessions poolA
  /\ oneFreeSlot poolA (callFor "B") (callFor "C")
  /\ mapSize (sessions (oneAfterTheOther poolA (callFor "B") (callFor "C")))
     <= maxSessions poolA
  /\ mapSize (sessions (overlapped poolA (callFor "B") (callFor "C")))
     = maxSessions poolA + 1.
Proof.
  assert (Hle : mapSize (sessions poolA) <= maxSessions poolA)
    by (vm_compute; discriminate).
  assert (Hslot : oneFreeSlot poolA (callFor "B") (callFor "C")).
  { split; [reflexivity|]. split; [|split].
    - repeat split; vm_compute; reflexivity.
    - repeat split; vm_compute; reflexivity.
    - vm_compute. discriminate. }
  destruct (getOrCreateSession_bound_unless_overlapped poolA (callFor "B")
              (callFor "C") Hle) as (_ & Hseq & _ & Hover).
  split; [exact Hle|]. split; [exact Hslot|]. split; [exact Hseq|].
  exact (Hover Hslot).
Defined.

(** *** Ids and URLs of the registered sessions *)

Lemma keyed_mapDelete (m : SessionMap) (k : string) :
  keyed m -> keyed (mapDelete m k).
Proof.
  intros H k' v Hin. apply filter_In in Hin as [Hin _]. exact (H k' v Hin).
Qed.

Lemma mapSet_In (m : SessionMap) (k : string) (v : BrowserSession)
    (k' : string) (v' : BrowserSession) :
  In (k', v') (mapSet m k v) -> (k', v') = (k, v) \/ In (k', v') m.
Proof.
  induction m as [|[k1 v1] m IH]; cbn.
  - intros [E | []]. left. symmetry. exact E.
  - destruct (String.eqb k1 k).
    + intros [E | Hin]; [left; symmetry; exact E | right; right; exact Hin].
    + intros [E | Hin]; [right; left; exact E|].
      destruct (IH Hin) as [E | Hin']; [left; exact E | right; right; exact Hin'].
Qed.

Lemma keyed_mapSet (m : SessionMap) (k : string) (v : BrowserSession) :
  sessionId v = k -> startsWith (notebookUrl v) "http" = true ->
  keyed m -> keyed (mapSet m k v).
Proof.
  intros Hk Hu H k' v' Hin.
  destruct (mapSet_In _ _ _ _ _ Hin) as [E | Hin'];
    [injection E as -> ->; auto | exact (H k' v' Hin')].
Qed.

Lemma keyed_createSession (mgr : SessionManager) (w : PoolWorld)
    (id url : string) (evs : list Event) :
  startsWith url "http" = true -> keyed (sessions mgr) ->
  keyed (sessions (manager (createSession mgr w id url evs))).
Proof.
  intros Hu H. unfold createSession.
  destruct (contextMode w); [|exact H].
  pose proof (init_fields (new id url (newNow w)) (sessionInit w)) as [Hi Hn].
  destruct (init _ (sessionInit w)) as [[[]|e] s1]; [|exact H].
  cbn in *. apply keyed_mapSet; [exact Hi | rewrite Hn; exact Hu | exact H].
Qed.

Lemma keyed_freeUpAndCreate (mgr : SessionManager) (w : PoolWorld)
    (id url : string) (evs : list Event) :
  startsWith url "http" = true -> keyed (sessions mgr) ->
  keyed (sessions (manager (freeUpAndCreate mgr w id url evs))).
Proof.
  intros Hu H. unfold freeUpAndCreate.
  destruct (maxSessions mgr <=? mapSize (sessions mgr));
    [|apply keyed_createSession; assumption].
  assert (Hc : keyed (sessions (snd (fst (cleanupOldestSession mgr w))))).
  { unfold cleanupOldestSession.
    destruct (mapSize (sessions mgr) =? 0); [exact H|].
    destruct (findOldest _ None None) as [oldestId|]; [|exact H].
    destruct (negb (truthy oldestId)); [exact H|].
    destruct (mapGet (sessions mgr) oldestId); [|exact H].
    cbn. apply keyed_mapDelete. exact H. }
  destruct (cleanupOldestSession mgr w) as [[[] mgr1] evs1]; cbn in Hc.
  - apply keyed_createSession; assumption.
  - exact Hc.
Qed.

(** X19.  [getOrCreateSession] keeps every session of the pool stored
    under its own id and with a URL that starts with "http": a session
    that it registers has the id it is registered under and the checked
    URL. *)
Theorem getOrCreateSession_keeps_ids_and_urls (mgr : SessionManager)
    (w : PoolWorld) (sessionId notebookUrl : option string)
    (overrideHeadless : option bool) :
  keyed (sessions mgr) ->
  keyed (sessions (manager (getOrCreateSession mgr w sessionId notebookUrl
                              overrideHeadless))).
Proof.
  intros H. unfold getOrCreateSession.
  destruct (negb (truthy _)); [exact H|].
  destruct (startsWith (targetUrlOf w notebookUrl) "http") eqn:Ehttp;
    cbn [negb]; [|exact H].
  assert (H1 : keyed (sessions (fst (switchMode mgr w overrideHeadless)))).
  { unfold switchMode. destruct overrideHeadless; [|exact H].
    destruct (needsHeadlessModeChange _ _ _); [|exact H].
    destruct (closeAllSessions_state mgr w) as (Hs & _).
    cbv zeta in Hs. rewrite Hs. intros k v []. }
  destruct (switchMode mgr w overrideHeadless) as [mgr1 evs1]. cbn [fst] in H1.
  destruct (mapGet (sessions mgr1) (sessionIdOf w sessionId)) as [s0|] eqn:Eg.
  - destruct (negb (String.eqb _ _)).
    + apply keyed_freeUpAndCreate; [exact Ehttp|].
      cbn. apply keyed_mapDelete. exact H1.
    + cbn. destruct (H1 _ _ (mapGet_Some_In _ _ _ Eg)) as [Hi Hu].
      apply keyed_mapSet; assumption.
  - apply keyed_freeUpAndCreate; assumption.
Qed.

Lemma getOrCreateSession_keeps_ids_and_urls_witness :
  keyed (sessions (manager (getOrCreateSession poolAB calmWorld (Some "C")
                              (Some notebookA) None))).
Proof.
  apply getOrCreateSession_keeps_ids_and_urls.
  intros k v [E|[E|[]]]; injection E as <- <-; split; reflexivity.
Defined.

(** *** The change of the visibility mode *)

Lemma createSession_trace (mgr : SessionManager) (w : PoolWorld)
    (id url : string) (evs : list Event) :
  let r := createSession mgr w id url evs in
  (exists more, trace r = evs ++ more)
  /\ (sessions mgr = [] -> (length (sessions (manager r)) <= 1)%nat).
Proof.
  destruct mgr as [m mx tmo ci hm].
  unfold createSession. destruct (contextMode w).
  - destruct (init _ (sessionInit w)) as [[[]|e] s1]; cbn; split.
    + eexists. rewrite <- app_assoc. reflexivity.
    + intros ->. cbn. lia.
    + eexists. reflexivity.
    + intros ->. cbn. lia.
  - cbn. split; [eexists; reflexivity | intros ->; cbn; lia].
Qed.

Lemma freeUpAndCreate_trace (mgr : SessionManager) (w : PoolWorld)
    (id url : string) (evs : list Event) :
  sessions mgr = [] ->
  let r := freeUpAndCreate mgr w id url evs in
  (exists more, trace r = evs ++ more)
  /\ (length (sessions (manager r)) <= 1)%nat.
Proof.
  destruct mgr as [m mx tmo ci hm]. cbn [sessions]. intros ->.
  unfold freeUpAndCreate, cleanupOldestSession, mapSize.
  cbn [sessions maxSessions length]. change (Z.of_nat 0) with 0.
  cbn [Z.eqb]. destruct (mx <=? 0).
  - cbn. split; [exists []; reflexivity | lia].
  - destruct (createSession_trace (mkManager [] mx tmo ci hm) w id url evs)
      as [Ht Hl].
    split; [exact Ht | exact (Hl eq_refl)].
Qed.

(** X20.  When a call of [getOrCreateSession] with a valid URL asks for
    a visibility mode other than the one of the shared context, every
    session that was in the pool is closed, and afterwards the pool holds
    at most the session of this call. *)
Theorem getOrCreateSession_mode_switch_closes_all (mgr : SessionManager)
    (w : PoolWorld) (sessionId notebookUrl : option string)
    (showBrowser : bool) :
  truthy (targetUrlOf w notebookUrl) = true ->
  startsWith (targetUrlOf w notebookUrl) "http" = true ->
  needsHeadlessModeChange mgr (config w) (Some showBrowser) = true ->
  let r := getOrCreateSession mgr w sessionId notebookUrl (Some showBrowser) in
  (forall k, In k (mapKeys (sessions mgr)) ->
     exists after, In (Closed k after) (trace r))
  /\ (length (sessions (manager r)) <= 1)%nat
  /\ forall k v, In (k, v) (sessions (manager r)) ->
       k = sessionIdOf w sessionId.
Proof.
  intros Hurl Hhttp Hneed r. subst r. unfold getOrCreateSession.
  rewrite Hurl, Hhttp. cbn [negb]. unfold switchMode. rewrite Hneed.
  destruct (closeAllSessions_state mgr w) as (Hs & _ & _ & Hclosed & _).
  cbv zeta in Hs, Hclosed.
  destruct (closeAllSessions mgr w) as [mgr1 evs1]. cbn [fst snd] in *.
  rewrite Hs. cbn [mapGet].
  destruct (freeUpAndCreate_trace mgr1 w (sessionIdOf w sessionId)
              (targetUrlOf w notebookUrl) evs1 Hs) as [(more & Ht) Hl].
  split; [|split; [exact Hl|]].
  - intros k Hk. destruct (Hclosed k Hk) as [after Hafter].
    exists after. rewrite Ht. apply in_or_app. left. exact Hafter.
  - intros k v Hin.
    assert (Hkeys : forall m0 ev0,
              sessions m0 = [] ->
              forall k v, In (k, v) (sessions (manager
                  (createSession m0 w (sessionIdOf w sessionId)
                     (targetUrlOf w notebookUrl) ev0))) ->
              k = sessionIdOf w sessionId).
    { intros m0 ev0 He k0 v0. destruct m0 as [m mx tmo ci hm].
      cbn in He. subst m. unfold createSession.
      destruct (contextMode w); [|cbn; intros []].
      destruct (init _ (sessionInit w)) as [[[]|e] s1]; cbn.
      - intros [E | []]. injection E as <- _. reflexivity.
      - intros []. }
    revert Hin. destruct mgr1 as [m mx tmo ci hm]. cbn [sessions] in Hs.
    subst m. unfold freeUpAndCreate, cleanupOldestSession, mapSize.
    cbn [sessions maxSessions length]. change (Z.of_nat 0) with 0.
    cbn [Z.eqb]. destruct (mx <=? 0).
    + cbn. intros [].
    + apply Hkeys. reflexivity.
Qed.

(** The headless pool of A and B is asked to show the browser. *)
Lemma getOrCreateSession_mode_switch_closes_all_witness :
  let r := getOrCreateSession poolAB calmWorld (Some "C") (Some notebookA)
                              (Some true) in
  (exists after, In (Closed "A" after) (trace r))
  /\ (exists after, In (Closed "B" after) (trace r))
  /\ (length (sessions (manager r)) <= 1)%nat.
Proof.
  destruct (getOrCreateSession_mode_switch_closes_all poolAB calmWorld
              (Some "C") (Some notebookA) true eq_refl eq_refl eq_refl)
    as (Hc & Hl & _).
  split; [apply Hc; left; reflexivity|].
  split; [apply Hc; right; left; reflexivity | exact Hl].
Defined.

End PoolFacts.

(* ===================================================================== *)
(** ** The notebook library                                               *)
(* ===================================================================== *)

Module LibraryFacts.
Import NotebookLibrary Vocabulary.
Local Open Scope list_scope.

Lemma length_append_string (a b : string) :
  String.length (a ++ b)%string = (String.length a + String.length b)%nat.
Proof. induction a as [|c a IH]; simpl; [reflexivity | now rewrite IH]. Qed.

Lemma append_cancel (a b c : string) :
  (a ++ b)%string = (a ++ c)%string -> b = c.
Proof.
  induction a as [|x a IH]; simpl; intros H; [exact H|].
  injection H as H. now apply IH.
Qed.

Lemma decimal_inj (m n : nat) : decimal m = decimal n -> m = n.
Proof.
  unfold decimal. intros H.
  apply Unsigned.to_uint_inj.
  assert (E : Some (Nat.to_uint m) = Some (Nat.to_uint n)).
  { rewrite <- (NilEmpty.usu (Nat.to_uint m)), <- (NilEmpty.usu (Nat.to_uint n)).
    now rewrite H. }
  now injection E.
Qed.

Lemma candidateId_inj (base : string) (j k : nat) :
  candidateId base j = candidateId base k -> j = k.
Proof.
  destruct j as [|j], k as [|k]; simpl; intros H; [reflexivity| | |].
  - apply (f_equal String.length) in H.
    rewrite length_append_string in H. simpl in H. lia.
  - apply (f_equal String.length) in H.
    rewrite length_append_string in H. simpl in H. lia.
  - apply append_cancel in H. injection H as H. now apply decimal_inj.
Qed.

Lemma hasId_In (lib : Library) (i : string) :
  hasId lib i = true <-> In i (List.map id (notebooks lib)).
Proof.
  unfold hasId. rewrite existsb_exists, in_map_iff. split.
  - intros (n & Hin & E). apply String.eqb_eq in E. now exists n.
  - intros (n & E & Hin). exists n. split; [exact Hin|now apply String.eqb_eq].
Qed.

(** Not every one of more candidates than there are notebooks is taken. *)
Lemma candidates_not_all_taken (lib : Library) (base : string) :
  ~ (forall j, (j <= length (notebooks lib))%nat ->
               hasId lib (candidateId base j) = true).
Proof.
  intros H.
  set (cs := List.map (candidateId base) (seq 0 (S (length (notebooks lib))))).
  assert (Hnd : List.NoDup cs).
  { unfold cs. apply Finite.Injective_map_NoDup.
    - intros j k. apply candidateId_inj.
    - apply seq_NoDup. }
  assert (Hincl : incl cs (List.map id (notebooks lib))).
  { intros c Hc. unfold cs in Hc. apply in_map_iff in Hc.
    destruct Hc as (j & <- & Hj). apply in_seq in Hj.
    apply hasId_In, H. lia. }
  pose proof (List.NoDup_incl_length Hnd Hincl) as Hlen.
  unfold cs in Hlen. rewrite !length_map, length_seq in Hlen. lia.
Qed.

(** The loop started at candidate [j] ends at the first free candidate
    from [j] on, if there is one within the fuel. *)
Lemma generateIdFrom_first_free (lib : Library) (base : string) (fuel j : nat) :
  (exists k, (j <= k < j + fuel)%nat
     /\ generateIdFrom fuel lib base (candidateId base j) (S j)
        = Some (candidateId base k)
     /\ hasId lib (candidateId base k) = false
     /\ forall m, (j <= m < k)%nat -> hasId lib (candidateId base m) = true)
  \/ (generateIdFrom fuel lib base (candidateId base j) (S j) = None
      /\ forall m, (j <= m < j + fuel)%nat ->
                   hasId lib (candidateId base m) = true).
Proof.
  revert j. induction fuel as [|fuel IH]; intros j.
  - right. split; [reflexivity|]. intros m Hm. lia.
  - cbn [generateIdFrom].
    destruct (hasId lib (candidateId base j)) eqn:Ej.
    + change (base ++ "-" ++ decimal (S j))%string with (candidateId base (S j)).
      destruct (IH (S j)) as [(k & Hk & Eg & Hfree & Hbelow) | (Eg & Hall)].
      * left. exists k. repeat split; [lia | lia | exact Eg | exact Hfree |].
        intros m Hm. destruct (Nat.eq_dec m j) as [->|Hne]; [exact Ej|].
        apply Hbelow. lia.
      * right. split; [exact Eg|]. intros m Hm.
        destruct (Nat.eq_dec m j) as [->|Hne]; [exact Ej|]. apply Hall. lia.
    + left. exists j. repeat split; [lia | lia | exact Ej |].
      intros m Hm. lia.
Qed.

Lemma generateId_free (lib : Library) (name : string) :
  exists k, (k <= length (notebooks lib))%nat
    /\ generateId lib name = Some (candidateId (slug name) k)
    /\ hasId lib (candidateId (slug name) k) = false
    /\ forall m, (m < k)%nat -> hasId lib (candidateId (slug name) m) = true.
Proof.
  unfold generateId.
  destruct (generateIdFrom_first_free lib (slug name)
              (S (length (notebooks lib))) 0)
    as [(k & Hk & Eg & Hfree & Hbelow) | (_ & Hall)].
  - exists k. repeat split; [lia | exact Eg | exact Hfree |].
    intros m Hm. apply Hbelow. lia.
  - exfalso. apply (candidates_not_all_taken lib (slug name)).
    intros j Hj. apply Hall. lia.
Qed.

(** X21 ([generateId], notebook-library.ts): for every library and every
    name the uniqueness loop ends, within one test more than there are
    notebooks; the id returned is the first of the slug, slug-1, slug-2,
    ... that no notebook of the library has, so it is an id that is not
    in the library. *)
Theorem generateId_first_free (lib : Library) (name : string) :
  exists k, (k <= length (notebooks lib))%nat
    /\ generateId lib name = Some (candidateId (slug name) k)
    /\ hasId lib (candidateId (slug name) k) = false
    /\ forall m, (m < k)%nat -> hasId lib (candidateId (slug name) m) = true.
Proof. exact (generateId_free lib name). Qed.

(** *** The base of the ids *)

Lemma isSlugChar_not_dash (c : ascii) : isSlugChar c = true -> isDash c = false.
Proof. unfold isSlugChar, isDash. cbv zeta. lia. Qed.

Lemma dashRuns_shape (s : string) (inRun : bool) :
  allChars slugOrDash (dashRuns inRun s) = true
  /\ noDoubleDash (dashRuns inRun s) = true
  /\ (inRun = true -> startsWithDash (dashRuns inRun s) = false).
Proof.
  revert inRun. induction s as [|c r IH]; intros inRun; [now simpl|].
  cbn [dashRuns]. destruct (isSlugChar c) eqn:Ec.
  - destruct (IH false) as (Ha & Hd & _). cbn [allChars noDoubleDash startsWithDash].
    unfold slugOrDash at 1. rewrite Ec, Ha, Hd, (isSlugChar_not_dash c Ec).
    now simpl.
  - destruct (IH true) as (Ha & Hd & Hs). specialize (Hs eq_refl).
    destruct inRun; [tauto|].
    cbn [allChars noDoubleDash startsWithDash]. rewrite Ha, Hd, Hs.
    split; [reflexivity|split; [reflexivity|]]. intros H; discriminate H.
Qed.

Lemma stripLeadingDashes_shape (s : string) :
  (allChars slugOrDash s = true ->
   allChars slugOrDash (stripLeadingDashes s) = true)
  /\ (noDoubleDash s = true -> noDoubleDash (stripLeadingDashes s) = true)
  /\ startsWithDash (stripLeadingDashes s) = false.
Proof.
  induction s as [|c r (IHa & IHd & IHs)]; [now simpl|].
  cbn [stripLeadingDashes]. destruct (isDash c) eqn:Ec.
  - split; [|split; [|exact IHs]].
    + cbn [allChars]. intros H. apply andb_true_iff in H. now apply IHa.
    + cbn [noDoubleDash]. intros H. apply andb_true_iff in H. now apply IHd.
  - split; [tauto|split; [tauto|]]. simpl. exact Ec.
Qed.

Lemma stripTrailingDashes_head (s : string) :
  startsWithDash (stripTrailingDashes s) = true -> startsWithDash s = true.
Proof.
  destruct s as [|c r]; [now simpl|]. cbn [stripTrailingDashes].
  destruct (stripTrailingDashes r); [destruct (isDash c) eqn:Ec|]; simpl;
    intros H; congruence.
Qed.

Lemma stripTrailingDashes_shape (s : string) :
  (allChars slugOrDash s = true ->
   allChars slugOrDash (stripTrailingDashes s) = true)
  /\ (noDoubleDash s = true -> noDoubleDash (stripTrailingDashes s) = true).
Proof.
  induction s as [|c r (IHa & IHd)]; [now simpl|].
  pose proof (stripTrailingDashes_head r) as Hh.
  cbn [stripTrailingDashes].
  destruct (stripTrailingDashes r) as [|d r'] eqn:Er.
  - destruct (isDash c) eqn:Ec; [now simpl|]. split.
    + cbn [allChars]. intros H. apply andb_true_iff in H.
      destruct H as [H _]. now rewrite H.
    + intros _. cbn [noDoubleDash startsWithDash]. now rewrite andb_false_r.
  - split.
    + cbn [allChars] in *. intros H. apply andb_true_iff in H.
      destruct H as [H1 H2]. rewrite H1. now apply IHa.
    + cbn [noDoubleDash] in *. intros H. apply andb_true_iff in H.
      destruct H as [H1 H2]. rewrite (IHd H2), andb_true_r.
      apply negb_true_iff. apply negb_true_iff in H1.
      destruct (isDash c); [|reflexivity]. simpl in *.
      destruct (isDash d) eqn:Ed; [|reflexivity].
      rewrite Hh in H1; [discriminate H1 | reflexivity].
Qed.

Lemma substring0_head (n : nat) (s : string) :
  startsWithDash (substring0 n s) = true -> startsWithDash s = true.
Proof. destruct n, s; simpl; congruence. Qed.

Lemma substring0_shape (n : nat) (s : string) :
  (String.length (substring0 n s) <= n)%nat
  /\ (allChars slugOrDash s = true ->
      allChars slugOrDash (substring0 n s) = true)
  /\ (noDoubleDash s = true -> noDoubleDash (substring0 n s) = true).
Proof.
  revert s. induction n as [|n IH]; intros s; [simpl; auto with arith|].
  destruct s as [|c r]; [simpl; auto with arith|].
  destruct (IH r) as (Hl & Ha & Hd). cbn [substring0].
  split; [|split].
  - simpl. lia.
  - cbn [allChars]. intros H. apply andb_true_iff in H.
    destruct H as [H1 H2]. now rewrite H1, Ha.
  - cbn [noDoubleDash]. intros H. apply andb_true_iff in H.
    destruct H as [H1 H2]. rewrite (Hd H2), andb_true_r.
    apply negb_true_iff. apply negb_true_iff in H1.
    destruct (isDash c); [|reflexivity]. simpl in *.
    destruct (startsWithDash (substring0 n r)) eqn:Es; [|reflexivity].
    now rewrite (substring0_head n r Es) in H1.
Qed.

(** X22 ([generateId], notebook-library.ts): the base of every generated
    id, for every name, has at most 30 characters, each of them a letter
    of [a-z], a digit or a dash; it does not start with a dash and has no
    two dashes in a row.  (It may end with a dash: the trailing dashes
    are removed before the cut at 30 characters.) *)
Theorem slug_shape (name : string) :
  (String.length (slug name) <= 30)%nat
  /\ allChars slugOrDash (slug name) = true
  /\ startsWithDash (slug name) = false
  /\ noDoubleDash (slug name) = true.
Proof.
  unfold slug, stripDashes.
  set (d := dashRuns false (toLowerCase name)).
  destruct (dashRuns_shape (toLowerCase name) false) as (Ha & Hd & _).
  fold d in Ha, Hd.
  destruct (stripLeadingDashes_shape d) as (La & Ld & Ls).
  destruct (stripTrailingDashes_shape (stripLeadingDashes d)) as (Ta & Td).
  destruct (substring0_shape 30 (stripTrailingDashes (stripLeadingDashes d)))
    as (Sl & Sa & Sd).
  split; [exact Sl|]. split; [now apply Sa, Ta, La|].
  split; [|now apply Sd, Td, Ld].
  destruct (startsWithDash (substring0 30 _)) eqn:E; [|reflexivity].
  apply substring0_head, stripTrailingDashes_head in E. congruence.
Qed.

(** *** Looking up, adding, changing and removing *)

Lemma findId_some (i : string) (l : list NotebookEntry) (n : NotebookEntry) :
  findId i l = Some n -> In n l /\ id n = i.
Proof.
  unfold findId. intros H. apply List.find_some in H. destruct H as [Hin E].
  split; [exact Hin|now apply String.eqb_eq].
Qed.

Lemma findId_none (i : string) (l : list NotebookEntry) :
  findId i l = None <-> ~ In i (List.map id l).
Proof.
  unfold findId. induction l as [|n l IH]; simpl; [tauto|].
  destruct (String.eqb (id n) i) eqn:E.
  - apply String.eqb_eq in E. split; [discriminate|tauto].
  - apply String.eqb_neq in E. tauto.
Qed.

Lemma getNotebook_hasId (lib : Library) (i : string) :
  hasId lib i = true <-> exists n, getNotebook lib i = Some n.
Proof.
  rewrite hasId_In.
  change (getNotebook lib i) with (findId i (notebooks lib)).
  destruct (findId i (notebooks lib)) as [n|] eqn:E.
  - split; [now exists n|]. intros _. apply findId_some in E.
    destruct E as [Hin <-]. now apply in_map.
  - apply findId_none in E. split; [tauto|]. now intros [n Hn].
Qed.

Lemma findId_app_other (i : string) (l : list NotebookEntry)
    (e : NotebookEntry) :
  id e <> i -> findId i (l ++ [e]) = findId i l.
Proof.
  unfold findId. intros Hne. induction l as [|n l IH]; simpl.
  - apply String.eqb_neq in Hne. now rewrite Hne.
  - now destruct (String.eqb (id n) i).
Qed.

Lemma findId_app_fresh (l : list NotebookEntry) (e : NotebookEntry) :
  ~ In (id e) (List.map id l) -> findId (id e) (l ++ [e]) = Some e.
Proof.
  unfold findId. induction l as [|n l IH]; simpl; intros H.
  - now rewrite String.eqb_refl.
  - destruct (String.eqb (id n) (id e)) eqn:E.
    + apply String.eqb_eq in E. tauto.
    + apply IH. tauto.
Qed.

Lemma findIndex_found (i : string) (l : list NotebookEntry) :
  match findIndex i l with
  | Some k => exists n, l !! k = Some n /\ findId i l = Some n
  | None => findId i l = None
  end.
Proof.
  unfold findId. induction l as [|n l IH]; simpl; [reflexivity|].
  destruct (String.eqb (id n) i) eqn:E.
  - now exists n.
  - destruct (findIndex i l) as [k|]; [|exact IH].
    destruct IH as (m & Hk & Hf). now exists m.
Qed.

(** Assigning at the index of an id an entry of the same id. *)
Lemma assign_at_index (i : string) (l : list NotebookEntry) (k : nat)
    (e : NotebookEntry) :
  findIndex i l = Some k -> id e = i ->
  findId i (<[k := e]> l) = Some e
  /\ (forall j, j <> i -> findId j (<[k := e]> l) = findId j l)
  /\ List.map id (<[k := e]> l) = List.map id l
  /\ length (<[k := e]> l) = length l.
Proof.
  unfold findId. intros Hk He. subst i. revert k Hk.
  induction l as [|n l IH]; intros k Hk; [discriminate Hk|].
  simpl in Hk. destruct (String.eqb (id n) (id e)) eqn:E.
  - injection Hk as <-. apply String.eqb_eq in E. simpl.
    rewrite String.eqb_refl. split; [reflexivity|].
    split; [|split; [now rewrite E|reflexivity]].
    intros j Hj. rewrite E.
    destruct (String.eqb (id e) j) eqn:Ej; [|reflexivity].
    apply String.eqb_eq in Ej. congruence.
  - destruct (findIndex (id e) l) as [k'|]; [|discriminate Hk].
    injection Hk as <-. destruct (IH k' eq_refl) as (H1 & H2 & H3 & H4).
    simpl. rewrite E. split; [exact H1|].
    split; [|split; [now rewrite H3|now rewrite H4]].
    intros j Hj. destruct (String.eqb (id n) j); [reflexivity|].
    now apply H2.
Qed.

Lemma findId_filter_same (i : string) (l : list NotebookEntry) :
  findId i (List.filter (fun n => negb (String.eqb (id n) i)) l) = None.
Proof.
  unfold findId. induction l as [|n l IH]; simpl; [reflexivity|].
  destruct (String.eqb (id n) i) eqn:E; simpl; [exact IH|].
  now rewrite E.
Qed.

Lemma findId_filter_other (i j : string) (l : list NotebookEntry) :
  j <> i ->
  findId j (List.filter (fun n => negb (String.eqb (id n) i)) l) = findId j l.
Proof.
  unfold findId. intros Hne. induction l as [|n l IH]; simpl; [reflexivity|].
  destruct (String.eqb (id n) i) eqn:E; simpl.
  - apply String.eqb_eq in E.
    destruct (String.eqb (id n) j) eqn:Ej; [|exact IH].
    apply String.eqb_eq in Ej. congruence.
  - destruct (String.eqb (id n) j); [reflexivity|exact IH].
Qed.

Lemma same_library (lib : Library) :
  mkLibrary (notebooks lib) (active_notebook_id lib) (last_modified lib)
            (version lib) = lib.
Proof. now destruct lib. Qed.

Lemma addNotebook_steps (lib : Library) (input : AddNotebookInput) (w : Disk) :
  exists i,
    hasId lib i = false
    /\ addNotebook lib input w
       = Some (saveLibrary lib w (notebooks lib ++ [newEntry i input w])
                 (mkLibrary (notebooks lib ++ [newEntry i input w])
                    (match notebooks lib with
                     | [] => Some i
                     | _ :: _ => active_notebook_id lib
                     end)
                    (last_modified lib) (version lib))
                 2 (newEntry i input w))
    /\ getNotebook
         (mkLibrary (notebooks lib ++ [newEntry i input w]) None "" "") i
       = Some (newEntry i input w)
    /\ forall j, j <> i ->
         findId j (notebooks lib ++ [newEntry i input w])
         = findId j (notebooks lib).
Proof.
  destruct (generateId_free lib (add_name input))
    as (k & _ & Eg & Hfree & _).
  exists (candidateId (slug (add_name input)) k).
  split; [exact Hfree|]. split; [|split].
  - unfold addNotebook. rewrite Eg. cbv zeta. do 3 f_equal.
    rewrite length_app. simpl.
    destruct (notebooks lib) as [|n l]; simpl; [reflexivity|].
    destruct (length l + 1 =? 0)%nat eqn:E; [|reflexivity].
    apply Nat.eqb_eq in E. lia.
  - change (getNotebook ?l ?i) with (findId i (notebooks l)). cbn [notebooks].
    apply (findId_app_fresh (notebooks lib)
             (newEntry (candidateId (slug (add_name input)) k) input w)).
    cbn [id newEntry]. intros Hin. apply hasId_In in Hin. congruence.
  - intros j Hj. apply findId_app_other. cbn [id newEntry]. congruence.
Qed.

(** X23 ([addNotebook], notebook-library.ts): when the file is written,
    [addNotebook] returns the new entry under an id that no notebook of
    the library had; the entry is appended to the notebooks and is what
    [getNotebook] returns for that id, every other id is looked up as
    before, the new notebook becomes the active one exactly when the
    library was empty, and [last_modified] is the time of the save. *)
Theorem addNotebook_registers (lib : Library) (input : AddNotebookInput)
    (w : Disk) (u : unit) (Hw : writeFile w = Resolved u) :
  exists i lib',
    hasId lib i = false
    /\ addNotebook lib input w = Some (Resolved (newEntry i input w), lib')
    /\ notebooks lib' = notebooks lib ++ [newEntry i input w]
    /\ getNotebook lib' i = Some (newEntry i input w)
    /\ (forall j, j <> i -> getNotebook lib' j = getNotebook lib j)
    /\ active_notebook_id lib'
       = match notebooks lib with
         | [] => Some i
         | _ :: _ => active_notebook_id lib
         end
    /\ last_modified lib' = isoNow w 2.
Proof.
  destruct (addNotebook_steps lib input w) as (i & Hfree & Ea & Hg & Ho).
  exists i. eexists. split; [exact Hfree|].
  unfold saveLibrary in Ea. rewrite Hw in Ea. cbn [notebooks active_notebook_id version] in Ea.
  split; [exact Ea|]. cbn [notebooks active_notebook_id last_modified].
  repeat split; [exact Hg | exact Ho].
Qed.

Lemma addNotebook_registers_witness :
  writeFile writableDisk = Resolved tt
  /\ exists i lib',
       hasId twoNotebooks i = false
       /\ addNotebook twoNotebooks reactInput writableDisk
          = Some (Resolved (newEntry i reactInput writableDisk), lib')
       /\ notebooks lib'
          = notebooks twoNotebooks ++ [newEntry i reactInput writableDisk]
       /\ getNotebook lib' i = Some (newEntry i reactInput writableDisk)
       /\ (forall j, j <> i -> getNotebook lib' j = getNotebook twoNotebooks j)
       /\ active_notebook_id lib'
          = match notebooks twoNotebooks with
            | [] => Some i
            | _ :: _ => active_notebook_id twoNotebooks
            end
       /\ last_modified lib' = isoNow writableDisk 2.
Proof.
  split; [reflexivity|].
  apply (addNotebook_registers twoNotebooks reactInput writableDisk tt).
  reflexivity.
Defined.

Lemma selectNotebook_steps (lib : Library) (i : string) (w : Disk)
    (n : NotebookEntry) :
  getNotebook lib i = Some n ->
  exists k,
    findIndex i (notebooks lib) = Some k
    /\ notebooks lib !! k = Some n
    /\ id n = i
    /\ selectNotebook lib i w
       = saveLibrary lib w (<[k := touch n (isoNow w 0%nat)]> (notebooks lib))
           (mkLibrary (<[k := touch n (isoNow w 0%nat)]> (notebooks lib))
              (Some i) (last_modified lib) (version lib))
           1 (touch n (isoNow w 0%nat)).
Proof.
  intros Hg. unfold selectNotebook. rewrite Hg. cbv zeta.
  pose proof (findIndex_found i (notebooks lib)) as Hf.
  change (getNotebook lib i) with (findId i (notebooks lib)) in Hg.
  destruct (findIndex i (notebooks lib)) as [k|]; [|congruence].
  destruct Hf as (m & Hk & Hm). assert (m = n) by congruence. subst m.
  exists k. repeat split; try assumption.
  now apply findId_some in Hg.
Qed.

Lemma updateNotebook_steps (lib : Library) (input : UpdateNotebookInput)
    (w : Disk) (n : NotebookEntry) :
  getNotebook lib (upd_id input) = Some n ->
  exists k,
    findIndex (upd_id input) (notebooks lib) = Some k
    /\ notebooks lib !! k = Some n
    /\ id n = upd_id input
    /\ updateNotebook lib input w
       = saveLibrary lib w (<[k := updatedEntry n input]> (notebooks lib))
           (mkLibrary (<[k := updatedEntry n input]> (notebooks lib))
              (active_notebook_id lib) (last_modified lib) (version lib))
           0 (updatedEntry n input).
Proof.
  intros Hg. unfold updateNotebook. rewrite Hg. cbv zeta.
  pose proof (findIndex_found (upd_id input) (notebooks lib)) as Hf.
  change (getNotebook lib (upd_id input))
    with (findId (upd_id input) (notebooks lib)) in Hg.
  destruct (findIndex (upd_id input) (notebooks lib)) as [k|]; [|congruence].
  destruct Hf as (m & Hk & Hm). assert (m = n) by congruence. subst m.
  exists k. repeat split; try assumption.
  now apply findId_some in Hg.
Qed.

Lemma incrementUseCount_steps (lib : Library) (i : string) (w : Disk)
    (n : NotebookEntry) :
  getNotebook lib i = Some n ->
  exists k,
    findIndex i (notebooks lib) = Some k
    /\ notebooks lib !! k = Some n
    /\ id n = i
    /\ incrementUseCount lib i w
       = saveLibrary lib w (<[k := used n (isoNow w 0%nat)]> (notebooks lib))
           (mkLibrary (<[k := used n (isoNow w 0%nat)]> (notebooks lib))
              (active_notebook_id lib) (last_modified lib) (version lib))
           1 (Some (used n (isoNow w 0%nat))).
Proof.
  intros Hg. unfold incrementUseCount.
  pose proof (findIndex_found i (notebooks lib)) as Hf.
  change (getNotebook lib i) with (findId i (notebooks lib)) in Hg.
  destruct (findIndex i (notebooks lib)) as [k|]; [|congruence].
  destruct Hf as (m & Hk & Hm). assert (m = n) by congruence. subst m.
  exists k. rewrite Hk. repeat split; try assumption.
  now apply findId_some in Hg.
Qed.

Lemma incrementUseCount_absent (lib : Library) (i : string) (w : Disk) :
  getNotebook lib i = None -> incrementUseCount lib i w = (Resolved None, lib).
Proof.
  intros Hg. unfold incrementUseCount.
  pose proof (findIndex_found i (notebooks lib)) as Hf.
  change (getNotebook lib i) with (findId i (notebooks lib)) in Hg.
  destruct (findIndex i (notebooks lib)) as [k|]; [|reflexivity].
  destruct Hf as (m & Hk & Hm). congruence.
Qed.

(** The library after [saveLibrary]. *)
Lemma saveLibrary_library {A : Type} (lib : Library) (w : Disk)
    (shared : list NotebookEntry) (updated : Library) (reading : nat)
    (value : A) :
  snd (saveLibrary lib w shared updated reading value)
  = match writeFile w with
    | Resolved _ =>
        mkLibrary (notebooks updated) (active_notebook_id updated)
                  (isoNow w reading) (version updated)
    | Rejected _ =>
        mkLibrary shared (active_notebook_id lib) (last_modified lib)
                  (version lib)
    end.
Proof. unfold saveLibrary. now destruct (writeFile w). Qed.

Lemma sound_same_ids (lib : Library) (l : list NotebookEntry)
    (a : option string) (m v : string) :
  soundLibrary lib ->
  List.map id l = List.map id (notebooks lib) ->
  (a = active_notebook_id lib \/ exists i, a = Some i /\ hasId lib i = true) ->
  soundLibrary (mkLibrary l a m v).
Proof.
  intros [Hnd Hact] Hids Ha. split.
  - cbn [notebooks]. now rewrite Hids.
  - cbn [active_notebook_id]. intros b Hb.
    apply hasId_In. cbn [notebooks]. rewrite Hids.
    apply hasId_In.
    destruct Ha as [-> | (i & -> & Hi)]; [now apply Hact|].
    now injection Hb as <-.
Qed.

Lemma sound_assigned (lib : Library) (w : Disk) (i : string) (k : nat)
    (e : NotebookEntry) (a : option string) (reading : nat) {A : Type}
    (value : A) :
  soundLibrary lib ->
  findIndex i (notebooks lib) = Some k -> id e = i ->
  (a = active_notebook_id lib \/ a = Some i) ->
  soundLibrary
    (snd (saveLibrary lib w (<[k := e]> (notebooks lib))
            (mkLibrary (<[k := e]> (notebooks lib)) a (last_modified lib)
                       (version lib)) reading value)).
Proof.
  intros Hs Hk He Ha. rewrite saveLibrary_library.
  destruct (assign_at_index i (notebooks lib) k e Hk He) as (H1 & _ & H3 & _).
  assert (Hi : hasId lib i = true).
  { apply hasId_In. rewrite <- H3.
    apply findId_some in H1. destruct H1 as [Hin <-]. now apply in_map. }
  destruct (writeFile w) as [u|err]; cbn [notebooks active_notebook_id version];
    apply (sound_same_ids lib); try assumption.
  - destruct Ha as [->| ->]; [now left|right; now exists i].
  - now left.
Qed.

Lemma NoDup_map_filter {A B : Type} (f : A -> B) (p : A -> bool) (l : list A) :
  List.NoDup (List.map f l) -> List.NoDup (List.map f (List.filter p l)).
Proof.
  induction l as [|x l IH]; simpl; intros H; [exact H|].
  apply List.NoDup_cons_iff in H. destruct H as [Hx Hl].
  destruct (p x); simpl; [|now apply IH].
  apply List.NoDup_cons_iff. split; [|now apply IH].
  intros Hin. apply Hx. apply in_map_iff in Hin.
  destruct Hin as (y & <- & Hy). apply filter_In in Hy. apply in_map. tauto.
Qed.

Lemma removeNotebook_sound (lib : Library) (i : string) (w : Disk) :
  soundLibrary lib -> soundLibrary (snd (removeNotebook lib i w)).
Proof.
  intros Hs. unfold removeNotebook.
  destruct (getNotebook lib i) as [n|]; [|exact Hs]. cbv zeta.
  rewrite saveLibrary_library.
  destruct (writeFile w) as [u|err]; [|destruct lib; exact Hs].
  cbn [notebooks active_notebook_id version].
  destruct Hs as [Hnd Hact]. split; cbn [notebooks active_notebook_id].
  - now apply NoDup_map_filter.
  - intros b Hb. apply hasId_In. cbn [notebooks].
    destruct (active_notebook_id lib) as [a0|]; [|discriminate Hb].
    destruct (String.eqb a0 i) eqn:E.
    + destruct (List.filter _ (notebooks lib)) as [|f rest];
        [discriminate Hb|]. injection Hb as <-. now left.
    + injection Hb as <-. apply String.eqb_neq in E.
      specialize (Hact a0 eq_refl). apply hasId_In in Hact.
      apply in_map_iff in Hact. destruct Hact as (x & <- & Hx).
      apply in_map, filter_In. split; [exact Hx|].
      apply negb_true_iff, String.eqb_neq. exact E.
Qed.

Lemma addNotebook_sound (lib : Library) (input : AddNotebookInput) (w : Disk) :
  soundLibrary lib ->
  exists r lib', addNotebook lib input w = Some (r, lib') /\ soundLibrary lib'.
Proof.
  intros [Hnd Hact].
  destruct (addNotebook_steps lib input w) as (i & Hfree & Ea & _ & _).
  rewrite Ea.
  destruct (saveLibrary lib w _ _ 2%nat (newEntry i input w)) as [r lib'] eqn:Es.
  exists r, lib'. split; [reflexivity|].
  change lib' with (snd (r, lib')). rewrite <- Es, saveLibrary_library.
  assert (Hids : List.NoDup (List.map id (notebooks lib ++ [newEntry i input w]))).
  { rewrite map_app. simpl. apply List.NoDup_app; [exact Hnd| |].
    - apply List.NoDup_cons; [intros []|apply List.NoDup_nil].
    - intros x Hx [<-|[]]. apply hasId_In in Hx. congruence. }
  assert (Hold : forall a, hasId lib a = true ->
            In a (List.map id (notebooks lib ++ [newEntry i input w]))).
  { intros a Ha. rewrite map_app. apply in_or_app. left.
    now apply hasId_In. }
  destruct (writeFile w) as [u|err]; split; cbn [notebooks active_notebook_id];
    try exact Hids; intros a Ha; apply hasId_In; cbn [notebooks].
  - destruct (notebooks lib) as [|n l] eqn:El.
    + injection Ha as <-. simpl. now left.
    + rewrite <- El in *. apply Hold. now apply Hact.
  - apply Hold. now apply Hact.
Qed.

Lemma sound_twoNotebooks : soundLibrary twoNotebooks.
Proof.
  split.
  - simpl. repeat constructor; simpl; intuition discriminate.
  - intros a Ha. injection Ha as <-. reflexivity.
Qed.

Lemma selectNotebook_sound (lib : Library) (i : string) (w : Disk) :
  soundLibrary lib -> soundLibrary (snd (selectNotebook lib i w)).
Proof.
  intros Hs. destruct (getNotebook lib i) as [n|] eqn:Hg.
  - destruct (selectNotebook_steps lib i w n Hg) as (k & Hk & _ & Hi & ->).
    apply (sound_assigned lib w i); [exact Hs | exact Hk | exact Hi | now right].
  - unfold selectNotebook. now rewrite Hg.
Qed.

Lemma updateNotebook_sound (lib : Library) (input : UpdateNotebookInput)
    (w : Disk) :
  soundLibrary lib -> soundLibrary (snd (updateNotebook lib input w)).
Proof.
  intros Hs. destruct (getNotebook lib (upd_id input)) as [n|] eqn:Hg.
  - destruct (updateNotebook_steps lib input w n Hg) as (k & Hk & _ & Hi & ->).
    apply (sound_assigned lib w (upd_id input));
      [exact Hs | exact Hk | exact Hi | now left].
  - unfold updateNotebook. now rewrite Hg.
Qed.

Lemma incrementUseCount_sound (lib : Library) (i : string) (w : Disk) :
  soundLibrary lib -> soundLibrary (snd (incrementUseCount lib i w)).
Proof.
  intros Hs. destruct (getNotebook lib i) as [n|] eqn:Hg.
  - destruct (incrementUseCount_steps lib i w n Hg) as (k & Hk & _ & Hi & ->).
    apply (sound_assigned lib w i); [exact Hs | exact Hk | exact Hi | now left].
  - now rewrite incrementUseCount_absent.
Qed.

(** X24 ([addNotebook], [selectNotebook], [updateNotebook],
    [removeNotebook], [incrementUseCount], notebook-library.ts): in a
    library whose ids are distinct and whose active id, if any, is the id
    of one of its notebooks, both stay so after each of the five calls
    that change the library, for every argument and whether or not the
    file can be written; [addNotebook] always ends. *)
Theorem library_stays_sound (lib : Library) (w : Disk)
    (Hs : soundLibrary lib) :
  (forall input, exists r lib',
      addNotebook lib input w = Some (r, lib') /\ soundLibrary lib')
  /\ (forall i, soundLibrary (snd (selectNotebook lib i w)))
  /\ (forall input, soundLibrary (snd (updateNotebook lib input w)))
  /\ (forall i, soundLibrary (snd (removeNotebook lib i w)))
  /\ (forall i, soundLibrary (snd (incrementUseCount lib i w))).
Proof.
  split; [intros input; now apply addNotebook_sound|].
  split; [intros i; now apply selectNotebook_sound|].
  split; [intros input; now apply updateNotebook_sound|].
  split; [intros i; now apply removeNotebook_sound|].
  intros i; now apply incrementUseCount_sound.
Qed.

Lemma library_stays_sound_witness :
  soundLibrary twoNotebooks
  /\ (forall input, exists r lib',
         addNotebook twoNotebooks input fullDisk = Some (r, lib')
         /\ soundLibrary lib')
  /\ (forall i, soundLibrary (snd (selectNotebook twoNotebooks i fullDisk)))
  /\ (forall input,
         soundLibrary (snd (updateNotebook twoNotebooks input fullDisk)))
  /\ (forall i, soundLibrary (snd (removeNotebook twoNotebooks i fullDisk)))
  /\ (forall i,
         soundLibrary (snd (incrementUseCount twoNotebooks i fullDisk))).
Proof.
  split; [exact sound_twoNotebooks|].
  apply (library_stays_sound twoNotebooks fullDisk). exact sound_twoNotebooks.
Defined.

(** X25 ([removeNotebook], notebook-library.ts): for an id that is not
    in the library [removeNotebook] returns false and changes nothing.
    For an id that is, and a file that is written, it returns true; the
    id is no longer found, every other id is looked up as before, and the
    active id, if it was the removed one, becomes the id of the first
    notebook left (none if no notebook is left) and is kept otherwise. *)
Theorem removeNotebook_removes (lib : Library) (i : string) (w : Disk)
    (u : unit) (Hw : writeFile w = Resolved u) :
  match getNotebook lib i with
  | None => removeNotebook lib i w = (Resolved false, lib)
  | Some _ =>
      exists lib',
        removeNotebook lib i w = (Resolved true, lib')
        /\ getNotebook lib' i = None
        /\ (forall j, j <> i -> getNotebook lib' j = getNotebook lib j)
        /\ active_notebook_id lib'
           = (if bool_decide (active_notebook_id lib = Some i)
              then option_map id (head (notebooks lib'))
              else active_notebook_id lib)
        /\ last_modified lib' = isoNow w 0
  end.
Proof.
  unfold removeNotebook. destruct (getNotebook lib i) as [n|]; [|reflexivity].
  cbv zeta. unfold saveLibrary. rewrite Hw.
  cbn [notebooks active_notebook_id version]. eexists. split; [reflexivity|].
  cbn [notebooks active_notebook_id last_modified].
  split; [apply findId_filter_same|].
  split; [intros j Hj; now apply findId_filter_other|].
  split; [|reflexivity].
  destruct (active_notebook_id lib) as [a|].
  - destruct (String.eqb a i) eqn:E.
    + apply String.eqb_eq in E. subst a. rewrite bool_decide_eq_true_2 by reflexivity.
      now destruct (List.filter _ (notebooks lib)).
    + apply String.eqb_neq in E. rewrite bool_decide_eq_false_2; [reflexivity|].
      congruence.
  - rewrite bool_decide_eq_false_2; [reflexivity|discriminate].
Qed.

Lemma removeNotebook_removes_witness :
  writeFile writableDisk = Resolved tt
  /\ match getNotebook twoNotebooks "n8n-docs" with
     | None =>
         removeNotebook twoNotebooks "n8n-docs" writableDisk
         = (Resolved false, twoNotebooks)
     | Some _ =>
         exists lib',
           removeNotebook twoNotebooks "n8n-docs" writableDisk
           = (Resolved true, lib')
           /\ getNotebook lib' "n8n-docs" = None
           /\ (forall j, j <> "n8n-docs" ->
                 getNotebook lib' j = getNotebook twoNotebooks j)
           /\ active_notebook_id lib'
              = (if bool_decide
                      (active_notebook_id twoNotebooks = Some "n8n-docs")
                 then option_map id (head (notebooks lib'))
                 else active_notebook_id twoNotebooks)
           /\ last_modified lib' = isoNow writableDisk 0
     end.
Proof.
  split; [reflexivity|].
  apply (removeNotebook_removes twoNotebooks "n8n-docs" writableDisk tt).
  reflexivity.
Defined.

Lemma total_shift (l : list NotebookEntry) (a : Z) :
  fold_left (fun sum n => sum + use_count n) l a
  = a + fold_left (fun sum n => sum + use_count n) l 0.
Proof.
  revert a. induction l as [|n l IH]; intros a; cbn [fold_left]; [lia|].
  rewrite (IH (a + use_count n)), (IH (0 + use_count n)). lia.
Qed.

Lemma total_assigned (l : list NotebookEntry) (k : nat) (n e : NotebookEntry) :
  l !! k = Some n ->
  fold_left (fun sum x => sum + use_count x) (<[k := e]> l) 0
  = fold_left (fun sum x => sum + use_count x) l 0
    + use_count e - use_count n.
Proof.
  revert k. induction l as [|x l IH]; intros k Hk; [discriminate Hk|].
  destruct k as [|k]; simpl in Hk.
  - injection Hk as ->. change (<[0%nat := e]> (n :: l)) with (e :: l).
    cbn [fold_left]. rewrite (total_shift l (0 + use_count e)),
      (total_shift l (0 + use_count n)). lia.
  - change (<[S k := e]> (x :: l)) with (x :: <[k := e]> l).
    cbn [fold_left]. rewrite (total_shift _ (0 + use_count x)),
      (total_shift l (0 + use_count x)), (IH k Hk). lia.
Qed.

(** X26 ([incrementUseCount], [getStats], notebook-library.ts): for an
    id that is not in the library [incrementUseCount] returns null and
    changes nothing.  For an id that is, and a file that is written, it
    returns the entry with its use count raised by one and [last_used]
    set, which is then what [getNotebook] returns for the id; the other
    ids are looked up as before, and in [getStats] the total of the
    queries is one more and the number of notebooks the same. *)
Theorem incrementUseCount_counts (lib : Library) (i : string) (w : Disk)
    (u : unit) (Hw : writeFile w = Resolved u) :
  match getNotebook lib i with
  | None => incrementUseCount lib i w = (Resolved None, lib)
  | Some n =>
      exists lib',
        incrementUseCount lib i w
        = (Resolved (Some (used n (isoNow w 0%nat))), lib')
        /\ getNotebook lib' i = Some (used n (isoNow w 0%nat))
        /\ (forall j, j <> i -> getNotebook lib' j = getNotebook lib j)
        /\ total_queries (getStats lib') = total_queries (getStats lib) + 1
        /\ total_notebooks (getStats lib') = total_notebooks (getStats lib)
  end.
Proof.
  destruct (getNotebook lib i) as [n|] eqn:Hg;
    [|now apply incrementUseCount_absent].
  destruct (incrementUseCount_steps lib i w n Hg) as (k & Hk & Hn & Hi & ->).
  unfold saveLibrary. rewrite Hw. cbn [notebooks active_notebook_id version].
  eexists. split; [reflexivity|].
  destruct (assign_at_index i (notebooks lib) k (used n (isoNow w 0%nat)) Hk Hi)
    as (H1 & H2 & _ & H4).
  split; [exact H1|]. split; [exact H2|].
  unfold getStats. cbn [total_queries total_notebooks notebooks].
  split; [|exact H4].
  rewrite (total_assigned _ k n _ Hn). cbn [use_count used]. lia.
Qed.

Lemma incrementUseCount_counts_witness :
  writeFile writableDisk = Resolved tt
  /\ match getNotebook twoNotebooks "react" with
     | None =>
         incrementUseCount twoNotebooks "react" writableDisk
         = (Resolved None, twoNotebooks)
     | Some n =>
         exists lib',
           incrementUseCount twoNotebooks "react" writableDisk
           = (Resolved (Some (used n (isoNow writableDisk 0%nat))), lib')
           /\ getNotebook lib' "react"
              = Some (used n (isoNow writableDisk 0%nat))
           /\ (forall j, j <> "react" ->
                 getNotebook lib' j = getNotebook twoNotebooks j)
           /\ total_queries (getStats lib')
              = total_queries (getStats twoNotebooks) + 1
           /\ total_notebooks (getStats lib')
              = total_notebooks (getStats twoNotebooks)
     end.
Proof.
  split; [reflexivity|].
  apply (incrementUseCount_counts twoNotebooks "react" writableDisk tt).
  reflexivity.
Defined.

Lemma fold_moreUsed (l : list NotebookEntry) (acc : option NotebookEntry) :
  (forall a, acc = Some a -> 0 < use_count a) ->
  match fold_left moreUsed l acc with
  | Some m =>
      0 < use_count m
      /\ (forall n, In n l -> use_count n <= use_count m)
      /\ (forall a, acc = Some a -> use_count a <= use_count m)
      /\ (acc = Some m
          \/ (forall a, acc = Some a -> use_count a < use_count m)
             /\ exists before after,
                  l = before ++ m :: after
                  /\ forall n, In n before -> use_count n < use_count m)
  | None => acc = None /\ forall n, In n l -> use_count n <= 0
  end.
Proof.
  revert acc. induction l as [|x l IH]; intros acc Hpos.
  - simpl. destruct acc as [a|].
    + split; [now apply Hpos|]. split; [intros n []|].
      split; [intros b Hb; injection Hb as <-; lia|now left].
    + split; [reflexivity|intros n []].
  - cbn [fold_left]. unfold moreUsed at 2.
    set (bar := match acc with Some m => use_count m | None => 0 end).
    assert (Hbar : 0 <= bar).
    { unfold bar. destruct acc as [a|]; [|lia].
      specialize (Hpos a eq_refl). lia. }
    destruct (bar <? use_count x) eqn:E.
    + apply Z.ltb_lt in E.
      specialize (IH (Some x)).
      destruct (fold_left moreUsed l (Some x)) as [m|].
      * destruct IH as (Hm & Hall & Hacc & Hwhere).
        { intros a Ha. injection Ha as <-. lia. }
        specialize (Hacc x eq_refl).
        split; [exact Hm|]. split; [intros n [<-|Hn]; [lia|now apply Hall]|].
        split; [intros a Ha; unfold bar in E; rewrite Ha in E; lia|].
        right. split; [intros a Ha; unfold bar in E; rewrite Ha in E|].
        { destruct Hwhere as [Hx|(Hx & _)].
          - injection Hx as <-. lia.
          - specialize (Hx x eq_refl). lia. }
        destruct Hwhere as [Hx|(Hx & before & after & -> & Hb)].
        -- injection Hx as <-. exists [], l. split; [reflexivity|intros n []].
        -- exists (x :: before), after. split; [reflexivity|].
           intros n [<-|Hn]; [now apply Hx|now apply Hb].
      * destruct IH as [IH _]; [|discriminate IH].
        intros a Ha. injection Ha as <-. lia.
    + apply Z.ltb_ge in E. specialize (IH acc Hpos).
      destruct (fold_left moreUsed l acc) as [m|].
      * destruct IH as (Hm & Hall & Hacc & Hwhere).
        assert (Hx : use_count x <= use_count m).
        { unfold bar in E. destruct acc as [a|]; [|lia].
          specialize (Hacc a eq_refl). lia. }
        split; [exact Hm|]. split; [intros n [<-|Hn]; [exact Hx|now apply Hall]|].
        split; [exact Hacc|].
        destruct Hwhere as [Ha|(Ha & before & after & -> & Hb)]; [now left|].
        right. split; [exact Ha|].
        exists (x :: before), after. split; [reflexivity|].
        intros n [<-|Hn]; [|now apply Hb].
        unfold bar in E. destruct acc as [a|]; [|lia].
        specialize (Ha a eq_refl). lia.
      * destruct IH as [-> Hall]. split; [reflexivity|].
        intros n [<-|Hn]; [exact E|now apply Hall].
Qed.

(** X27 ([getStats], notebook-library.ts): the most used notebook that
    [getStats] reports is a notebook of the library with a positive use
    count and a non-empty id; every notebook before it has a strictly
    smaller use count and every notebook after it a use count that is no
    larger, so on a tie it is the first.  None is reported only when no
    notebook has a positive use count, or when a notebook has the empty
    id. *)
Theorem getStats_most_used (lib : Library) :
  match most_used_notebook (getStats lib) with
  | Some i =>
      exists m before after,
        notebooks lib = before ++ m :: after
        /\ id m = i /\ i <> "" /\ 0 < use_count m
        /\ (forall n, In n before -> use_count n < use_count m)
        /\ (forall n, In n after -> use_count n <= use_count m)
  | None =>
      (forall n, In n (notebooks lib) -> use_count n <= 0)
      \/ hasId lib "" = true
  end.
Proof.
  unfold getStats, mostUsed. cbn [most_used_notebook].
  pose proof (fold_moreUsed (notebooks lib) None) as H.
  destruct (fold_left moreUsed (notebooks lib) None) as [m|].
  - destruct H as (Hm & Hall & _ & Hwhere); [discriminate|].
    destruct Hwhere as [Hx|(_ & before & after & El & Hb)]; [discriminate Hx|].
    destruct (truthy (id m)) eqn:Et.
    + exists m, before, after. split; [exact El|]. split; [reflexivity|].
      split; [intros Ei; rewrite Ei in Et; discriminate Et|].
      split; [exact Hm|]. split; [exact Hb|].
      intros n Hn. apply Hall. rewrite El. apply in_or_app. right. now right.
    + right. apply hasId_In. rewrite El, map_app. apply in_or_app.
      right. left. destruct (id m); [reflexivity|discriminate Et].
  - left. destruct H as [_ H]; [discriminate|exact H].
Qed.

Lemma lowerChar_idempotent (c : ascii) : lowerChar (lowerChar c) = lowerChar c.
Proof. destruct c as [[] [] [] [] [] [] [] []]; vm_compute; reflexivity. Qed.

Lemma toLowerCase_idempotent (s : string) :
  toLowerCase (toLowerCase s) = toLowerCase s.
Proof.
  induction s as [|c s IH]; simpl; [reflexivity|].
  now rewrite lowerChar_idempotent, IH.
Qed.

Lemma includes_empty (s : string) : includes s "" = true.
Proof. destruct s; reflexivity. Qed.

Lemma prefix_refl (s : string) : String.prefix s s = true.
Proof.
  induction s as [|c s IH]; simpl; [reflexivity|].
  destruct (ascii_dec c c); [exact IH|congruence].
Qed.

Lemma includes_refl (s : string) : includes s s = true.
Proof.
  destruct s as [|c s]; [reflexivity|].
  cbn [includes]. unfold startsWith. now rewrite prefix_refl.
Qed.

(** X28 ([searchNotebooks], notebook-library.ts): the result does not
    depend on the case of the query; the empty query returns every
    notebook, in the order of the library; and every notebook whose name
    is the query up to case is in the result. *)
Theorem searchNotebooks_query (lib : Library) (query : string) :
  searchNotebooks lib (toLowerCase query) = searchNotebooks lib query
  /\ searchNotebooks lib "" = notebooks lib
  /\ incl (List.filter
             (fun n => String.eqb (toLowerCase (name n)) (toLowerCase query))
             (notebooks lib))
          (searchNotebooks lib query).
Proof.
  unfold searchNotebooks. cbv zeta. split; [|split].
  - now rewrite toLowerCase_idempotent.
  - simpl. induction (notebooks lib) as [|n l IH]; [reflexivity|].
    simpl. unfold matches at 1. rewrite includes_empty. simpl. now rewrite IH.
  - intros n Hn. apply filter_In in Hn. destruct Hn as [Hin E].
    apply String.eqb_eq in E. apply filter_In. split; [exact Hin|].
    unfold matches. rewrite E, includes_refl. reflexivity.
Qed.

(** X29 ([selectNotebook], [getActiveNotebook], notebook-library.ts):
    for an id that is not in the library [selectNotebook] throws
    [Notebook not found: id] and changes nothing.  For an id that is, and
    a file that is written, it returns the entry with [last_used] set and
    makes the id the active one; [getNotebook] then returns that entry
    for the id, and so does [getActiveNotebook] unless the id is the
    empty string, for which it returns null; the other ids are looked up
    as before. *)
Theorem selectNotebook_activates (lib : Library) (i : string) (w : Disk)
    (u : unit) (Hw : writeFile w = Resolved u) :
  match getNotebook lib i with
  | None => selectNotebook lib i w = (Rejected (notFound i), lib)
  | Some n =>
      exists lib',
        selectNotebook lib i w = (Resolved (touch n (isoNow w 0%nat)), lib')
        /\ active_notebook_id lib' = Some i
        /\ getNotebook lib' i = Some (touch n (isoNow w 0%nat))
        /\ getActiveNotebook lib'
           = (if isEmpty i then None else Some (touch n (isoNow w 0%nat)))
        /\ (forall j, j <> i -> getNotebook lib' j = getNotebook lib j)
        /\ last_modified lib' = isoNow w 1%nat
  end.
Proof.
  destruct (getNotebook lib i) as [n|] eqn:Hg;
    [|unfold selectNotebook; now rewrite Hg].
  destruct (selectNotebook_steps lib i w n Hg) as (k & Hk & Hn & Hi & ->).
  unfold saveLibrary. rewrite Hw. cbn [notebooks active_notebook_id version].
  eexists. split; [reflexivity|].
  destruct (assign_at_index i (notebooks lib) k (touch n (isoNow w 0%nat)) Hk Hi)
    as (H1 & H2 & _ & _).
  split; [reflexivity|]. split; [exact H1|].
  split; [|split; [exact H2|reflexivity]].
  unfold getActiveNotebook. cbn [active_notebook_id]. unfold truthy.
  destruct (isEmpty i); [reflexivity|exact H1].
Qed.

Lemma selectNotebook_activates_witness :
  writeFile writableDisk = Resolved tt
  /\ match getNotebook twoNotebooks "react" with
     | None =>
         selectNotebook twoNotebooks "react" writableDisk
         = (Rejected (notFound "react"), twoNotebooks)
     | Some n =>
         exists lib',
           selectNotebook twoNotebooks "react" writableDisk
           = (Resolved (touch n (isoNow writableDisk 0%nat)), lib')
           /\ active_notebook_id lib' = Some "react"
           /\ getNotebook lib' "react"
              = Some (touch n (isoNow writableDisk 0%nat))
           /\ getActiveNotebook lib'
              = (if isEmpty "react" then None
                 else Some (touch n (isoNow writableDisk 0%nat)))
           /\ (forall j, j <> "react" ->
                 getNotebook lib' j = getNotebook twoNotebooks j)
           /\ last_modified lib' = isoNow writableDisk 1%nat
     end.
Proof.
  split; [reflexivity|].
  apply (selectNotebook_activates twoNotebooks "react" writableDisk tt).
  reflexivity.
Defined.

(** X30 ([saveLibrary] and its callers, notebook-library.ts): when the
    file cannot be written each of the five calls throws the error of the
    write, and [active_notebook_id] and [last_modified] stay as they
    were; but the notebooks of the library in memory have the change of
    [addNotebook], [selectNotebook], [updateNotebook] and
    [incrementUseCount], which write into the array that the library and
    its copy share: the entry that was not saved is what [getNotebook]
    returns.  Only [removeNotebook], which builds a new array, leaves the
    library as it was. *)
Theorem failed_write_keeps_array_change (lib : Library) (w : Disk)
    (e : JsError) (Hw : writeFile w = Rejected e) :
  (forall input, exists i lib',
      addNotebook lib input w = Some (Rejected e, lib')
      /\ hasId lib i = false
      /\ getNotebook lib' i = Some (newEntry i input w)
      /\ active_notebook_id lib' = active_notebook_id lib
      /\ last_modified lib' = last_modified lib)
  /\ (forall i, match getNotebook lib i with
                | None => True
                | Some n =>
                    exists lib',
                      selectNotebook lib i w = (Rejected e, lib')
                      /\ getNotebook lib' i = Some (touch n (isoNow w 0%nat))
                      /\ active_notebook_id lib' = active_notebook_id lib
                      /\ last_modified lib' = last_modified lib
                end)
  /\ (forall input, match getNotebook lib (upd_id input) with
                    | None => True
                    | Some n =>
                        exists lib',
                          updateNotebook lib input w = (Rejected e, lib')
                          /\ getNotebook lib' (upd_id input)
                             = Some (updatedEntry n input)
                          /\ active_notebook_id lib' = active_notebook_id lib
                          /\ last_modified lib' = last_modified lib
                    end)
  /\ (forall i, match getNotebook lib i with
                | None => True
                | Some n =>
                    exists lib',
                      incrementUseCount lib i w = (Rejected e, lib')
                      /\ getNotebook lib' i = Some (used n (isoNow w 0%nat))
                      /\ active_notebook_id lib' = active_notebook_id lib
                      /\ last_modified lib' = last_modified lib
                end)
  /\ (forall i, match getNotebook lib i with
                | None => True
                | Some _ => removeNotebook lib i w = (Rejected e, lib)
                end).
Proof.
  split; [|split; [|split; [|split]]].
  - intros input.
    destruct (addNotebook_steps lib input w) as (i & Hfree & Ea & Hg & _).
    exists i. eexists. unfold saveLibrary in Ea. rewrite Hw in Ea.
    split; [exact Ea|]. split; [exact Hfree|].
    split; [exact Hg|]. split; reflexivity.
  - intros i. destruct (getNotebook lib i) as [n|] eqn:Hg; [|exact I].
    destruct (selectNotebook_steps lib i w n Hg) as (k & Hk & Hn & Hi & ->).
    unfold saveLibrary. rewrite Hw. eexists. split; [reflexivity|].
    destruct (assign_at_index i (notebooks lib) k (touch n (isoNow w 0%nat)) Hk Hi)
      as (H1 & _). split; [exact H1|]. split; reflexivity.
  - intros input.
    destruct (getNotebook lib (upd_id input)) as [n|] eqn:Hg; [|exact I].
    destruct (updateNotebook_steps lib input w n Hg) as (k & Hk & Hn & Hi & ->).
    unfold saveLibrary. rewrite Hw. eexists. split; [reflexivity|].
    destruct (assign_at_index (upd_id input) (notebooks lib) k
                (updatedEntry n input) Hk Hi) as (H1 & _).
    split; [exact H1|]. split; reflexivity.
  - intros i. destruct (getNotebook lib i) as [n|] eqn:Hg; [|exact I].
    destruct (incrementUseCount_steps lib i w n Hg) as (k & Hk & Hn & Hi & ->).
    unfold saveLibrary. rewrite Hw. eexists. split; [reflexivity|].
    destruct (assign_at_index i (notebooks lib) k (used n (isoNow w 0%nat)) Hk Hi)
      as (H1 & _). split; [exact H1|]. split; reflexivity.
  - intros i. destruct (getNotebook lib i) as [n|] eqn:Hg; [|exact I].
    unfold removeNotebook. rewrite Hg. cbv zeta. unfold saveLibrary.
    rewrite Hw. now rewrite same_library.
Qed.

Lemma failed_write_keeps_array_change_witness :
  writeFile fullDisk = Rejected diskError
  /\ forall input, exists i lib',
       addNotebook twoNotebooks input fullDisk = Some (Rejected diskError, lib')
       /\ hasId twoNotebooks i = false
       /\ getNotebook lib' i = Some (newEntry i input fullDisk)
       /\ active_notebook_id lib' = active_notebook_id twoNotebooks
       /\ last_modified lib' = last_modified twoNotebooks.
Proof.
  split; [reflexivity|].
  exact (proj1 (failed_write_keeps_array_change twoNotebooks fullDisk
                  diskError eq_refl)).
Defined.

End LibraryFacts.
